(** * The stateless dialog router of the PartSelect parts assistant

    A shallow embedding of [backend/src/agent/router.ts], [tools.ts] and
    [groqHelpers.ts], and the properties of the router proved over it.

    Text.  A JavaScript string is modelled as a Rocq [string]: the sequence
    of the bytes of its UTF-8 encoding.  Case mapping ([toLowerCase],
    [toUpperCase]) and the regular-expression classes [\d], [\w], [\s] and
    [\b] act on the ASCII range; a byte above 127 is caseless, is no word
    character and is no white space.  Substring tests on UTF-8 bytes agree
    with substring tests on the characters; [length] and [slice] count bytes
    (the router measures only the guide snippet and ASCII tokens).

    This is JavaScript's behaviour on ASCII text and on the router's own
    replies.  Outside ASCII, JavaScript also upper-cases the long s to S and a
    few ligatures to letter pairs, lower-cases the Kelvin sign to k, and knows
    more white space ([\s], [trim]); the patterns with the flag [i], which the
    router uses without the flag [u], stay on ASCII as modelled.  A property
    whose truth depends on the difference is stated for what the code does on
    every text: with the fact it needs as a hypothesis, or for ASCII text
    ([ascii_text]).

    Regular expressions.  The router's regular expressions are written as
    terms of [regex] and run by a small backtracking matcher with the
    priorities of the JavaScript one (leftmost start, first alternative
    first, greedy quantifiers, numbered groups).

    The outside world.  Whatever a turn reads from outside the request is a
    field of [World]: the credential, the answers of the network, the draw
    of [Math.random], the three sample data files and [JSON.parse]. *)

From Stdlib Require Import String Ascii List Bool Arith PeanoNat Lia ZArith QArith Qround
  DecimalString Sorted.
Import ListNotations.
Open Scope string_scope.
Open Scope bool_scope.
Open Scope nat_scope.

Set Implicit Arguments.

(** [a === b] on strings *)
Infix "===" := String.eqb (at level 70, no associativity).

(* ===================================================================== *)
(** * Part I. Definitions *)
(* ===================================================================== *)

(** ** Characters and strings *)

Definition code (c : ascii) : nat := nat_of_ascii c.

Definition is_digit (c : ascii) : bool := (48 <=? code c) && (code c <=? 57).
Definition is_upper (c : ascii) : bool := (65 <=? code c) && (code c <=? 90).
Definition is_lower (c : ascii) : bool := (97 <=? code c) && (code c <=? 122).
Definition is_letter (c : ascii) : bool := is_upper c || is_lower c.

(** [\w] *)
Definition is_word (c : ascii) : bool := is_letter c || is_digit c || (c =? "_")%char.

(** [\s], on the ASCII range: tab, line feed, vertical tab, form feed,
    carriage return, space. *)
Definition is_space (c : ascii) : bool :=
  ((9 <=? code c) && (code c <=? 13)) || (code c =? 32).

Definition toLowerChar (c : ascii) : ascii :=
  if is_upper c then ascii_of_nat (code c + 32) else c.
Definition toUpperChar (c : ascii) : ascii :=
  if is_lower c then ascii_of_nat (code c - 32) else c.

Fixpoint map_string (f : ascii -> ascii) (s : string) : string :=
  match s with
  | EmptyString => EmptyString
  | String c s' => String (f c) (map_string f s')
  end.

Definition toLowerCase : string -> string := map_string toLowerChar.
Definition toUpperCase : string -> string := map_string toUpperChar.

(** [s.includes(sub)] *)
Fixpoint includes (s sub : string) : bool :=
  prefix sub s ||
  match s with
  | EmptyString => false
  | String _ s' => includes s' sub
  end.

(** [s.startsWith(p)] *)
Definition startsWith (s p : string) : bool := prefix p s.

Fixpoint trimStart (s : string) : string :=
  match s with
  | String c s' => if is_space c then trimStart s' else s
  | EmptyString => EmptyString
  end.

Fixpoint trimEnd (s : string) : string :=
  match s with
  | EmptyString => EmptyString
  | String c s' =>
      match trimEnd s' with
      | EmptyString => if is_space c then EmptyString else String c EmptyString
      | t => String c t
      end
  end.

(** [s.trim()] *)
Definition trim (s : string) : string := trimEnd (trimStart s).

(** [s.split(sep)[0]] for a one-character separator: the text before its
    first occurrence. *)
Fixpoint split_first (sep : ascii) (s : string) : string :=
  match s with
  | EmptyString => EmptyString
  | String c s' => if (c =? sep)%char then EmptyString else String c (split_first sep s')
  end.

(** [s.slice(0, n)] *)
Definition slice0 (n : nat) (s : string) : string := substring 0 n s.

(** The line feed and the double quote, which a literal cannot hold. *)
Definition nl : string := String "010"%char EmptyString.
Definition dquote : string := String "034"%char EmptyString.

(** A value that may be [undefined]; [truthy] is JavaScript's test of it in
    a condition: [undefined] and the empty string are false. *)
Definition truthy (o : option string) : bool :=
  match o with
  | Some s => negb (s === "")
  | None => false
  end.

Definition isSome {A} (o : option A) : bool :=
  match o with Some _ => true | None => false end.

(** [a ?? b] *)
Definition orElse {A} (o : option A) (d : A) : A :=
  match o with Some x => x | None => d end.

(** [a ?? b] where [b] may be undefined too *)
Definition orElseOpt {A} (o p : option A) : option A :=
  match o with Some x => Some x | None => p end.

(** ** Regular expressions *)

Inductive regex : Type :=
| Chr (cls : ascii -> bool)                    (* one character of a class *)
| Eps                                          (* the empty pattern *)
| Cat (r1 r2 : regex)                          (* r1 r2 *)
| Alt (r1 r2 : regex)                          (* r1 | r2 *)
| Rep (lo : nat) (hi : option nat) (r : regex) (* r{lo,hi}, greedy; no hi: unbounded *)
| Bnd                                          (* \b *)
| Bol                                          (* ^ *)
| Eol                                          (* $ *)
| Grp (n : nat) (r : regex).                   (* capture group number n *)

(** A literal, as the sequence of its characters. *)
Fixpoint lit (s : string) : regex :=
  match s with
  | EmptyString => Eps
  | String c s' => Cat (Chr (Ascii.eqb c)) (lit s')
  end.

Definition opt (r : regex) : regex := Rep 0 (Some 1) r.
Definition star (r : regex) : regex := Rep 0 None r.
Definition plus (r : regex) : regex := Rep 1 None r.

Fixpoint alts (rs : list regex) : regex :=
  match rs with
  | [] => Eps
  | [r] => r
  | r :: rs' => Alt r (alts rs')
  end.

(** A position of the matcher in the subject: the character before it, the
    text after it, and the groups captured on the way. *)
Record cursor : Type := mkCursor {
  before : option ascii;
  rest : string;
  groups : list (nat * string)
}.

Definition step (a : ascii) (s' : string) (c : cursor) : cursor :=
  {| before := Some a; rest := s'; groups := groups c |}.

(** The text between two positions of one subject. *)
Definition consumed (c c' : cursor) : string :=
  substring 0 (String.length (rest c) - String.length (rest c')) (rest c).

Definition set_group (n : nat) (v : string) (c : cursor) : cursor :=
  {| before := before c; rest := rest c; groups := (n, v) :: groups c |}.

Fixpoint group (n : nat) (gs : list (nat * string)) : option string :=
  match gs with
  | [] => None
  | (m, v) :: gs' => if m =? n then Some v else group n gs'
  end.

Definition word_before (c : cursor) : bool :=
  match before c with Some a => is_word a | None => false end.
Definition word_after (c : cursor) : bool :=
  match rest c with String a _ => is_word a | EmptyString => false end.

(** [\b] holds where exactly one side is a word character. *)
Definition boundary (c : cursor) : bool := xorb (word_before c) (word_after c).

(** A class accepts a character; with the flag [i] it accepts it in either
    case. *)
Definition accepts (ci : bool) (cls : ascii -> bool) (a : ascii) : bool :=
  if ci then cls (toUpperChar a) || cls (toLowerChar a) else cls a.

Definition below (n : nat) (hi : option nat) : bool :=
  match hi with Some h => n <? h | None => true end.

(** The loop of a quantifier, [n] iterations done: one more iteration first
    (greedy), else stop if [lo] is reached.  An iteration that consumes
    nothing is refused; the fuel is the length of the remaining text. *)
Fixpoint iterate (body : (cursor -> option cursor) -> cursor -> option cursor)
    (lo : nat) (hi : option nat) (k : cursor -> option cursor)
    (fuel n : nat) (c : cursor) {struct fuel} : option cursor :=
  let stop := if lo <=? n then k c else None in
  match fuel with
  | 0 => stop
  | S fuel' =>
      if below n hi then
        match body (fun c' =>
                      if String.length (rest c') <? String.length (rest c)
                      then iterate body lo hi k fuel' (S n) c'
                      else None) c with
        | Some e => Some e
        | None => stop
        end
      else stop
  end.

(** The backtracking matcher, in continuation-passing style: [run ci r k c]
    matches [r] at [c] and hands every end position, in priority order, to
    [k] until [k] accepts one. *)
Fixpoint run (ci : bool) (r : regex) (k : cursor -> option cursor) (c : cursor)
    {struct r} : option cursor :=
  match r with
  | Chr cls =>
      match rest c with
      | String a s' => if accepts ci cls a then k (step a s' c) else None
      | EmptyString => None
      end
  | Eps => k c
  | Cat r1 r2 => run ci r1 (run ci r2 k) c
  | Alt r1 r2 =>
      match run ci r1 k c with
      | Some e => Some e
      | None => run ci r2 k c
      end
  | Rep lo hi r0 => iterate (run ci r0) lo hi k (String.length (rest c)) 0 c
  | Bnd => if boundary c then k c else None
  | Bol => match before c with None => k c | Some _ => None end
  | Eol => match rest c with EmptyString => k c | String _ _ => None end
  | Grp n r0 => run ci r0 (fun c' => k (set_group n (consumed c c') c')) c
  end.

(** A match: where it starts, its text ([m[0]]), its groups, and the
    position after it. *)
Record rmatch : Type := mkMatch {
  m_index : nat;
  m_0 : string;
  m_groups : list (nat * string);
  m_end : cursor
}.

(** The leftmost match at or after a position ([i] characters in). *)
Fixpoint scan (ci : bool) (r : regex) (prev : option ascii) (s : string) (i : nat)
    {struct s} : option rmatch :=
  let c := {| before := prev; rest := s; groups := [] |} in
  match run ci r (fun e => Some e) c with
  | Some e => Some {| m_index := i; m_0 := consumed c e; m_groups := groups e; m_end := e |}
  | None =>
      match s with
      | EmptyString => None
      | String a s' => scan ci r (Some a) s' (S i)
      end
  end.

(** [s.match(re)] for a regex without the flag [g]; also [re.exec(s)]. *)
Definition exec (ci : bool) (r : regex) (s : string) : option rmatch :=
  scan ci r None s 0.

(** [re.test(s)] *)
Definition test (ci : bool) (r : regex) (s : string) : bool := isSome (exec ci r s).

(** [m?.[0]] and [m?.[n]] *)
Definition match0 (m : option rmatch) : option string :=
  match m with Some x => Some (m_0 x) | None => None end.
Definition matchN (n : nat) (m : option rmatch) : option string :=
  match m with Some x => group n (m_groups x) | None => None end.

(** All the matches, left to right, each search starting where the last
    match ended (one character further after an empty match). *)
Fixpoint scanAll (fuel : nat) (ci : bool) (r : regex) (prev : option ascii) (s : string)
    (i : nat) {struct fuel} : list rmatch :=
  match fuel with
  | 0 => []
  | S fuel' =>
      match scan ci r prev s i with
      | None => []
      | Some m =>
          let e := m_end m in
          let j := m_index m + String.length (m_0 m) in
          m :: match m_0 m, rest e with
               | EmptyString, String a s' => scanAll fuel' ci r (Some a) s' (S j)
               | EmptyString, EmptyString => []
               | _, _ => scanAll fuel' ci r (before e) (rest e) j
               end
      end
  end.

(** [s.match(re)] for a regex with the flag [g]: the texts of all matches,
    or [null] when there is none. *)
Definition matchAll (ci : bool) (r : regex) (s : string) : option (list string) :=
  match scanAll (S (String.length s)) ci r None s 0 with
  | [] => None
  | ms => Some (map m_0 ms)
  end.

(** Rebuilds the subject with every match replaced: [pos] is where the
    unread text [s] starts. *)
Fixpoint splice (ms : list rmatch) (by_ : string) (pos : nat) (s : string) : string :=
  match ms with
  | [] => s
  | m :: ms' =>
      let gap := m_index m - pos in
      let len := String.length (m_0 m) in
      substring 0 gap s ++ by_ ++
      splice ms' by_ (m_index m + len) (substring (gap + len) (String.length s) s)
  end.

(** [s.replace(re, by)] for a regex with the flag [g]. *)
Definition replaceAll (ci : bool) (r : regex) (by_ : string) (s : string) : string :=
  splice (scanAll (S (String.length s)) ci r None s 0) by_ 0 s.

(** [s.split(re).filter(Boolean)]: the non-empty pieces between the matches. *)
Fixpoint pieces (ms : list rmatch) (pos : nat) (s : string) : list string :=
  match ms with
  | [] => [s]
  | m :: ms' =>
      let gap := m_index m - pos in
      let len := String.length (m_0 m) in
      substring 0 gap s ::
      pieces ms' (m_index m + len) (substring (gap + len) (String.length s) s)
  end.

Definition splitNonEmpty (ci : bool) (r : regex) (s : string) : list string :=
  filter (fun p => negb (p === ""))
         (pieces (scanAll (S (String.length s)) ci r None s 0) 0 s).

(** Character classes of the router's patterns. *)
Definition digit : regex := Chr is_digit.
Definition space : regex := Chr is_space.
Definition one_of (set : string) (c : ascii) : bool := includes set (String c EmptyString).
(** [[A-Z0-9]] *)
Definition upper_or_digit (c : ascii) : bool := is_upper c || is_digit c.

(** ** What a match means

    The declarative reading of a pattern, against which the matcher is shown
    sound: [Den ci r c c'] holds when [r] can match from position [c] to
    position [c']. *)

(** [n] iterations, each consuming something. *)
Fixpoint Pow (R : cursor -> cursor -> Prop) (n : nat) (c c' : cursor) : Prop :=
  match n with
  | 0 => c' = c
  | S n' =>
      exists mid, R c mid /\ String.length (rest mid) < String.length (rest c) /\
                  Pow R n' mid c'
  end.

Fixpoint Den (ci : bool) (r : regex) (c c' : cursor) : Prop :=
  match r with
  | Chr cls => exists a s', rest c = String a s' /\ accepts ci cls a = true /\ c' = step a s' c
  | Eps => c' = c
  | Cat r1 r2 => exists mid, Den ci r1 c mid /\ Den ci r2 mid c'
  | Alt r1 r2 => Den ci r1 c c' \/ Den ci r2 c c'
  | Rep lo hi r0 =>
      exists n, lo <= n /\ (forall h, hi = Some h -> n <= h) /\ Pow (Den ci r0) n c c'
  | Bnd => boundary c = true /\ c' = c
  | Bol => before c = None /\ c' = c
  | Eol => rest c = EmptyString /\ c' = c
  | Grp g r0 => exists e, Den ci r0 c e /\ c' = set_group g (consumed c e) e
  end.

(** The character before the position reached by reading [s]. *)
Fixpoint last_char (prev : option ascii) (s : string) : option ascii :=
  match s with
  | EmptyString => prev
  | String a s' => last_char (Some a) s'
  end.

Definition ends_with_word (s : string) : bool :=
  match last_char None s with Some a => is_word a | None => false end.

Definition starts_with_word (s : string) : bool :=
  match s with String a _ => is_word a | EmptyString => false end.

Fixpoint all_digits (s : string) : bool :=
  match s with
  | EmptyString => true
  | String a s' => is_digit a && all_digits s'
  end.

(** The text starts with PS, in either letter case, and five digits. *)
Definition starts_ps5 (s : string) : bool :=
  match s with
  | String p (String q r) =>
      (toUpperChar p =? "P")%char && (toUpperChar q =? "S")%char &&
      (5 <=? String.length r) && all_digits (substring 0 5 r)
  | _ => false
  end.

(** The places of a text where PS and five digits start; the text is read
    from position [i]. *)
Fixpoint ps5_starts (i : nat) (s : string) : list nat :=
  ((if starts_ps5 s then [i] else []) ++
   match s with
   | EmptyString => []
   | String _ s' => ps5_starts (S i) s'
   end)%list.

(** The position reached from [c] by reading [w], with [tail] left to read. *)
Definition advance (c : cursor) (w tail : string) : cursor :=
  {| before := last_char (before c) w; rest := tail; groups := groups c |}.

(** ** Basic utils (router.ts) *)

Inductive Role : Type := user | assistant.

Record ChatMessage : Type := mkMsg { role : Role; content : string }.

Definition Role_eqb (a b : Role) : bool :=
  match a, b with
  | user, user | assistant, assistant => true
  | _, _ => false
  end.

(** [/\s+/g] *)
Definition SPACES_RE : regex := plus space.
(** [/[^a-z]/g] *)
Definition NON_LETTER_RE : regex := Chr (fun c => negb (is_lower c)).

Definition norm (s : string) : string :=
  replaceAll false SPACES_RE " " (toLowerCase (trim s)).

Definition onlyLetters (s : string) : string :=
  replaceAll false NON_LETTER_RE "" (toLowerCase s).

(** [arr.slice(-n)]: the last [n] elements; [slice(-0)] is [slice(0)], the
    whole array. *)
Definition slice_last {A} (n : nat) (l : list A) : list A :=
  match n with
  | 0 => l
  | S _ => skipn (List.length l - n) l
  end.

Definition lastNUser (history : list ChatMessage) (n : nat) : list ChatMessage :=
  slice_last n (filter (fun m => Role_eqb (role m) user) history).

(** [h.slice(Math.max(0, h.length - n))] *)
Definition lastN (history : list ChatMessage) (n : nat) : list ChatMessage :=
  skipn (Nat.max 0 (List.length history - n)) history.

(** The loop runs from the last turn to the first; on the list it is a
    recursion that prefers what the tail finds. *)
Fixpoint lastAssistant (history : list ChatMessage) : option ChatMessage :=
  match history with
  | [] => None
  | m :: h' =>
      match lastAssistant h' with
      | Some a => Some a
      | None => if Role_eqb (role m) assistant then Some m else None
      end
  end.

Definition countUserRepeatsExcludingCurrent (history : list ChatMessage) (current : string) : nat :=
  let cur := norm current in
  let h := history in
  let end_ := List.length h in
  let end_ :=
    match last (map Some h) None with
    | Some last_ =>
        if Role_eqb (role last_) user && (norm (content last_) === cur) then end_ - 1 else end_
    | None => end_
    end in
  List.length
    (filter (fun m => Role_eqb (role m) user && (norm (content m) === cur)) (firstn end_ h)).

(** ** Entity extraction *)

(** [/[A-Z0-9._%+-]+@[A-Z0-9.-]+\.[A-Z]{2,}/gi] *)
Definition EMAIL_RE : regex :=
  Cat (plus (Chr (fun c => upper_or_digit c || one_of "._%+-" c)))
 (Cat (lit "@")
 (Cat (plus (Chr (fun c => upper_or_digit c || one_of ".-" c)))
 (Cat (lit ".")
      (Rep 2 None (Chr is_upper))))).

(** [/(PS\d{5,10})/i] *)
Definition PS_IN_URL_RE : regex :=
  Grp 1 (Cat (lit "PS") (Rep 5 (Some 10) digit)).

(** [[A-Z0-9_-]] *)
Definition model_char (c : ascii) : bool := upper_or_digit c || one_of "_-" c.

(** [/\b[A-Z0-9][A-Z0-9_-]{4,23}\b/g] *)
Definition MODEL_TOKEN_RE : regex :=
  Cat Bnd (Cat (Chr upper_or_digit) (Cat (Rep 4 (Some 23) (Chr model_char)) Bnd)).

Definition extractEmail (text : string) : option string :=
  match matchAll true EMAIL_RE text with
  | Some (m :: _) => Some m
  | _ => None
  end.

Definition stripEmails (text : string) : string := replaceAll true EMAIL_RE " " text.

(** [/\bPS\d{5,10}\b/] *)
Definition PS_FULL_RE : regex := Cat Bnd (Cat (lit "PS") (Cat (Rep 5 (Some 10) digit) Bnd)).
(** [/\bPS\d{1,4}\b/] *)
Definition PS_SHORT_RE : regex := Cat Bnd (Cat (lit "PS") (Cat (Rep 1 (Some 4) digit) Bnd)).

(** Extract PS from plain text *)
Definition extractPartNumber (text : string) : option string :=
  let up := toUpperCase text in
  match0 (exec false PS_FULL_RE up).

(** Extract short token like PS12 / PS1234 (incomplete) *)
Definition extractShortPartToken (text : string) : option string :=
  let up := toUpperCase text in
  match0 (exec false PS_SHORT_RE up).

(** Extract PS from PartSelect link or arbitrary URL-ish text *)
Definition extractPartNumberFromLinkOrText (text : string) : option string :=
  let direct := extractPartNumber text in
  if truthy direct then direct
  else
    let m := exec true PS_IN_URL_RE text in
    if truthy (matchN 1 m) then option_map toUpperCase (matchN 1 m)
    else None.

(** crude URL check *)
Definition looksLikeUrl (text : string) : bool :=
  let t := toLowerCase text in
  includes t "http://" || includes t "https://" || includes t "www." ||
  includes t ".com/" || includes t ".net/".

(** [new Set([...]).has(x)], [arr.includes(x)] *)
Definition has (set : list string) (x : string) : bool := existsb (String.eqb x) set.

(** [/^\d{8,}$/] *)
Definition LONG_DIGITS_RE : regex := Cat Bol (Cat (Rep 8 None digit) Eol).

(** Model number heuristics *)
Definition looksLikeRealModelToken (x : option string) : bool :=
  match x with
  | None => false
  | Some x =>
      if x === "" then false
      else
        let bad := ["NUMBER"; "MODEL"; "UNKNOWN"; "N/A"; "NULL"; "NONE"; "HELLO"; "THANKS"] in
        if has bad x then false
        else if String.length x <? 5 then false
        (* must have at least one digit and one letter *)
        else if negb (test false (Chr is_upper) x) || negb (test false digit x) then false
        (* avoid PS-like *)
        else if startsWith x "PS" then false
        (* avoid pure serial-looking long digits *)
        else if test false LONG_DIGITS_RE x then false
        else true
  end.

(** [/\bMODEL\s*(NUMBER)?\s*(IS|:)?\s*([A-Z0-9][A-Z0-9_-]{2,24})\b/] *)
Definition MODEL_PHRASE_RE : regex :=
  Cat Bnd (Cat (lit "MODEL") (Cat (star space)
 (Cat (opt (Grp 1 (lit "NUMBER"))) (Cat (star space)
 (Cat (opt (Grp 2 (Alt (lit "IS") (lit ":")))) (Cat (star space)
 (Cat (Grp 3 (Cat (Chr upper_or_digit) (Rep 2 (Some 24) (Chr model_char))))
      Bnd))))))).

(** [raw.split("/")[0].split("\\")[0]] *)
Definition mainChunk (raw : string) : string :=
  split_first "\"%char (split_first "/"%char raw).

(** The scan of the candidates: the first that looks like a model token and
    is no noise word. *)
Fixpoint firstModelCandidate (cands : list string) : option string :=
  match cands with
  | [] => None
  | raw :: cands' =>
      let token := mainChunk raw in
      if negb (looksLikeRealModelToken (Some token)) then firstModelCandidate cands'
      else if (token === "DRAIN") || (token === "INSTALL") || (token === "REFUND") || (token === "RETURN")
           then firstModelCandidate cands'
      else Some token
  end.

Definition extractModelNumber (text : string) : option string :=
  let scrubbed := stripEmails text in
  let up := toUpperCase scrubbed in
  let m := exec false MODEL_PHRASE_RE up in
  let fromPhrase :=
    if truthy (matchN 3 m) then
      let token := mainChunk (orElse (matchN 3 m) "") in
      if negb (startsWith token "PS") && looksLikeRealModelToken (Some token) then Some token else None
    else None in
  match fromPhrase with
  | Some token => Some token
  | None =>
      let cands := orElse (matchAll false MODEL_TOKEN_RE up) [] in
      firstModelCandidate cands
  end.

(** ** Appliance inference *)

Inductive Appliance : Type := refrigerator | dishwasher | unknown_appliance.

Definition Appliance_eqb (a b : Appliance) : bool :=
  match a, b with
  | refrigerator, refrigerator | dishwasher, dishwasher
  | unknown_appliance, unknown_appliance => true
  | _, _ => false
  end.

Definition inferApplianceFromText (text : string) : Appliance :=
  let t := toLowerCase text in
  (* dishwasher strong signals *)
  if includes t "dishwasher" || includes t "wdt" || includes t "kdf" ||
     includes t "not draining" || includes t "drain" || includes t "spray arm" ||
     includes t "sump" || includes t "air gap" || includes t "high loop"
  then dishwasher
  (* refrigerator strong signals *)
  else if includes t "fridge" || includes t "refrigerator" || includes t "freezer" ||
          includes t "ice maker" || includes t "icemaster" || includes t "defrost" ||
          includes t "evaporator" || includes t "not cooling"
  then refrigerator
  else unknown_appliance.

Definition wantsAlternatives (text : string) : bool :=
  let t := toLowerCase text in
  includes t "alternative" || includes t "alternatives" || includes t "substitute" ||
  includes t "replace with" || includes t "other option".

Definition wantsHuman (text : string) : bool :=
  let t := toLowerCase text in
  includes t "human" || includes t "real person" || includes t "live agent" ||
  includes t "agent" || includes t "representative" || includes t "customer service" ||
  includes t "support" || includes t "talk to someone" || includes t "live chat".

Definition looksLikeSmallTalk (text : string) : bool :=
  let t := norm text in
  (t === "hi") || (t === "hello") || (t === "help") || (t === "hello?") || (t === "hey") ||
  (t === "hello world") || (t === "confused").

Definition looksLikeAck (text : string) : bool :=
  let t := onlyLetters text in
  (t === "ok") || (t === "okay") || (t === "k") || (t === "kk") || (t === "thanks") ||
  (t === "thankyou") || (t === "thx") || (t === "cool") || (t === "gotit") ||
  (t === "great") || (t === "nice") || (t === "perfect").

(** ** Order support extraction *)

(** [/\b(ORD|ORDER)\s*#?\s*([A-Z0-9-]{5,20})\b/i] *)
Definition ORDER_RE : regex :=
  Cat Bnd (Cat (Grp 1 (Alt (lit "ORD") (lit "ORDER"))) (Cat (star space)
 (Cat (opt (lit "#")) (Cat (star space)
 (Cat (Grp 2 (Rep 5 (Some 20) (Chr (fun c => upper_or_digit c || one_of "-" c))))
      Bnd))))).

(** [/\b\d{5}(?:-\d{4})?\b/] *)
Definition ZIP_RE : regex :=
  Cat Bnd (Cat (Rep 5 (Some 5) digit)
 (Cat (opt (Cat (lit "-") (Rep 4 (Some 4) digit))) Bnd)).

Definition extractOrderId (text : string) : option string :=
  let m := exec true ORDER_RE text in
  if truthy (matchN 2 m) then option_map toUpperCase (matchN 2 m) else None.

Definition extractZip (text : string) : option string :=
  match0 (exec false ZIP_RE text).

Definition wantsReturnRefundShipping (text : string) : bool :=
  let t := toLowerCase text in
  includes t "order" || includes t "shipping" || includes t "deliver" ||
  includes t "delivery" || includes t "return" || includes t "refund" || includes t "exchange".

(** ** Intent inference *)

Inductive Intent : Type :=
| part_lookup | compatibility_check | installation_help | troubleshooting
| order_support | unknown.

Definition Intent_eqb (a b : Intent) : bool :=
  match a, b with
  | part_lookup, part_lookup | compatibility_check, compatibility_check
  | installation_help, installation_help | troubleshooting, troubleshooting
  | order_support, order_support | unknown, unknown => true
  | _, _ => false
  end.

(** [/\b(compatibility|compatible|install|installation|troubleshoot|troubleshooting|order|shipping|return|refund|human|agent|representative|customer service|support)\b/i] *)
Definition INTENT_KEYWORDS_RE : regex :=
  Cat Bnd (Cat (Grp 1 (alts (map lit
    ["compatibility"; "compatible"; "install"; "installation"; "troubleshoot";
     "troubleshooting"; "order"; "shipping"; "return"; "refund"; "human"; "agent";
     "representative"; "customer service"; "support"]))) Bnd).

Definition hasGlobalIntentKeyword (text : string) : bool :=
  test true INTENT_KEYWORDS_RE text.

(** install intent must beat "PS => part_lookup".
    Order: human > install > compatibility > part_lookup > order > troubleshooting *)
Definition inferIntent (text : string) : Intent :=
  let t := toLowerCase text in
  (* highest-level: explicit human request *)
  if wantsHuman t then order_support
  (* install FIRST (even if PS is present) *)
  else if includes t "install" || includes t "how do i install" || includes t "installation" ||
          includes t "replacement" || includes t "replace" || includes t "remove" ||
          includes t "swap"
  then installation_help
  (* compatibility *)
  else if includes t "compatible" || includes t "compatibility" ||
          includes t "fit my model" || includes t "fits my model"
  then compatibility_check
  (* part_lookup: alternatives or explicit PS/link *)
  else if wantsAlternatives t then part_lookup
  else if truthy (extractPartNumberFromLinkOrText text) then part_lookup
  (* order *)
  else if wantsReturnRefundShipping t || truthy (extractOrderId text) || truthy (extractZip text)
  then order_support
  (* troubleshooting *)
  else if includes t "not working" || includes t "won't" || includes t "doesn't" ||
          includes t "troubleshoot" || includes t "fix" || includes t "not cooling" ||
          includes t "not draining" || includes t "leak" || includes t "error code" ||
          includes t "e:" || includes t "f:" || includes t "beeping"
  then troubleshooting
  else unknown.

(** Follow-up should be consumed unless user CLEARLY switches intent. *)
Definition isClearIntentShift (text : string) : bool :=
  if text === "" then false
  else if wantsHuman text || wantsAlternatives text then true
  else if truthy (extractEmail text) then true
  else if truthy (extractOrderId text) || truthy (extractZip text) then true
  (* explicit part/model input counts as shift *)
  else if truthy (extractPartNumberFromLinkOrText text) then true
  else if truthy (extractModelNumber text) then true
  else
    let intent := inferIntent text in
    Intent_eqb intent compatibility_check || Intent_eqb intent installation_help ||
    Intent_eqb intent troubleshooting || Intent_eqb intent order_support ||
    Intent_eqb intent part_lookup.

(** ** Session resolution (appliance-aware) *)

Definition messageMentionsAppliance (m : ChatMessage) (appliance : Appliance) : bool :=
  if Appliance_eqb appliance unknown_appliance then true
  else Appliance_eqb (inferApplianceFromText (content m)) appliance.

(** Both loops run from the last turn to the first: the recursion prefers
    what the tail finds. *)
Fixpoint findLastPartNumber (history : list ChatMessage) : option string :=
  match history with
  | [] => None
  | m :: h' =>
      match findLastPartNumber h' with
      | Some pn => Some pn
      | None =>
          let pn := extractPartNumberFromLinkOrText (content m) in
          if truthy pn then pn else None
      end
  end.

Fixpoint findLastModelNumberForAppliance (history : list ChatMessage) (appliance : Appliance)
    : option string :=
  match history with
  | [] => None
  | msg :: h' =>
      match findLastModelNumberForAppliance h' appliance with
      | Some mn => Some mn
      | None =>
          if negb (Role_eqb (role msg) user) then None
          else if negb (messageMentionsAppliance msg appliance) then None
          else
            let mn := extractModelNumber (content msg) in
            if truthy mn then mn else None
      end
  end.

(** The two counters of the vote, after the loop over the recent turns. *)
Fixpoint applianceVotes (recent : list ChatMessage) (dw rf : nat) : nat * nat :=
  match recent with
  | [] => (dw, rf)
  | m :: recent' =>
      let a := inferApplianceFromText (content m) in
      let dw := if Appliance_eqb a dishwasher then S dw else dw in
      let rf := if Appliance_eqb a refrigerator then S rf else rf in
      applianceVotes recent' dw rf
  end.

(** Appliance pinning *)
Definition inferPinnedAppliance (message : string) (history : list ChatMessage) : Appliance :=
  let now := inferApplianceFromText message in
  if negb (Appliance_eqb now unknown_appliance) then now
  else
    let recent := lastNUser history 8 in
    let '(dw, rf) := applianceVotes recent 0 0 in
    if dw =? rf then unknown_appliance
    else if rf <? dw then dishwasher else refrigerator.

Record Entities : Type := mkEntities {
  partNumber : option string;
  modelNumber : option string;
  hasIncompletePart : bool;
  shortPart : option string
}.

Definition resolveEntities (message : string) (history : list ChatMessage)
    (appliance : Appliance) : Entities :=
  let shortPart := extractShortPartToken message in
  let part := extractPartNumberFromLinkOrText message in
  let model := extractModelNumber message in
  let hasIncompletePart := truthy shortPart && negb (truthy part) in
  (* continuity for part/model *)
  let partNumber :=
    orElseOpt part (if hasIncompletePart then None else findLastPartNumber history) in
  let modelNumber := orElseOpt model (findLastModelNumberForAppliance history appliance) in
  {| partNumber := partNumber; modelNumber := modelNumber;
     hasIncompletePart := hasIncompletePart; shortPart := shortPart |}.

(** ** Dialog state *)

Inductive ChoiceOption : Type := opt_compatibility | opt_install | opt_symptom.
Inductive OrderAsk : Type := ask_order_id | ask_zip | ask_both.

(** The kinds of [Awaiting]; [null] is [None] of [option Slot]. *)
Inductive Slot : Type :=
| pump_sound
| dishwasher_drain_speed
| drain_hose_setup
| sink_connection_type
| disposal_flow_yesno
| disposal_knockout_yesno
| tailpiece_gunk_yesno
| did_it_fix_yesno            (* context: "drain_issue" *)
| choice (options : list ChoiceOption)
| install_step
| clamp_type
| panel_fastener
| connector_latch_side
| order_info (ask : OrderAsk)
| fridge_freezer_warming_yesno
| panel_still_wont_drop_yesno
| connector_moving_or_stuck.

Definition Awaiting : Type := option Slot.

(** The rule table over the lower-cased text of the last assistant turn. *)
Definition slotOfAssistantText (a : string) : Awaiting :=
  if a === "" then None
  (* drain speed question (standing water OR drain slowly) *)
  else if (includes a "leaving standing water" || includes a "standing water") &&
          (includes a "drain slowly" || includes a "drains slowly" ||
           includes a "drain is slow" || includes a "slow")
  then Some dishwasher_drain_speed
  else if includes a "is it leaving standing water" && includes a "or does it drain slowly"
  then Some dishwasher_drain_speed
  else if includes a "which one is it: standing water" && includes a "drains slowly"
  then Some dishwasher_drain_speed
  (* pump sound question *)
  else if (includes a "do you hear the drain pump" && includes a "(yes/no)") ||
          (includes a "pump" && includes a "running" && includes a "humming" && includes a "silent") ||
          (includes a "humming" && includes a "totally silent") ||
          (includes a "running, humming" && includes a "totally silent")
  then Some pump_sound
  else if (includes a "high loop" || includes a "air gap") && includes a "under the sink"
  then Some drain_hose_setup
  else if (includes a "garbage disposal" || includes a "disposal") && includes a "sink tailpiece"
  then Some sink_connection_type
  else if includes a "strong water flow" && includes a "(yes/no)" then Some disposal_flow_yesno
  else if includes a "knockout plug" && includes a "(yes/no)" then Some disposal_knockout_yesno
  else if includes a "disconnect" && includes a "tailpiece" && includes a "(yes/no)"
  then Some tailpiece_gunk_yesno
  else if (includes a "does it drain" || includes a "drain normally" || includes a "fixed") &&
          includes a "(yes/no)"
  then Some did_it_fix_yesno
  (* choice router *)
  else if (includes a "tell me what you want to solve" || includes a "what you want to solve") &&
          (includes a "compatibility" && includes a "install" && includes a "symptom")
  then Some (choice [opt_compatibility; opt_install; opt_symptom])
  else if includes a "compatibility/install/symptom"
  then Some (choice [opt_compatibility; opt_install; opt_symptom])
  (* install chain *)
  else if includes a "which step are you on: panel, clamps, or connector" ||
          includes a "which step is blocking you" ||
          includes a "which part is giving you trouble: the panel, hose clamps, or the electrical connector" ||
          (includes a "panel" && includes a "clamps" && includes a "connector" && includes a "?")
  then Some install_step
  else if includes a "do you see screws" && (includes a "clips" || includes a "plastic clips")
  then Some panel_fastener
  else if includes a "spring clamp" && includes a "screw clamp" then Some clamp_type
  else if includes a "do you see a latch" && includes a "top" && includes a "side"
  then Some connector_latch_side
  (* alternate latch phrasing *)
  else if includes a "where is the latch" && includes a "top" && includes a "side"
  then Some connector_latch_side
  (* panel follow-up (yes/no) *)
  else if includes a "panel still won’t drop" || includes a "panel still won't drop"
  then Some panel_still_wont_drop_yesno
  (* connector follow-up (moving vs stuck) *)
  else if includes a "is it moving at all" && includes a "totally stuck"
  then Some connector_moving_or_stuck
  (* order chain *)
  else if includes a "order number" && includes a "zip" then Some (order_info ask_both)
  else if includes a "order number" then Some (order_info ask_order_id)
  else if includes a "zip code" || includes a "postal code" then Some (order_info ask_zip)
  (* fridge troubleshooting follow-up *)
  else if includes a "is the freezer also warming up" then Some fridge_freezer_warming_yesno
  else None.

Definition inferDialogState (history : list ChatMessage) : Awaiting :=
  let a := orElse (option_map (fun m => toLowerCase (content m)) (lastAssistant history)) "" in
  slotOfAssistantText a.

Definition isAwaitingInstall (awaiting : Awaiting) : bool :=
  match awaiting with
  | None => false
  | Some (install_step | clamp_type | panel_fastener | connector_latch_side
         | panel_still_wont_drop_yesno | connector_moving_or_stuck) => true
  | Some _ => false
  end.

Definition isAwaitingTroubleshoot (awaiting : Awaiting) : bool :=
  match awaiting with
  | None => false
  | Some (pump_sound | dishwasher_drain_speed | drain_hose_setup | sink_connection_type
         | disposal_flow_yesno | disposal_knockout_yesno | tailpiece_gunk_yesno
         | did_it_fix_yesno) => true
  | Some _ => false
  end.

Definition isAwaitingOrder (awaiting : Awaiting) : bool :=
  match awaiting with
  | Some (order_info _) => true
  | _ => false
  end.

(** helps prevent "clamps" being stolen by part_lookup *)
Definition isInstallQuickReply (text : string) : bool :=
  let t := norm text in
  (t === "panel") || (t === "clamps") || (t === "clamp") || (t === "connector") ||
  (t === "screws") || (t === "clips") || (t === "spring") || (t === "spring clamp") ||
  (t === "screw") || (t === "screw clamp") || (t === "top") || (t === "side") ||
  (t === "stuck") || (t === "moving") || (t === "totally stuck").

(** [boolean | null] *)
Definition parseYesNo (text : string) : option bool :=
  let t := onlyLetters text in
  if (t === "yes") || (t === "y") || (t === "yeah") || (t === "yep") || (t === "sure") ||
     (t === "correct") then Some true
  else if (t === "no") || (t === "n") || (t === "nope") || (t === "nah") || (t === "notreally")
  then Some false
  else None.

Definition parseChoice (text : string) : option ChoiceOption :=
  let t := norm text in
  if includes t "compat" then Some opt_compatibility
  else if includes t "install" then Some opt_install
  else if includes t "symptom" || includes t "issue" || includes t "problem" || includes t "trouble"
  then Some opt_symptom
  else None.

Inductive ClampType : Type := spring | screw.

Definition parseClampType (text : string) : option ClampType :=
  let t := norm text in
  if includes t "spring" then Some spring
  else if includes t "screw" then Some screw
  else None.

Inductive DrainSpeed : Type := standing | slow.

Definition parseDrainSpeed (text : string) : option DrainSpeed :=
  let t := norm text in
  if includes t "standing" || includes t "still water" || includes t "full of water" ||
     (t === "standing water") then Some standing
  else if includes t "slow" || includes t "slowly" || includes t "drain slowly" ||
          includes t "drains slowly" then Some slow
  else None.

Inductive PumpSound : Type := running | humming | silent | unknown_sound.

Definition PumpSound_eqb (a b : PumpSound) : bool :=
  match a, b with
  | running, running | humming, humming | silent, silent
  | unknown_sound, unknown_sound => true
  | _, _ => false
  end.

Definition parsePumpSound (text : string) : PumpSound :=
  let t := norm text in
  let yn := parseYesNo text in
  match yn with
  | Some true => running
  | Some false => silent
  | None =>
      if includes t "hum" || includes t "buzz" || includes t "humming" || includes t "buzzing"
      then humming
      else if includes t "silent" || includes t "no sound" || includes t "quiet" ||
              includes t "totally silent" then silent
      else if includes t "running" || includes t "normal" || includes t "i hear it" ||
              includes t "hear it" then running
      else unknown_sound
  end.

Inductive PanelFastener : Type := screws | clips.

Definition parsePanelFastener (text : string) : option PanelFastener :=
  let t := norm text in
  if includes t "screw" then Some screws
  else if includes t "clip" then Some clips
  else None.

Inductive LatchSide : Type := top | side.

Definition parseLatchSide (text : string) : option LatchSide :=
  let t := norm text in
  if includes t "top" then Some top
  else if includes t "side" then Some side
  else None.

Inductive MovingOrStuck : Type := moving | stuck | unknown_motion.

Definition parseMovingOrStuck (text : string) : MovingOrStuck :=
  let t := norm text in
  if includes t "moving" then moving
  else if includes t "stuck" then stuck (* covers "totally stuck" *)
  else unknown_motion.

Inductive DrainHoseSetup : Type :=
| high_loop | air_gap | neither | sink_connection | unknown_setup.

Definition parseDrainHoseSetup (text : string) : DrainHoseSetup :=
  let t := norm text in
  if includes t "air gap" || includes t "airgap" then air_gap
  else if includes t "high loop" || (includes t "loop" && includes t "high") then high_loop
  else if includes t "sink" || includes t "disposal" || includes t "garbage disposal"
  then sink_connection
  else if includes t "neither" || includes t "none" then neither
  else if t === "no" then unknown_setup
  else unknown_setup.

Inductive SinkConnectionType : Type := disposal | tailpiece | unknown_connection.

Definition parseSinkConnectionType (text : string) : SinkConnectionType :=
  let t := norm text in
  if includes t "disposal" || includes t "garbage" then disposal
  else if includes t "tailpiece" || includes t "tail piece" || includes t "sink" then tailpiece
  else unknown_connection.

(** ** Handoff detection *)

Definition everRequestedHuman (history : list ChatMessage) : bool :=
  existsb (fun m => wantsHuman (content m)) (lastNUser history 10).

Definition handoffPending (history : list ChatMessage) : bool :=
  match lastAssistant history with
  | None => false
  | Some a =>
      let t := toLowerCase (content a) in
      let asksEmail :=
        includes t "send your email" || includes t "share your email" || includes t "your email" in
      let mentionsTicket :=
        includes t "ticket" || includes t "human follow-up" || includes t "human" ||
        includes t "support" in
      asksEmail && mentionsTicket
  end.

(** ** Install follow-up *)

Inductive InstallStep : Type := step_panel | step_clamps | step_connector | step_unknown.

Definition detectInstallStepFollowup (history : list ChatMessage) (userMessage : string)
    : option InstallStep :=
  let a := orElse (option_map (fun m => toLowerCase (content m)) (lastAssistant history)) "" in
  let u := toLowerCase userMessage in
  (* if user clearly shifts intent, don't consume as install-step *)
  if hasGlobalIntentKeyword u || truthy (extractPartNumberFromLinkOrText userMessage) ||
     truthy (extractModelNumber userMessage) || wantsReturnRefundShipping userMessage
  then None
  else
    let aAsked :=
      includes a "which step is blocking you" ||
      includes a "which step are you on: panel, clamps, or connector" ||
      (includes a "panel" && includes a "clamps" && includes a "connector") in
    if negb aAsked then None
    else if includes u "panel" || includes u "kickplate" || includes u "access panel" ||
            includes u "toe kick" then Some step_panel
    else if includes u "clamp" || includes u "clamps" || includes u "hose clamp" ||
            includes u "pliers" then Some step_clamps
    else if includes u "connector" || includes u "wire" || includes u "harness" ||
            includes u "plug" then Some step_connector
    else None.

(** ** Replies *)

Definition replyInstallStepHelp (step : InstallStep) : string :=
  match step with
  | step_panel =>
      "For the access panel: it’s usually a couple screws along the bottom edge. " ++
      "If it won’t drop, check for hidden clips near the sides. " ++
      "Do you see screws, or plastic clips?"
  | step_clamps =>
      "For hose clamps: pliers help — squeeze, slide the clamp back, then twist the hose gently to break the seal. " ++
      "Avoid yanking straight (it can tear the hose). " ++
      "Is it a spring clamp (two tabs) or a screw clamp?"
  | step_connector =>
      "For the connector: most have a small locking tab. Press the tab in while pulling straight out. " ++
      "If it’s stuck, wiggle gently — don’t pull on the wires. " ++
      "Do you see a latch on the top or side?"
  | step_unknown => "Which step are you on: panel, clamps, or connector?"
  end.

Definition replyPanelFastenerHelp (kind : PanelFastener) : string :=
  match kind with
  | screws =>
      "Got it — screws." ++ nl ++
      "Tip: check the very bottom edge + corners (some are tucked under the toe-kick). If they’re Torx, you may need a T15/T20 bit." ++ nl ++
      "After removing screws, the panel usually tilts out then drops down." ++ nl ++ nl ++
      "Do the screws come out but the panel still won’t drop?"
  | clips =>
      "Got it — clips." ++ nl ++
      "Tip: pull the panel slightly forward and then down. A plastic pry tool (or a taped flathead) helps avoid cracking." ++ nl ++ nl ++
      "Do you see clip tabs on the left/right edges, or along the top seam?"
  end.

Definition replyConnectorLatchHelp (side_ : LatchSide) : string :=
  match side_ with
  | top =>
      "Latch on TOP: press the top tab down/in firmly, then pull the connector straight off." ++ nl ++
      "If it’s tight, push the connector *in* a hair first, then press tab, then pull." ++ nl ++ nl ++
      "Is it moving at all, or totally stuck?"
  | side =>
      "Latch on SIDE: pinch/press the side tab inward while pulling straight out." ++ nl ++
      "Same trick: push in slightly first → press tab → pull." ++ nl ++ nl ++
      "Is it moving at all, or totally stuck?"
  end.

Definition replyHome : string :=
  "Hi! I can help with refrigerator and dishwasher parts on PartSelect — part info, compatibility, installation, and troubleshooting." ++ nl ++ nl ++
  "Try:" ++ nl ++
  "• “Is PS11752778 compatible with my WDT780SAEM1 model?”" ++ nl ++
  "• “How can I install part number PS11752778?”".

Definition replyAskForFullPart (shortToken : option string) : string :=
  let hint :=
    if truthy shortToken
    then nl ++ nl ++ "I saw " ++ dquote ++ orElse shortToken "" ++ dquote ++
         " — part numbers usually look like PS + 5–10 digits."
    else "" in
  "What’s the full PartSelect part number (starts with PS…)?" ++ hint.

Definition compactInstallSteps (partNumber : string) (modelNumber : option string) : string :=
  let modelLine := if truthy modelNumber then " (model " ++ orElse modelNumber "" ++ ")" else "" in
  "Quick install outline for " ++ partNumber ++ modelLine ++ ":" ++ nl ++
  "1) Turn off power (and water if needed)" ++ nl ++
  "2) Remove the lower access panel" ++ nl ++
  "3) Take a photo of wires/hoses" ++ nl ++
  "4) Disconnect hose clamps + connector" ++ nl ++
  "5) Swap the part, reassemble, run a short test" ++ nl ++ nl ++
  "Which step are you on: panel, clamps, or connector?".

Definition compactInstallRepeatVariant (partNumber : string) (modelNumber : option string)
    (repeats : nat) : string :=
  let modelLine := if truthy modelNumber then " (" ++ orElse modelNumber "" ++ ")" else "" in
  if repeats mod 2 =? 0
  then "Looks like we’re still on the install for " ++ partNumber ++ modelLine ++ "." ++ nl ++
       "Want help with panel, clamps, or connector?"
  else "No worries — continuing " ++ partNumber ++ modelLine ++ " install." ++ nl ++
       "Which step is blocking you: panel, clamps, or connector?".

Definition troubleshootDishwasher (modelNumber : option string) (repeated : bool) : string :=
  let header :=
    if truthy modelNumber
    then "Dishwasher not draining (" ++ orElse modelNumber "" ++ ") — quick checks:"
    else "Dishwasher not draining — quick checks:" in
  let base :=
    header ++ nl ++
    "- Clean the filter/sump area" ++ nl ++
    "- Check drain hose for kinks/clogs" ++ nl ++
    "- Make sure the disposal knockout plug is removed" ++ nl ++ nl ++
    "When it tries to drain, do you hear the drain pump running? (yes/no)" in
  if negb repeated then base
  else base ++ nl ++ nl ++
       "If you already tried those: share any error code, and whether the pump is silent, humming, or normal.".

Definition troubleshootDishwasherDrainPumpFollowup (hearsPump : bool) : string :=
  if hearsPump then
    "Got it — pump is running." ++ nl ++
    "That usually points to a blockage or drain path issue:" ++ nl ++
    "- Check the sink/disposal connection (knockout plug)" ++ nl ++
    "- Inspect the drain hose loop for kinks / gunk" ++ nl ++
    "- If accessible, check the check-valve / drain outlet for debris" ++ nl ++ nl ++
    "Is it leaving standing water, or does it drain slowly?"
  else
    "OK — pump is NOT running." ++ nl ++
    "That’s more like power/control or a failed pump:" ++ nl ++
    "- Do you hear any hum/click when it tries to drain?" ++ nl ++
    "- Any error code showing?" ++ nl ++
    "- Confirm the door latch is fully closing" ++ nl ++ nl ++
    "If you share the model, I can suggest the best next check.".

Definition troubleshootDishwasherDrainSpeedFollowup (kind : DrainSpeed) : string :=
  match kind with
  | slow =>
      "Drain is slow — usually partial blockage." ++ nl ++
      "- Inspect drain hose for kinks + buildup" ++ nl ++
      "- Check the sink/disposal connection for gunk" ++ nl ++
      "- Clean filter/sump again + look for debris at the drain outlet" ++ nl ++ nl ++
      "Quick check: does your drain hose have a high loop / air gap under the sink?"
  | standing =>
      "Standing water — closer to a full blockage or a stuck check-valve." ++ nl ++
      "- Verify disposal knockout plug is removed" ++ nl ++
      "- Check drain hose for a hard clog" ++ nl ++
      "- If accessible, check-valve at the pump outlet may be stuck" ++ nl ++ nl ++
      "When it tries to drain, is it humming/buzzing, or totally silent?"
  end.

Definition troubleshootDishwasherHoseSetupFollowup (kind : DrainHoseSetup) : string :=
  match kind with
  | high_loop =>
      "Nice — high loop is good." ++ nl ++
      "Next most common culprit is the sink/disposal connection:" ++ nl ++
      "- If connected to a garbage disposal, confirm the knockout plug was removed" ++ nl ++
      "- Pull the drain hose off and check for gunk at the inlet" ++ nl ++
      "- Check the hose itself for a partial clog (food/grease)" ++ nl ++ nl ++
      "Are you connected to a garbage disposal, or directly to the sink tailpiece?"
  | air_gap =>
      "Air gap setup — good." ++ nl ++
      "If draining is slow, the air gap or hose after it may be partially clogged." ++ nl ++
      "Quick check:" ++ nl ++
      "- Pop the air-gap cap and look for debris" ++ nl ++
      "- Inspect the hose from air gap → disposal/tailpiece for buildup" ++ nl ++ nl ++
      "Do you see any gunk in the air gap, or is it clean?"
  | sink_connection =>
      "Got it — let’s focus on the sink/disposal side." ++ nl ++
      "Common issue: disposal knockout plug still in place, or sludge clog at the inlet." ++ nl ++ nl ++
      "Are you draining into a garbage disposal, or directly to the sink tailpiece?"
  | neither =>
      "If there’s no high loop / air gap, slow drain can happen from backflow." ++ nl ++
      "Easy fix: add a high loop (strap the hose up under the counter as high as possible)." ++ nl ++ nl ++
      "After you add the loop, does draining improve? (yes/no)"
  | unknown_setup =>
      "Do you have a high loop, an air gap, or neither? (And is it connected to the sink tailpiece or garbage disposal?)"
  end.

Definition replyDidItFixClose (yes : bool) : string :=
  if yes then
    "Awesome — sounds like it’s draining normally now. ✅" ++ nl ++ nl ++
    "Anything else you want to do?" ++ nl ++
    "- check compatibility (PS… + model)" ++ nl ++
    "- installation steps" ++ nl ++
    "- another symptom"
  else
    "Got it — still not draining right." ++ nl ++
    "At this point the usual next suspects are:" ++ nl ++
    "- blockage at pump inlet / sump" ++ nl ++
    "- stuck check valve" ++ nl ++
    "- weak/failing drain pump" ++ nl ++ nl ++
    "Do you want to keep troubleshooting here, or do you want a human follow-up? (type “human”)".

Definition troubleshootDishwasherSinkConnectionFollowup (kind : SinkConnectionType) : string :=
  match kind with
  | disposal =>
      "Connected to a garbage disposal — biggest gotcha is the knockout plug." ++ nl ++
      "Quick checks:" ++ nl ++
      "- Remove the drain hose at the disposal inlet and look inside for the knockout plug" ++ nl ++
      "- Clean sludge at the disposal inlet nipple" ++ nl ++
      "- Run disposal briefly + flush hot water" ++ nl ++ nl ++
      "If you remove the hose, do you see strong water flow from the dishwasher when it tries to drain (yes/no)?"
  | tailpiece =>
      "Connected to the sink tailpiece." ++ nl ++
      "Quick checks:" ++ nl ++
      "- Check the tailpiece branch nipple for gunk (common)" ++ nl ++
      "- Ensure the hose clamp isn’t pinching the hose" ++ nl ++
      "- Confirm the hose has no sagging low-spot holding water" ++ nl ++ nl ++
      "If you disconnect the hose at the tailpiece, is it clogged with gunk (yes/no)?"
  | unknown_connection =>
      "Are you connected to a garbage disposal, or directly to the sink tailpiece?"
  end.

Definition replyDisposalFlowYesNo (yes : bool) : string :=
  if yes then
    "Good — that means the dishwasher *is* pumping strongly." ++ nl ++
    "So the slowdown is almost certainly AFTER the dishwasher:" ++ nl ++
    "- disposal inlet nipple gunk" ++ nl ++
    "- OR the disposal knockout plug still inside" ++ nl ++ nl ++
    "When you look into the disposal inlet (where the hose connects), is the knockout plug already removed? (yes/no)"
  else
    "If there’s weak/no flow at the hose, that points upstream:" ++ nl ++
    "- drain hose clogged/kinked" ++ nl ++
    "- sump/pump inlet blocked" ++ nl ++
    "- check valve stuck" ++ nl ++ nl ++
    "Quick check: if you remove the hose and try draining into a bucket, do you get *any* water at all? (yes/no)".

Definition replyDisposalKnockoutYesNo (yes : bool) : string :=
  if yes then
    "Nice — knockout is removed." ++ nl ++
    "Next: clean the disposal inlet nipple + the first few inches of hose (it often cakes up with sludge)." ++ nl ++ nl ++
    "After cleaning, does it drain normally now? (yes/no)"
  else
    "That’s likely the whole issue." ++ nl ++
    "Remove the knockout plug (usually punch it through with a screwdriver, then fish it out)." ++ nl ++
    "Reconnect hose, run disposal briefly, then test drain." ++ nl ++ nl ++
    "After removing the knockout plug, does it drain normally now? (yes/no)".

Definition replyTailpieceGunkYesNo (yes : bool) : string :=
  if yes then
    "Yep — that’ll do it." ++ nl ++
    "Clean the tailpiece nipple + hose end (bottle brush works), reconnect, and test." ++ nl ++ nl ++
    "After cleaning, does it drain normally now? (yes/no)"
  else
    "If there’s no gunk there, next suspects are:" ++ nl ++
    "- partial clog somewhere in the hose" ++ nl ++
    "- blockage at pump/check valve" ++ nl ++ nl ++
    "After re-connecting everything, does it drain normally now? (yes/no)".

(** ** Order support replies (demo) *)

Definition replyOrderIntake (ask : OrderAsk) : string :=
  match ask with
  | ask_both =>
      "To help with order status/returns (demo), send your order number and ZIP code." ++ nl ++
      "Example: ORDER #A1B2C3 19104"
  | ask_order_id => "Send your order number (demo)." ++ nl ++ "Example: ORDER #A1B2C3"
  | ask_zip => "Send the ZIP code on the order (demo)." ++ nl ++ "Example: 19104"
  end.

Definition replyOrderStub (orderId zip : option string) : string :=
  let a := if truthy orderId then "order=" ++ orElse orderId "" else "order=n/a" in
  let z := if truthy zip then "zip=" ++ orElse zip "" else "zip=n/a" in
  "Got it (" ++ a ++ ", " ++ z ++ "). In this demo I can’t access real order systems, but I can still help you choose the right path:" ++ nl ++
  "- shipping delay / tracking" ++ nl ++
  "- return / refund policy steps" ++ nl ++
  "- wrong part ordered (compatibility check)" ++ nl ++ nl ++
  "Which one is it: shipping, return/refund, or wrong part?".

(** ** Tools (tools.ts) *)

Record Source : Type := mkSource { label : string; uri : option string }.

Inductive GuideMode : Type := mode_install | mode_troubleshoot | mode_general.

Definition GuideMode_eqb (a b : GuideMode) : bool :=
  match a, b with
  | mode_install, mode_install | mode_troubleshoot, mode_troubleshoot
  | mode_general, mode_general => true
  | _, _ => false
  end.

(** The rows of the three sample files, as [JSON.parse] delivers them: a
    field the loader defaults may be absent.  The files themselves are not
    part of the sources; they are fields of the [World]. *)
Record RawPart : Type := mkRawPart {
  raw_partNumber : option string;
  raw_name : string;
  raw_price : option string;
  raw_imageUrl : option string;
  raw_appliance : option Appliance;
  raw_compatibleModels : list string
}.

Record RawCompatibilityRow : Type := mkRawRow {
  raw_row_partNumber : option string;
  raw_row_models : list string
}.

Record RawGuide : Type := mkRawGuide {
  raw_id : option string;
  raw_title : option string;
  raw_url : option string;
  raw_snippet : option string;
  raw_guide_appliance : option Appliance;
  raw_mode : option GuideMode;
  raw_tags : list string
}.

Record Part : Type := mkPart {
  p_partNumber : string;
  p_name : string;
  p_price : option string;
  p_imageUrl : option string;
  p_appliance : Appliance;
  p_compatibleModels : list string
}.

Record CompatibilityRow : Type := mkRow { row_partNumber : string; row_models : list string }.

Record Guide : Type := mkGuide {
  g_id : option string;
  g_title : string;
  g_url : option string;
  g_snippet : option string;
  g_appliance : Appliance;
  g_mode : GuideMode;
  g_tags : list string
}.

Module Tools.

(** [norm] of tools.ts: trim and upper-case. *)
Definition norm (s : option string) : string := toUpperCase (trim (orElse s "")).

Definition loadParts (raw : list RawPart) : list Part :=
  map (fun p =>
         {| p_partNumber := norm (raw_partNumber p);
            p_name := raw_name p;
            p_price := raw_price p;
            p_imageUrl := raw_imageUrl p;
            p_appliance := orElse (raw_appliance p) unknown_appliance;
            p_compatibleModels := map (fun m => norm (Some m)) (raw_compatibleModels p) |})
      raw.

Definition loadCompatibility (raw : list RawCompatibilityRow) : list CompatibilityRow :=
  filter (fun r => negb (row_partNumber r === ""))
    (map (fun r =>
            {| row_partNumber := norm (raw_row_partNumber r);
               row_models := map (fun m => norm (Some m)) (raw_row_models r) |})
         raw).

Definition loadGuides (raw : list RawGuide) : list Guide :=
  map (fun g =>
         {| g_id := raw_id g;
            g_title := trim (orElse (raw_title g) "");
            g_url := raw_url g;
            g_snippet := raw_snippet g;
            g_appliance := orElse (raw_guide_appliance g) unknown_appliance;
            g_mode := orElse (raw_mode g) mode_general;
            g_tags := raw_tags g |})
      raw.

Record LookupResult : Type := mkLookup { part : option Part; lookup_sources : list Source }.

Definition toolLookupPart (raw : list RawPart) (partNumber : string) : LookupResult :=
  let parts := loadParts raw in
  let pn := norm (Some partNumber) in
  let part := find (fun p => norm (Some (p_partNumber p)) === pn) parts in
  {| part := part;
     lookup_sources := [ {| label := "Sample catalog (mock data)"; uri := None |} ] |}.

(** [compatible] is absent ([None]) when neither the compatibility index
    nor the catalog decides. *)
Record CompatibilityResult : Type := mkCompat {
  compatible : option bool;
  compat_sources : list Source
}.

Definition toolCheckCompatibility (rawCompat : list RawCompatibilityRow) (rawParts : list RawPart)
    (partNumber modelNumber : string) : CompatibilityResult :=
  let pn := norm (Some partNumber) in
  let mn := norm (Some modelNumber) in
  let compat := loadCompatibility rawCompat in
  let parts := loadParts rawParts in
  (* 1) Prefer compatibility index if present *)
  match find (fun r => row_partNumber r === pn) compat with
  | Some row =>
      let ok := has (row_models row) mn in
      {| compatible := Some ok;
         compat_sources := [ {| label := "Compatibility index (mock data)"; uri := None |} ] |}
  | None =>
      (* 2) Fallback: if catalog includes compatibleModels, use it *)
      let part := find (fun p => p_partNumber p === pn) parts in
      match part with
      | Some p =>
          if negb (List.length (p_compatibleModels p) =? 0) then
            let ok := has (map (fun m => norm (Some m)) (p_compatibleModels p)) mn in
            {| compatible := Some ok;
               compat_sources := [ {| label := "Sample catalog (mock data)"; uri := None |} ] |}
          else
            {| compatible := None;
               compat_sources := [ {| label := "Compatibility index (mock data)"; uri := None |} ] |}
      | None =>
          (* 3) Unknown *)
          {| compatible := None;
             compat_sources := [ {| label := "Compatibility index (mock data)"; uri := None |} ] |}
      end
  end.

Definition join (sep : string) (l : list string) : string := String.concat sep l.

Definition scoreGuide (g : Guide) (q : string) : nat :=
  let text := toLowerCase (g_title g ++ nl ++ orElse (g_snippet g) "" ++ nl ++ join " " (g_tags g)) in
  let terms := splitNonEmpty false SPACES_RE (toLowerCase q) in
  List.length (filter (fun t => includes text t) terms).

Definition modeFilter (mode : GuideMode) (g : Guide) : bool :=
  let t := toLowerCase (g_title g ++ " " ++ orElse (g_snippet g) "") in
  let installHints :=
    ["install"; "replace"; "remov"; "mount"; "screw"; "panel"; "disconnect power"; "reconnect"] in
  let troubleshootHints :=
    ["not"; "won't"; "doesn't"; "troubleshoot"; "check"; "inspect"; "diagnos"; "symptom";
     "clog"; "kink"; "error code"; "reset"] in
  let looksInstall := existsb (fun k => includes t k) installHints in
  let looksTrouble := existsb (fun k => includes t k) troubleshootHints in
  (* if guide explicitly has mode, honor it *)
  if negb (GuideMode_eqb (g_mode g) mode_general) then GuideMode_eqb (g_mode g) mode
  (* otherwise do heuristic *)
  else if GuideMode_eqb mode mode_install then looksInstall && negb looksTrouble
  else looksTrouble.

Fixpoint dedupeLoop (guides : list Guide) (seen : list string) : list Guide :=
  match guides with
  | [] => []
  | g :: guides' =>
      let k1 := toLowerCase (trim (g_title g)) in
      let key := if k1 === "" then toLowerCase (slice0 60 (orElse (g_snippet g) "")) else k1 in
      if key === "" then dedupeLoop guides' seen
      else if has seen key then dedupeLoop guides' seen
      else g :: dedupeLoop guides' (key :: seen)
  end.

Definition dedupeGuides (guides : list Guide) : list Guide := dedupeLoop guides [].

(** [sort((a, b) => b.s - a.s)]: stable, by descending score. *)
Fixpoint insertByScore (x : Guide * nat) (l : list (Guide * nat)) : list (Guide * nat) :=
  match l with
  | [] => [x]
  | y :: l' => if snd y <=? snd x then x :: l else y :: insertByScore x l'
  end.

Definition sortByScore (l : list (Guide * nat)) : list (Guide * nat) :=
  fold_right insertByScore [] l.

Record GuideSearchArgs : Type := mkArgs {
  query : string;
  arg_appliance : option Appliance;
  arg_mode : option GuideMode;   (* "install" | "troubleshoot" *)
  topK : option nat
}.

Record GuideSearchResult : Type := mkSearch { guides : list Guide; search_sources : list Source }.

Definition toolSearchGuides (rawGuides : list RawGuide) (args : GuideSearchArgs)
    : GuideSearchResult :=
  let guides := loadGuides rawGuides in
  let topK := Nat.max 1 (Nat.min (orElse (topK args) 3) 6) in
  let appliance := orElse (arg_appliance args) unknown_appliance in
  let mode := arg_mode args in
  let pool := guides in
  (* appliance filter (soft): if unknown, keep all *)
  let pool :=
    if negb (Appliance_eqb appliance unknown_appliance)
    then filter (fun g => Appliance_eqb (g_appliance g) appliance ||
                          Appliance_eqb (g_appliance g) unknown_appliance) pool
    else pool in
  (* mode filter *)
  let pool :=
    match mode with
    | Some m => filter (fun g => modeFilter m g) pool
    | None => pool
    end in
  (* rank *)
  let ranked := map fst (sortByScore (map (fun g => (g, scoreGuide g (query args))) pool)) in
  let picked := firstn topK (dedupeGuides ranked) in
  {| guides := picked;
     search_sources :=
       [ {| label := "Guide store (mock data)"; uri := Some "https://www.partselect.com/..." |} ] |}.

End Tools.

(** ** The external classifier (groqHelpers.ts) *)

(** A JSON value; a number is carried as the text [String()] gives for it.
    A value that may be [undefined] is an [option json]. *)
#[local] Unset Elimination Schemes.
Inductive json : Type :=
| JNull
| JBool (b : bool)
| JNum (text : string)
| JStr (s : string)
| JArr (items : list json)
| JObj (fields : list (string * json)).
#[local] Set Elimination Schemes.

(** The answer of [fetch]: when the promise settles (milliseconds after the
    call, or never), and with what: a response or a rejection ([None]).  The
    promise settles with the head of the response; the body is read by
    [json()], which settles [bodyAfter] milliseconds later, with the parsed
    body or by throwing ([None]). *)
Record HttpResponse : Type := mkResp {
  ok : bool;
  bodyAfter : N;
  json_body : option json
}.

Record Pending : Type := mkPending {
  settlesAfter : option N;
  outcome : option HttpResponse
}.

Module Groq.

(** A computation that may throw. *)
Inductive Try (A : Type) : Type :=
| Ok (a : A)
| Throws.
Arguments Ok {A} a.
Arguments Throws {A}.

(** [withTimeout(p, ms)]: the timer, set for [ms] milliseconds, rejects
    with GROQ_TIMEOUT unless the promise settles first.  The promise is
    started before the timer is set, so when both are due at the same
    instant the promise wins. *)
Definition withTimeout (p : Pending) (ms : N) : Try HttpResponse :=
  match settlesAfter p with
  | Some t =>
      if (t <=? ms)%N
      then match outcome p with Some resp => Ok resp | None => Throws end
      else Throws
  | None => Throws
  end.

(** [String(x)] *)
Fixpoint js_String (v : json) : string :=
  match v with
  | JNull => "null"
  | JBool true => "true"
  | JBool false => "false"
  | JNum t => t
  | JStr s => s
  | JArr items =>
      String.concat ","
        (map (fun x => match x with JNull => "" | _ => js_String x end) items)
  | JObj _ => "[object Object]"
  end.

(** [v?.name] *)
Fixpoint lookup (name : string) (fields : list (string * json)) : option json :=
  match fields with
  | [] => None
  | (k, x) :: fields' => if k === name then Some x else lookup name fields'
  end.

Definition prop (v : option json) (name : string) : option json :=
  match v with
  | Some (JObj fields) => lookup name fields
  | _ => None
  end.

(** [v?.[0]] *)
Definition index0 (v : option json) : option json :=
  match v with
  | Some (JArr (x :: _)) => Some x
  | Some (JStr (String c _)) => Some (JStr (String c EmptyString))
  | _ => None
  end.

(** [x ?? d]: [null] and [undefined] give way to [d]. *)
Definition nullish (v : option json) (d : json) : json :=
  match v with
  | None | Some JNull => d
  | Some x => x
  end.

(** [/\{[\s\S]*\}/] *)
Definition BRACES_RE : regex :=
  Cat (lit "{") (Cat (star (Chr (fun c => is_space c || negb (is_space c)))) (lit "}")).

Section Parse.

(** [JSON.parse]: [None] when it throws. *)
Variable JSON_parse : string -> option json.

(** [null] is [JNull].  In the [catch], [s.match] exists only when [s]
    is a string; on another value the call throws. *)
Definition safeJsonParse (s : json) : Try json :=
  match JSON_parse (js_String s) with
  | Some v => Ok v
  | None =>
      match s with
      | JStr str =>
          match exec false BRACES_RE str with
          | None => Ok JNull
          | Some m =>
              match JSON_parse (m_0 m) with
              | Some v => Ok v
              | None => Ok JNull
              end
          end
      | _ => Throws
      end
  end.

(** The text [normalizePumpSound] compares: [String(x ?? "")], lower-cased
    and trimmed. *)
Definition soundText (x : option json) : string :=
  trim (toLowerCase (js_String (nullish x (JStr "")))).

Definition normalizePumpSound (x : option json) : PumpSound :=
  let v := soundText x in
  if v === "running" then running
  else if v === "humming" then humming
  else if v === "silent" then silent
  else unknown_sound.

(** [data?.choices?.[0]?.message?.content ?? ""] *)
Definition messageContent (data : json) : json :=
  nullish (prop (prop (index0 (prop (Some data) "choices")) "message") "content") (JStr "").

(** What follows the [await] of the response, inside the [try]: the status
    is tested, then [await resp.json()] waits for the body, outside
    [withTimeout]. *)
Definition classifyResponse (resp : HttpResponse) : Try PumpSound :=
  if negb (ok resp) then Ok unknown_sound
  else
    match json_body resp with
    | None => Throws
    | Some data =>
        let content := messageContent data in
        match safeJsonParse content with
        | Throws => Throws
        | Ok obj => Ok (normalizePumpSound (prop (Some obj) "pump_sound"))
        end
    end.

(** The timeout of the one request, in milliseconds. *)
Definition GROQ_TIMEOUT_MS : N := 1200.

(** The classifier reads the credential and, if there is one, issues one
    request: it takes the next answer of the network and leaves the
    others.  A network with no answer left never settles. *)
Definition groqParsePumpSound (apiKey : option string) (text : string)
    (network : list Pending) : PumpSound * list Pending :=
  if negb (truthy apiKey) then (unknown_sound, network)
  else
    let '(p, network') :=
      match network with
      | p :: network' => (p, network')
      | [] => ({| settlesAfter := None; outcome := None |}, [])
      end in
    let res :=
      match withTimeout p GROQ_TIMEOUT_MS with
      | Throws => Throws
      | Ok resp => classifyResponse resp
      end in
    match res with
    | Ok v => (v, network')
    | Throws => (unknown_sound, network')
    end.

End Parse.

(** When the promise of [groqParsePumpSound] settles, in milliseconds after
    the call: at once without a credential; when the timer fires if [fetch]
    has not settled by then; with [fetch] when it rejects or the status is no
    success; and otherwise when [json()] settles, however long after the
    response. *)
Definition returnsAfter (apiKey : option string) (network : list Pending) : N :=
  if negb (truthy apiKey) then 0%N
  else
    match network with
    | p :: _ =>
        match settlesAfter p with
        | Some t =>
            if (t <=? GROQ_TIMEOUT_MS)%N
            then match outcome p with
                 | Some resp => if ok resp then (t + bodyAfter resp)%N else t
                 | None => t
                 end
            else GROQ_TIMEOUT_MS
        | None => GROQ_TIMEOUT_MS
        end
    | [] => GROQ_TIMEOUT_MS
    end.

End Groq.

(** ** Responses (types.ts) *)

Record Extracted : Type := mkExtracted {
  x_partNumber : option string;
  x_modelNumber : option string;
  x_appliance : Appliance
}.

Record Meta : Type := mkMeta {
  inDomain : bool;
  intent : Intent;
  extracted : Extracted;
  toolsUsed : list string;
  sources : list Source
}.

Record Card : Type := mkCard {
  card_partNumber : string;
  card_name : string;
  card_price : option string;
  card_imageUrl : option string;
  card_compatibleModels : list string
}.

Record ChatResponse : Type := mkResponse {
  reply : string;
  meta : Meta;
  cards : list Card
}.

Record ChatRequest : Type := mkRequest {
  message : string;
  history : list ChatMessage
}.

(** [{ ...m, intent: i }] and the like *)
Definition withIntent (m : Meta) (i : Intent) : Meta :=
  {| inDomain := inDomain m; intent := i; extracted := extracted m;
     toolsUsed := toolsUsed m; sources := sources m |}.
Definition withInDomain (m : Meta) (b : bool) : Meta :=
  {| inDomain := b; intent := intent m; extracted := extracted m;
     toolsUsed := toolsUsed m; sources := sources m |}.
Definition withTools (m : Meta) (t : list string) : Meta :=
  {| inDomain := inDomain m; intent := intent m; extracted := extracted m;
     toolsUsed := t; sources := sources m |}.
Definition withSources (m : Meta) (s : list Source) : Meta :=
  {| inDomain := inDomain m; intent := intent m; extracted := extracted m;
     toolsUsed := toolsUsed m; sources := s |}.

(** [{ reply, meta, cards: [] }] *)
Definition say (r : string) (m : Meta) : ChatResponse :=
  {| reply := r; meta := m; cards := [] |}.

(** ** The world outside the request *)

Record World : Type := mkWorld {
  GROQ_API_KEY : option string;          (* process.env.GROQ_API_KEY *)
  network : list Pending;                (* the answers of fetch, in order *)
  Math_random : Q;                       (* the draw of Math.random(), in [0, 1) *)
  JSON_parse : string -> option json;    (* JSON.parse; None when it throws *)
  parts_sample : list RawPart;           (* parts.sample.json *)
  compatibility_sample : list RawCompatibilityRow;  (* compatibility.sample.json *)
  guides_sample : list RawGuide          (* guides.sample.json *)
}.

(** ** Demo ticket tool *)

(** [String(n)] for an integer *)
Definition Z_to_string (z : Z) : string := NilZero.string_of_int (Z.to_int z).

Record Ticket : Type := mkTicket { ticketId : string; ticket_sources : list Source }.

(** The number is computed here on the rationals; the code computes it on
    doubles, where rounding can move it by one. *)
Definition createSupportTicketDemo (w : World) : Ticket :=
  let id := "TCK-" ++ Z_to_string (Qfloor (100000 + Math_random w * 900000)) in
  {| ticketId := id;
     ticket_sources := [ {| label := "Support handoff (demo)"; uri := None |} ] |}.

(** ** Context leakage guard *)

Definition shouldClearAwaiting (awaiting : Awaiting) (currentIntent : Intent)
    (currentAppliance : Appliance) (message : string) : bool :=
  match awaiting with
  | None => false
  | Some slot =>
      (* If user types explicit new intent keyword or strong entities, clear *)
      if hasGlobalIntentKeyword message then true
      else if truthy (extractPartNumberFromLinkOrText message) ||
              truthy (extractModelNumber message) ||
              truthy (extractOrderId message) || truthy (extractZip message) then true
      (* If user is in troubleshoot but awaiting install detail, clear *)
      else if Intent_eqb currentIntent troubleshooting &&
              match slot with
              | install_step | clamp_type | panel_fastener | connector_latch_side => true
              | _ => false
              end then true
      (* If appliance flips to refrigerator and we are in dishwasher
         troubleshooting micro-flow, clear *)
      else if Appliance_eqb currentAppliance refrigerator && isAwaitingTroubleshoot awaiting
      then true
      else false
  end.

(** ** Main *)

(** The body of [handleChatTurn] either returns a response or goes on to the
    statements that follow. *)
Inductive Flow (A : Type) : Type :=
| Return (r : ChatResponse)
| Next (a : A).
Arguments Return {A} r.
Arguments Next {A} a.

Definition andThen {A B} (f : Flow A) (k : A -> Flow B) : Flow B :=
  match f with
  | Return r => Return r
  | Next a => k a
  end.

Notation "f ;; k" := (andThen f (fun _ => k)) (at level 61, right associativity).

(** [if (c) return r;] *)
Definition returnIf (c : bool) (r : ChatResponse) : Flow unit :=
  if c then Return r else Next tt.

(** What the turn has resolved when the stickiness rules are done: the
    locals of [handleChatTurn] down to [metaBase]. *)
Record Turn : Type := mkTurn {
  awaiting : Awaiting;
  appliance : Appliance;
  entities : Entities;
  repeats : nat;
  intent0 : Intent
}.

Definition resolveTurn (message : string) (history : list ChatMessage) : Turn :=
  let awaiting := inferDialogState history in
  (* appliance pinning *)
  let appliance := inferPinnedAppliance message history in
  let entities := resolveEntities message history appliance in
  let repeats := countUserRepeatsExcludingCurrent history message in
  let intent0 := inferIntent message in
  let awaiting :=
    if shouldClearAwaiting awaiting intent0 appliance message then None else awaiting in
  (* Intent stickiness: if awaiting install micro-step, keep short replies in
     install lane unless clear shift. *)
  let intent0 :=
    if isSome awaiting && isAwaitingInstall awaiting && negb (isClearIntentShift message) then
      if isInstallQuickReply message || Intent_eqb intent0 unknown || looksLikeAck message
      then installation_help else intent0
    else intent0 in
  (* Troubleshoot stickiness *)
  let intent0 :=
    if isSome awaiting && isAwaitingTroubleshoot awaiting && negb (isClearIntentShift message) then
      if Intent_eqb intent0 unknown || looksLikeAck message || isSome (parseYesNo message)
      then troubleshooting else intent0
    else intent0 in
  (* Order stickiness *)
  let intent0 :=
    if isSome awaiting && isAwaitingOrder awaiting && negb (isClearIntentShift message) then
      if Intent_eqb intent0 unknown || looksLikeAck message then order_support else intent0
    else intent0 in
  (* If user provides both PS + model but didn't say "compatible", it is
     usually compatibility intent. *)
  let intent0 :=
    if Intent_eqb intent0 unknown && truthy (extractPartNumberFromLinkOrText message) &&
       truthy (extractModelNumber message)
    then compatibility_check else intent0 in
  {| awaiting := awaiting; appliance := appliance; entities := entities;
     repeats := repeats; intent0 := intent0 |}.

Definition isRepeated (t : Turn) : bool := 1 <=? repeats t.

Definition metaBase (t : Turn) : Meta :=
  {| inDomain := true;
     intent := intent0 t;
     extracted := {| x_partNumber := partNumber (entities t);
                     x_modelNumber := modelNumber (entities t);
                     x_appliance := appliance t |};
     toolsUsed := [];
     sources := [] |}.

(** Domain filter *)
Definition allowed (t : Turn) (message : string) : bool :=
  let yn := parseYesNo message in
  isSome (awaiting t) ||
  looksLikeSmallTalk message ||
  looksLikeAck message ||
  wantsHuman message ||
  wantsReturnRefundShipping message ||
  looksLikeUrl message ||
  isSome yn ||
  isInstallQuickReply message ||
  has ["humming"; "buzzing"; "silent"; "stuck"; "moving"] (norm message) ||
  includes (toLowerCase message) "dishwasher" ||
  includes (toLowerCase message) "refrigerator" ||
  includes (toLowerCase message) "fridge" ||
  includes (toLowerCase message) "freezer" ||
  includes (toLowerCase message) "ice maker" ||
  includes (toLowerCase message) "install" ||
  includes (toLowerCase message) "compatible" ||
  includes (toLowerCase message) "troubleshoot" ||
  includes (toLowerCase message) "drain" ||
  includes (toLowerCase message) "pump" ||
  includes (toLowerCase message) "loop" ||
  includes (toLowerCase message) "air gap" ||
  includes (toLowerCase message) "sink" ||
  includes (toLowerCase message) "tailpiece" ||
  includes (toLowerCase message) "disposal" ||
  includes (toLowerCase message) "knockout" ||
  includes (toLowerCase message) "ps" ||
  truthy (partNumber (entities t)) ||
  truthy (modelNumber (entities t)) ||
  truthy (extractOrderId message) ||
  truthy (extractZip message).

Definition replyOutOfDomain : string :=
  "I’m focused on PartSelect refrigerator and dishwasher parts (compatibility, install, troubleshooting, basic order support)." ++ nl ++
  "If you share a PS part number or model number, I can help from there.".

(** The handoff is pending when the last assistant turn asked for the email
    and the message neither shifts nor carries one. *)
Definition pendingHandoff (message : string) (history : list ChatMessage) : bool :=
  let pendingRaw := handoffPending history in
  pendingRaw && negb (isClearIntentShift message) && negb (truthy (extractEmail message)).

(** The ticket is opened when the message carries an email and a human was
    asked for. *)
Definition opensTicket (message : string) (history : list ChatMessage) : bool :=
  let email := extractEmail message in
  let humanAsked := everRequestedHuman history in
  let pending := pendingHandoff message history in
  truthy email && (humanAsked || pending || wantsHuman message).

(** Ack handling (don’t hijack awaiting flow) *)
Definition replyToAck (t : Turn) : ChatResponse :=
  let metaBase := metaBase t in
  match awaiting t with
  | Some (order_info ask) => say (replyOrderIntake ask) (withIntent metaBase order_support)
  | Some pump_sound =>
      say "When it tries to drain, is the pump running, humming/buzzing, or totally silent?"
          (withIntent metaBase troubleshooting)
  | Some dishwasher_drain_speed =>
      say "Which one is it: standing water, or drains slowly?" (withIntent metaBase troubleshooting)
  | Some drain_hose_setup =>
      say "Do you have a high loop, an air gap, or neither? (And is it connected to the sink tailpiece or garbage disposal?)"
          (withIntent metaBase troubleshooting)
  | Some sink_connection_type =>
      say "Are you connected to a garbage disposal, or directly to the sink tailpiece?"
          (withIntent metaBase troubleshooting)
  | Some disposal_flow_yesno =>
      say "Do you see strong water flow from the dishwasher when it tries to drain (yes/no)?"
          (withIntent metaBase troubleshooting)
  | Some disposal_knockout_yesno =>
      say "Is the disposal knockout plug already removed? (yes/no)" (withIntent metaBase troubleshooting)
  | Some tailpiece_gunk_yesno =>
      say "If you disconnect the hose at the tailpiece, is it clogged with gunk (yes/no)?"
          (withIntent metaBase troubleshooting)
  | Some did_it_fix_yesno =>
      say "After that change, does it drain normally now? (yes/no)" (withIntent metaBase troubleshooting)
  | Some install_step =>
      say "Which step are you on: panel, clamps, or connector?" (withIntent metaBase installation_help)
  | Some clamp_type =>
      say "Is it a spring clamp (two tabs) or a screw clamp?" (withIntent metaBase installation_help)
  | Some panel_fastener =>
      say "Do you see screws, or plastic clips?" (withIntent metaBase installation_help)
  | Some connector_latch_side =>
      say "Is the latch on the top, or on the side?" (withIntent metaBase installation_help)
  | Some panel_still_wont_drop_yesno =>
      say "Do the screws come out but the panel still won’t drop? (yes/no)"
          (withIntent metaBase installation_help)
  | Some connector_moving_or_stuck =>
      say "Is it moving at all, or totally stuck?" (withIntent metaBase installation_help)
  | _ =>
      say "👍 Okay. Want help with compatibility, installation, troubleshooting, order support, or a PS part number?"
          (withIntent metaBase unknown)
  end.

(** From the domain filter to the small talk: the statements before the
    follow-up pre-routing. *)
Definition gates (w : World) (t : Turn) (message : string) (history : list ChatMessage)
    : Flow unit :=
  let metaBase := metaBase t in
  let partNumber := partNumber (entities t) in
  let modelNumber := modelNumber (entities t) in
  returnIf (negb (allowed t message))
    (say replyOutOfDomain (withIntent (withInDomain metaBase false) unknown)) ;;
  (* Incomplete part token *)
  returnIf (hasIncompletePart (entities t))
    (say (replyAskForFullPart (shortPart (entities t))) metaBase) ;;
  (* Highest priority: human handoff by email *)
  let pending := pendingHandoff message history in
  returnIf (opensTicket message history)
    (let r := createSupportTicketDemo w in
     say ("Got it — I opened a support ticket for human follow-up (demo)." ++ nl ++
          "Ticket: " ++ ticketId r ++ nl ++ nl ++
          "While you wait, tell me what you want to solve (compatibility, install, or the symptom) and I can keep helping.")
         (withSources (withTools (withIntent metaBase order_support) ["toolCreateSupportTicketDemo"])
                      (ticket_sources r))) ;;
  (* If user asks human (without email) *)
  returnIf (wantsHuman message || pending)
    (say ("Sure — I can set up a human follow-up (demo ticket)." ++ nl ++
          "Just send your email in the next message." ++ nl ++
          "Example: " ++ dquote ++ "name@email.com WDT780SAEM1 PS11752778" ++ dquote)
         (withIntent metaBase order_support)) ;;
  (* Ack handling *)
  returnIf (looksLikeAck message) (replyToAck t) ;;
  (* Small talk (do NOT reset when awaiting something) *)
  returnIf (looksLikeSmallTalk message && negb (isSome (awaiting t)))
    (say replyHome (withInDomain (withIntent metaBase unknown) true)) ;;
  Next tt.

(** *** Follow-up pre-routing (consume awaiting first) *)

Definition replyPumpSound (ps : PumpSound) : string :=
  match ps with
  | humming =>
      "Humming usually means the pump is trying to run but water isn’t moving." ++ nl ++
      "Common causes:" ++ nl ++
      "- blockage at filter/sump or pump inlet" ++ nl ++
      "- stuck check valve" ++ nl ++
      "- clogged drain hose / disposal connection" ++ nl ++ nl ++
      "Is there standing water, or does it drain slowly?"
  | running => troubleshootDishwasherDrainPumpFollowup true
  | silent => troubleshootDishwasherDrainPumpFollowup false
  | unknown_sound =>
      "When it tries to drain, is the pump running, humming/buzzing, or totally silent?"
  end.

Definition replyFreezerWarming (yn : bool) : string :=
  if yn then
    "If BOTH fridge + freezer are warming up, it’s usually a cooling-system issue:" ++ nl ++
    "- Check if the condenser fan is running" ++ nl ++
    "- Clean condenser coils" ++ nl ++
    "- Make sure the compressor is running (low hum/vibration)" ++ nl ++
    "- Check for heavy frost on the freezer back panel (defrost issue)" ++ nl ++ nl ++
    "Do you hear the condenser fan near the bottom/back running? (yes/no)"
  else
    "If freezer is OK but fridge is warm, it’s often an airflow issue:" ++ nl ++
    "- Vents blocked by food" ++ nl ++
    "- Damper stuck closed" ++ nl ++
    "- Evaporator fan not running" ++ nl ++ nl ++
    "Do you feel airflow from the fridge vents, and do you hear a small fan inside the freezer? (yes/no)".

Definition replyClampType (ct : ClampType) : string :=
  match ct with
  | spring =>
      "Spring clamp: grab the two tabs with pliers, squeeze to open, slide it back on the hose, then twist the hose gently to break the seal." ++ nl ++
      "If it’s stuck, a tiny flathead can help gently lift the hose edge (don’t puncture it)."
  | screw =>
      "Screw clamp: loosen the screw a few turns (don’t remove it), slide the clamp back, then twist the hose to break the seal." ++ nl ++
      "If the hose won’t budge, wiggle + twist instead of pulling straight."
  end.

Definition replyPanelStillWontDrop (yn : bool) : string :=
  if yn then
    "Got it — screws come out but panel won’t drop." ++ nl ++
    "Most common causes:" ++ nl ++
    "- A hidden clip/retainer near the sides" ++ nl ++
    "- The toe-kick overlaps the access panel (two-piece panel)" ++ nl ++
    "- Panel needs to tilt out first, then slide down" ++ nl ++ nl ++
    "Try this: pull the *bottom edge* slightly toward you to unhook, then slide the panel down." ++ nl ++
    "Do you see any side clips you can press in? (yes/no)"
  else
    "If screws don’t come out, check:" ++ nl ++
    "- Are they Torx (T15/T20)?" ++ nl ++
    "- Any screws tucked under the very bottom lip/corners?" ++ nl ++
    "- Are you turning the right direction (counter-clockwise)?" ++ nl ++ nl ++
    "Are the screws Torx? (yes/no)".

Definition replyMovingOrStuck (ms : MovingOrStuck) : string :=
  match ms with
  | unknown_motion => "Is it moving at all, or totally stuck?"
  | moving =>
      "If it’s moving, keep steady pressure while holding the latch fully depressed." ++ nl ++
      "Tip: rock it gently side-to-side (tiny motions) while pulling straight back — don’t yank the wires." ++ nl ++ nl ++
      "Once it’s off, do you see corrosion/dirt on the pins? (yes/no)"
  | stuck =>
      "Totally stuck usually means the latch isn’t fully released or there’s a secondary lock." ++ nl ++
      "Try:" ++ nl ++
      "1) Push the connector *in* slightly first (relieves tension)" ++ nl ++
      "2) Press/hold the latch HARD" ++ nl ++
      "3) Pull straight out while wiggling" ++ nl ++
      "4) If safe, use a small flathead to press the latch tab (don’t pry the plastic housing)" ++ nl ++ nl ++
      "Do you have enough access to press the latch firmly, or is it blocked by the frame? (blocked/accessible)"
  end.

Definition replyNoLatch : string :=
  "If you don’t see a latch, some connectors use a small hidden tab underneath." ++ nl ++
  "Try feeling for a tab and press it while pulling straight out (don’t pull the wires)." ++ nl ++ nl ++
  "Do you see any small tab on the underside?".

(** The classifier's answer for the message of this turn. *)
Definition askGroq (w : World) (message : string) : PumpSound :=
  fst (Groq.groqParsePumpSound (JSON_parse w) (GROQ_API_KEY w) message (network w)).

(** The blocks [if (awaiting?.kind === ...) { ... }], in the order of the
    source.  A block returns, or falls through to the next statement; the
    block of [choice] alone assigns [intent0] and goes on. *)
Definition followUp (w : World) (t : Turn) (message : string) (history : list ChatMessage)
    : Flow Intent :=
  let metaBase := metaBase t in
  let shift := isClearIntentShift message in
  (* Order awaiting *)
  match awaiting t with
  | Some (order_info ask) =>
      let oid := extractOrderId message in
      let zip := extractZip message in
      match ask with
      | ask_order_id =>
          returnIf (negb (truthy oid) && negb shift)
            (say (replyOrderIntake ask_order_id) (withIntent metaBase order_support))
      | ask_zip =>
          returnIf (negb (truthy zip) && negb shift)
            (say (replyOrderIntake ask_zip) (withIntent metaBase order_support))
      | ask_both =>
          returnIf ((negb (truthy oid) || negb (truthy zip)) && negb shift)
            (say (replyOrderIntake ask_both) (withIntent metaBase order_support))
      end ;;
      Return (say (replyOrderStub oid zip) (withIntent metaBase order_support))
  | _ => Next tt
  end ;;
  match awaiting t with
  | Some dishwasher_drain_speed =>
      match parseDrainSpeed message with
      | Some k =>
          Return (say (troubleshootDishwasherDrainSpeedFollowup k) (withIntent metaBase troubleshooting))
      | None =>
          returnIf (negb shift)
            (say "Which one is it: standing water, or drains slowly?" (withIntent metaBase troubleshooting))
      end
  | _ => Next tt
  end ;;
  match awaiting t with
  | Some fridge_freezer_warming_yesno =>
      if negb shift then
        match parseYesNo message with
        | None => Return (say "Is the freezer also warming up? (yes/no)" (withIntent metaBase troubleshooting))
        | Some yn => Return (say (replyFreezerWarming yn) (withIntent metaBase troubleshooting))
        end
      else Next tt
  | _ => Next tt
  end ;;
  match awaiting t with
  | Some pump_sound =>
      if negb shift then
        let ps := parsePumpSound message in
        let '(ps, usedGroq) :=
          if PumpSound_eqb ps unknown_sound then
            let llm := askGroq w message in
            if negb (PumpSound_eqb llm unknown_sound) then (llm, true) else (ps, false)
          else (ps, false) in
        let toolsUsed :=
          if usedGroq then (toolsUsed metaBase ++ ["groqParsePumpSound"])%list
          else toolsUsed metaBase in
        Return (say (replyPumpSound ps) (withTools (withIntent metaBase troubleshooting) toolsUsed))
      else Next tt
  | _ => Next tt
  end ;;
  match awaiting t with
  | Some drain_hose_setup =>
      if negb shift then
        match parseDrainHoseSetup message with
        | unknown_setup =>
            Return (say "Do you have a high loop, an air gap, or neither? (And is it connected to the sink tailpiece or garbage disposal?)"
                        (withIntent metaBase troubleshooting))
        | hs =>
            Return (say (troubleshootDishwasherHoseSetupFollowup hs) (withIntent metaBase troubleshooting))
        end
      else Next tt
  | _ => Next tt
  end ;;
  match awaiting t with
  | Some sink_connection_type =>
      if negb shift then
        match parseSinkConnectionType message with
        | unknown_connection =>
            Return (say "Are you connected to a garbage disposal, or directly to the sink tailpiece?"
                        (withIntent metaBase troubleshooting))
        | k =>
            Return (say (troubleshootDishwasherSinkConnectionFollowup k) (withIntent metaBase troubleshooting))
        end
      else Next tt
  | _ => Next tt
  end ;;
  match awaiting t with
  | Some disposal_flow_yesno =>
      if negb shift then
        match parseYesNo message with
        | None =>
            Return (say "Do you see strong water flow from the dishwasher when it tries to drain (yes/no)?"
                        (withIntent metaBase troubleshooting))
        | Some yn2 => Return (say (replyDisposalFlowYesNo yn2) (withIntent metaBase troubleshooting))
        end
      else Next tt
  | _ => Next tt
  end ;;
  match awaiting t with
  | Some disposal_knockout_yesno =>
      if negb shift then
        match parseYesNo message with
        | None =>
            Return (say "Is the disposal knockout plug already removed? (yes/no)"
                        (withIntent metaBase troubleshooting))
        | Some yn2 => Return (say (replyDisposalKnockoutYesNo yn2) (withIntent metaBase troubleshooting))
        end
      else Next tt
  | _ => Next tt
  end ;;
  match awaiting t with
  | Some tailpiece_gunk_yesno =>
      if negb shift then
        match parseYesNo message with
        | None =>
            Return (say "If you disconnect the hose at the tailpiece, is it clogged with gunk (yes/no)?"
                        (withIntent metaBase troubleshooting))
        | Some yn2 => Return (say (replyTailpieceGunkYesNo yn2) (withIntent metaBase troubleshooting))
        end
      else Next tt
  | _ => Next tt
  end ;;
  match awaiting t with
  | Some did_it_fix_yesno =>
      if negb shift then
        match parseYesNo message with
        | None =>
            Return (say "After that change, does it drain normally now? (yes/no)"
                        (withIntent metaBase troubleshooting))
        | Some yn2 => Return (say (replyDidItFixClose yn2) (withIntent metaBase troubleshooting))
        end
      else Next tt
  | _ => Next tt
  end ;;
  andThen
    match awaiting t with
    | Some (choice _) =>
        match parseChoice message with
        | None =>
            Return (say "Which one do you want to work on: compatibility, install, or the symptom?"
                        (withIntent metaBase unknown))
        | Some opt_compatibility => Next compatibility_check
        | Some opt_install => Next installation_help
        | Some opt_symptom => Next troubleshooting
        end
    | _ => Next (intent0 t)
    end
  (fun intent0 =>
  match awaiting t with
  | Some panel_fastener =>
      if negb shift then
        match parsePanelFastener message with
        | None => Return (say "Do you see screws, or plastic clips?" (withIntent metaBase installation_help))
        | Some k => Return (say (replyPanelFastenerHelp k) (withIntent metaBase installation_help))
        end
      else Next tt
  | _ => Next tt
  end ;;
  match awaiting t with
  | Some clamp_type =>
      if negb shift then
        match parseClampType message with
        | None =>
            Return (say "Is it a spring clamp (two tabs) or a screw clamp?"
                        (withIntent metaBase installation_help))
        | Some ct => Return (say (replyClampType ct) (withIntent metaBase installation_help))
        end
      else Next tt
  | _ => Next tt
  end ;;
  match awaiting t with
  | Some panel_still_wont_drop_yesno =>
      if negb shift then
        match parseYesNo message with
        | None =>
            Return (say "Do the screws come out but the panel still won’t drop? (yes/no)"
                        (withIntent metaBase installation_help))
        | Some yn2 => Return (say (replyPanelStillWontDrop yn2) (withIntent metaBase installation_help))
        end
      else Next tt
  | _ => Next tt
  end ;;
  match awaiting t with
  | Some connector_moving_or_stuck =>
      if negb shift then
        let ms := parseMovingOrStuck message in
        Return (say (replyMovingOrStuck ms) (withIntent metaBase installation_help))
      else Next tt
  | _ => Next tt
  end ;;
  match awaiting t with
  | Some connector_latch_side =>
      if negb shift then
        match parseLatchSide message with
        | Some side_ => Return (say (replyConnectorLatchHelp side_) (withIntent metaBase installation_help))
        | None =>
            match parseYesNo message with
            | Some true =>
                Return (say "Got it — where is the latch: top, or side?"
                            (withIntent metaBase installation_help))
            | Some false => Return (say replyNoLatch (withIntent metaBase installation_help))
            | None =>
                Return (say "Is the latch on the top, or on the side?"
                            (withIntent metaBase installation_help))
            end
        end
      else Next tt
  | _ => Next tt
  end ;;
  match awaiting t with
  | Some install_step =>
      if negb shift then
        match detectInstallStepFollowup history message with
        | Some step_ => Return (say (replyInstallStepHelp step_) (withIntent metaBase installation_help))
        | None =>
            Return (say "Which step are you on: panel, clamps, or connector?"
                        (withIntent metaBase installation_help))
        end
      else Next tt
  | _ => Next tt
  end ;;
  Next intent0).

(** *** The intents *)

Definition cardOf (p : Part) : Card :=
  {| card_partNumber := p_partNumber p; card_name := p_name p; card_price := p_price p;
     card_imageUrl := p_imageUrl p; card_compatibleModels := p_compatibleModels p |}.

(** The three phrasings of the compatibility answer. *)
Definition replyCompatibility (ok : option bool) (partNumber modelNumber : string) : string :=
  match ok with
  | Some true => "Yes — " ++ partNumber ++ " looks compatible with " ++ modelNumber ++ "."
  | Some false =>
      "No — " ++ partNumber ++ " doesn’t look compatible with " ++ modelNumber ++
      " in this demo catalog."
  | None =>
      "I can’t confirm compatibility for " ++ partNumber ++ " with " ++ modelNumber ++
      " from the current demo index."
  end.

Definition orderSupport (t : Turn) (message : string) : ChatResponse :=
  let metaBase := metaBase t in
  let orderId := extractOrderId message in
  let zip := extractZip message in
  if negb (truthy orderId) && negb (truthy zip) && wantsReturnRefundShipping message
  then say (replyOrderIntake ask_both) (withIntent metaBase order_support)
  else if truthy orderId || truthy zip
  then say (replyOrderStub orderId zip) (withIntent metaBase order_support)
  else
    say ("I can help with basic order questions in this demo." ++ nl ++
         "If you want a human follow-up, say “human” and send your email — I’ll open a demo ticket." ++ nl ++
         "If it’s about shipping/return, include order number + ZIP.")
        metaBase.

Definition compatibility (w : World) (t : Turn) : ChatResponse :=
  let metaBase := metaBase t in
  let partNumber := partNumber (entities t) in
  let modelNumber := modelNumber (entities t) in
  if negb (truthy partNumber) || negb (truthy modelNumber) then
    if negb (truthy partNumber) && negb (truthy modelNumber)
    then say "Send the part number (PS…) and your model number, and I’ll check compatibility."
             (withIntent metaBase compatibility_check)
    else if negb (truthy partNumber)
    then say "What’s the part number (PS… or PartSelect link)?" (withIntent metaBase compatibility_check)
    else say "What’s your model number?" (withIntent metaBase compatibility_check)
  else
    let pn := orElse partNumber "" in
    let mn := orElse modelNumber "" in
    let r := Tools.toolCheckCompatibility (compatibility_sample w) (parts_sample w) pn mn in
    let ok := Tools.compatible r in
    let reply := replyCompatibility ok pn mn in
    say (reply ++ nl ++ "Want install steps, or are you troubleshooting a symptom?")
        (withSources (withTools (withIntent metaBase compatibility_check) ["toolCheckCompatibility"])
                     (Tools.compat_sources r)).

(** [/\s+/g] on the snippet, and its first 220 characters. *)
Definition briefSnippet (snippet : string) : string :=
  slice0 220 (replaceAll false SPACES_RE " " snippet) ++
  (if 220 <? String.length snippet then "…" else "").

Definition installation (w : World) (t : Turn) (message : string) : ChatResponse :=
  let metaBase := metaBase t in
  let partNumber := partNumber (entities t) in
  let modelNumber := modelNumber (entities t) in
  if negb (truthy partNumber)
  then say "What’s the full PartSelect part number (starts with PS…) or paste the PartSelect link?" metaBase
  else
    let pn := orElse partNumber "" in
    let gs := Tools.toolSearchGuides (guides_sample w)
                {| Tools.query := message; Tools.arg_appliance := Some (appliance t);
                   Tools.arg_mode := Some mode_install; Tools.topK := Some 2 |} in
    let guides := Tools.guides gs in
    let snippet := trim (orElse (match guides with g :: _ => g_snippet g | [] => None end) "") in
    let looksUseless :=
      (snippet === "") ||
      (toLowerCase snippet === "see guide for details.") ||
      (toLowerCase snippet === "steps available in guide.") ||
      (String.length snippet <? 12) in
    let meta' :=
      withSources (withTools (withIntent metaBase installation_help) ["toolSearchGuides"])
                  (Tools.search_sources gs) in
    if looksUseless then
      let reply :=
        if isRepeated t then compactInstallRepeatVariant pn modelNumber (repeats t)
        else compactInstallSteps pn modelNumber in
      {| reply := reply; meta := meta'; cards := [] |}
    else
      let brief :=
        "For " ++ pn ++ (if truthy modelNumber then " (" ++ orElse modelNumber "" ++ ")" else "") ++
        ", a key step is usually:" ++ nl ++
        briefSnippet snippet ++ nl ++ nl ++
        "Which step are you on: panel, clamps, or connector?" in
      {| reply := brief; meta := meta'; cards := [] |}.

Definition troubleshoot (t : Turn) (message : string) : ChatResponse :=
  let metaBase := metaBase t in
  let modelNumber := modelNumber (entities t) in
  if Appliance_eqb (appliance t) dishwasher
  then say (troubleshootDishwasher modelNumber (isRepeated t)) (withIntent metaBase troubleshooting)
  else
    let t_ := toLowerCase message in
    let topicIce :=
      includes t_ "ice maker" || includes t_ "icemaster" || includes t_ "ice maker not working" in
    let reply :=
      if topicIce
      then "Ice maker not working — quick checks:" ++ nl ++
           "- Water valve open and line not kinked" ++ nl ++
           "- Freezer is cold enough (around 0°F)" ++ nl ++
           "- Fill tube not frozen; replace filter if overdue" ++ nl ++ nl ++
           "If you have it, what’s the fridge model number?"
      else "Fridge not cooling well — quick checks:" ++ nl ++
           "- Vents not blocked by food" ++ nl ++
           "- Clean condenser coils" ++ nl ++
           "- Check whether the condenser fan is running" ++ nl ++ nl ++
           "Is the freezer also warming up?" in
    say reply (withIntent metaBase troubleshooting).

Definition partLookup (w : World) (t : Turn) (message : string) : ChatResponse :=
  let metaBase := metaBase t in
  let modelNumber := modelNumber (entities t) in
  (* allow lookup ONLY when PS... is typed THIS TURN *)
  let explicitPart := extractPartNumberFromLinkOrText message in
  if negb (truthy explicitPart)
  then say "If you want to look up a part, paste the full PS part number (PS + 5–10 digits) or the PartSelect link."
           metaBase
  else
    let ep := orElse explicitPart "" in
    let r := Tools.toolLookupPart (parts_sample w) ep in
    let meta' :=
      withSources (withTools (withIntent metaBase part_lookup) ["toolLookupPart"])
                  (Tools.lookup_sources r) in
    match Tools.part r with
    | None =>
        say ("I can’t find " ++ ep ++
             " in the demo catalog. If you paste the PartSelect link, I can still help with install/troubleshooting.")
            meta'
    | Some p =>
        if wantsAlternatives message then
          {| reply :=
               (if truthy modelNumber then "For " ++ orElse modelNumber "" ++ ", " else "") ++
               "this demo doesn’t have a real cross-reference “alternatives” catalog." ++ nl ++ nl ++
               "What I can do instead:" ++ nl ++
               "- help you find same-category parts that list your model" ++ nl ++
               "- tell you what specs to match (connector, mounting, hose size)" ++ nl ++
               "- talk through OEM vs aftermarket trade-offs";
             meta := meta';
             cards := [cardOf p] |}
        else
          let followup :=
            "Found it: " ++ p_partNumber p ++ " — " ++ p_name p ++ "." ++ nl ++
            (if truthy modelNumber
             then "Want me to check it against your model (" ++ orElse modelNumber "" ++ ")?"
             else "If you share your model number, I can check compatibility.") in
          {| reply := followup; meta := meta'; cards := [cardOf p] |}
    end.

(** The statements from "Order support" to the end, for the intent that
    the pre-routing left. *)
Definition dispatch (w : World) (t : Turn) (intent0 : Intent) (message : string) : ChatResponse :=
  match intent0 with
  | order_support => orderSupport t message
  | compatibility_check => compatibility w t
  | installation_help => installation w t message
  | troubleshooting => troubleshoot t message
  | part_lookup => partLookup w t message
  (* Unknown but in-domain *)
  | unknown => say replyHome (metaBase t)
  end.

Definition handleChatTurn (w : World) (req : ChatRequest) : ChatResponse :=
  let message := message req in
  let history := history req in
  let t := resolveTurn message history in
  match gates w t message history ;; followUp w t message history with
  | Return r => r
  | Next intent0 => dispatch w t intent0 message
  end.

(** ** The specification's reading of appliance pinning

    The second definition of a refinement: appliance pinning as the
    specification words it, to be compared with [inferPinnedAppliance]. *)

Definition dishwasherSignals : list string :=
  ["dishwasher"; "wdt"; "kdf"; "not draining"; "drain"; "spray arm"; "sump"; "air gap";
   "high loop"].

Definition refrigeratorSignals : list string :=
  ["fridge"; "refrigerator"; "freezer"; "ice maker"; "icemaster"; "defrost"; "evaporator";
   "not cooling"].

(** The keyword classifier: the dishwasher signals are checked first. *)
Definition keywordClassifier (text : string) : Appliance :=
  let t := toLowerCase text in
  if existsb (includes t) dishwasherSignals then dishwasher
  else if existsb (includes t) refrigeratorSignals then refrigerator
  else unknown_appliance.

(** The last [n] user turns, oldest first. *)
Definition lastUserTurns (n : nat) (history : list ChatMessage) : list ChatMessage :=
  rev (firstn n (rev (filter (fun m => Role_eqb (role m) user) history))).

(** The turns, each classified on its own, that vote for an appliance. *)
Definition votesFor (a : Appliance) (turns : list ChatMessage) : nat :=
  List.length (filter (fun m => Appliance_eqb (keywordClassifier (content m)) a) turns).

Definition pinnedApplianceSpec (message : string) (history : list ChatMessage) : Appliance :=
  match keywordClassifier message with
  | dishwasher => dishwasher
  | refrigerator => refrigerator
  | unknown_appliance =>
      let recent := lastUserTurns 8 history in
      let dw := votesFor dishwasher recent in
      let rf := votesFor refrigerator recent in
      if rf <? dw then dishwasher
      else if dw <? rf then refrigerator
      else unknown_appliance
  end.

(** The question of the install chain, as the router asks it. *)
Definition installStepQuestion : string := "Which step are you on: panel, clamps, or connector?".

(** The two messages of the domain-gate examples. *)
Definition weatherMessage : string := "what's the weather today".
Definition drainMessage : string := "my dishwasher won't drain".

(** The kinds the slot-clearing guard lists in its body. *)
Definition isStaleInstallList (slot : Slot) : bool :=
  match slot with
  | install_step | clamp_type | panel_fastener | connector_latch_side => true
  | _ => false
  end.

(** A message whose raw intent is troubleshooting and that carries nothing else. *)
Definition wontBudge : string := "it won't budge".

(** The close of every compatibility answer. *)
Definition compatibilityTail : string :=
  nl ++ "Want install steps, or are you troubleshooting a symptom?".

(** The compatibility question of the specification. *)
Definition compatibilityQuestion : string :=
  "Is PS11752778 compatible with my WDT780SAEM1 model?".

(** A message that asks for a human and carries an email. *)
Definition handoffMessage : string := "human please a@b.com".

(** A pump-sound answer that the local parser does not understand. *)
Definition rattleMessage : string := "it rattles a bit".

(** The text of a classifier answer that says humming. *)
Definition hummingJson : string :=
  "{" ++ dquote ++ "pump_sound" ++ dquote ++ ":" ++ dquote ++ "humming" ++ dquote ++ "}".

(** The common shape of the two part-number patterns: [\bPS\d{lo,hi}\b]. *)
Definition PS_TOKEN_RE (lo hi : nat) : regex :=
  Cat Bnd (Cat (lit "PS") (Cat (Rep lo (Some hi) digit) Bnd)).

(** The example of a PS token with too many digits. *)
Definition longToken : string := "PS123456789012".

(** ** The re-ask of each slot

    What the follow-up block of a slot answers when its parser fails on a
    message that is no clear shift, collected from the blocks of
    [handleChatTurn], and the test that the parser fails. *)

Definition reask (s : Slot) : string :=
  match s with
  | pump_sound => "When it tries to drain, is the pump running, humming/buzzing, or totally silent?"
  | dishwasher_drain_speed => "Which one is it: standing water, or drains slowly?"
  | drain_hose_setup =>
      "Do you have a high loop, an air gap, or neither? (And is it connected to the sink tailpiece or garbage disposal?)"
  | sink_connection_type =>
      "Are you connected to a garbage disposal, or directly to the sink tailpiece?"
  | disposal_flow_yesno =>
      "Do you see strong water flow from the dishwasher when it tries to drain (yes/no)?"
  | disposal_knockout_yesno => "Is the disposal knockout plug already removed? (yes/no)"
  | tailpiece_gunk_yesno =>
      "If you disconnect the hose at the tailpiece, is it clogged with gunk (yes/no)?"
  | did_it_fix_yesno => "After that change, does it drain normally now? (yes/no)"
  | choice _ => "Which one do you want to work on: compatibility, install, or the symptom?"
  | install_step => "Which step are you on: panel, clamps, or connector?"
  | clamp_type => "Is it a spring clamp (two tabs) or a screw clamp?"
  | panel_fastener => "Do you see screws, or plastic clips?"
  | connector_latch_side => "Is the latch on the top, or on the side?"
  | order_info ask => replyOrderIntake ask
  | fridge_freezer_warming_yesno => "Is the freezer also warming up? (yes/no)"
  | panel_still_wont_drop_yesno =>
      "Do the screws come out but the panel still won’t drop? (yes/no)"
  | connector_moving_or_stuck => "Is it moving at all, or totally stuck?"
  end.

(** The intent a re-ask is labelled with. *)
Definition lane (s : Slot) : Intent :=
  match s with
  | choice _ => unknown
  | order_info _ => order_support
  | install_step | clamp_type | panel_fastener | connector_latch_side
  | panel_still_wont_drop_yesno | connector_moving_or_stuck => installation_help
  | _ => troubleshooting
  end.

(** The slot's parser fails on the message (for [pump_sound], the
    classifier's answer [llm] is unknown as well). *)
Definition unparsed (s : Slot) (llm : PumpSound) (m : string) (h : list ChatMessage) : bool :=
  match s with
  | pump_sound =>
      PumpSound_eqb (parsePumpSound m) unknown_sound && PumpSound_eqb llm unknown_sound
  | dishwasher_drain_speed => negb (isSome (parseDrainSpeed m))
  | drain_hose_setup =>
      match parseDrainHoseSetup m with unknown_setup => true | _ => false end
  | sink_connection_type =>
      match parseSinkConnectionType m with unknown_connection => true | _ => false end
  | disposal_flow_yesno | disposal_knockout_yesno | tailpiece_gunk_yesno | did_it_fix_yesno
  | fridge_freezer_warming_yesno | panel_still_wont_drop_yesno =>
      negb (isSome (parseYesNo m))
  | choice _ => negb (isSome (parseChoice m))
  | install_step => negb (isSome (detectInstallStepFollowup h m))
  | clamp_type => negb (isSome (parseClampType m))
  | panel_fastener => negb (isSome (parsePanelFastener m))
  | connector_latch_side => negb (isSome (parseLatchSide m)) && negb (isSome (parseYesNo m))
  | order_info ask_order_id => negb (truthy (extractOrderId m))
  | order_info ask_zip => negb (truthy (extractZip m))
  | order_info ask_both => negb (truthy (extractOrderId m)) || negb (truthy (extractZip m))
  | connector_moving_or_stuck =>
      match parseMovingOrStuck m with unknown_motion => true | _ => false end
  end.

(** The slot reconstructed when the re-ask is the last assistant turn. *)
Definition slotAfterReask (s : Slot) : Awaiting := slotOfAssistantText (toLowerCase (reask s)).

(** A history that ends with the connector help, which asks for the latch. *)
Definition connectorHistory : list ChatMessage :=
  [mkMsg user "How can I install part number PS11752778?";
   mkMsg assistant (compactInstallSteps "PS11752778" None);
   mkMsg user "connector";
   mkMsg assistant (replyInstallStepHelp step_connector)].

(** An answer no parser understands. *)
Definition notSure : string := "not sure".

(** ** Worlds for the examples *)

(** A world without credential and with empty sample files. *)
Definition bareWorld : World :=
  {| GROQ_API_KEY := None; network := []; Math_random := 1 # 2;
     JSON_parse := fun _ => None;
     parts_sample := []; compatibility_sample := []; guides_sample := [] |}.

Definition withRandom (w : World) (r : Q) : World :=
  {| GROQ_API_KEY := GROQ_API_KEY w; network := network w; Math_random := r;
     JSON_parse := JSON_parse w; parts_sample := parts_sample w;
     compatibility_sample := compatibility_sample w; guides_sample := guides_sample w |}.

Definition withoutCredential (w : World) : World :=
  {| GROQ_API_KEY := None; network := network w; Math_random := Math_random w;
     JSON_parse := JSON_parse w; parts_sample := parts_sample w;
     compatibility_sample := compatibility_sample w; guides_sample := guides_sample w |}.

(** The body of a completion whose message content is [text]. *)
Definition completion (text : string) : json :=
  JObj [("choices", JArr [JObj [("message", JObj [("content", JStr text)])]])].

(** An answer of the network that arrives after [ms] milliseconds, body
    and all. *)
Definition answerAfter (ms : N) (text : string) : Pending :=
  {| settlesAfter := Some ms;
     outcome := Some {| ok := true; bodyAfter := 0; json_body := Some (completion text) |} |}.

(** An answer whose head arrives after [ms] milliseconds and whose body takes
    [body] milliseconds more. *)
Definition answerWithSlowBody (ms body : N) (text : string) : Pending :=
  {| settlesAfter := Some ms;
     outcome := Some {| ok := true; bodyAfter := body; json_body := Some (completion text) |} |}.

(** A world with a credential in which the classifier's answer, humming,
    arrives after [ms] milliseconds; its [JSON.parse] knows that one text. *)
Definition hummingWorld (ms : N) : World :=
  {| GROQ_API_KEY := Some "gsk_demo";
     network := [answerAfter ms hummingJson];
     Math_random := 1 # 2;
     JSON_parse := fun s => if s === hummingJson
                            then Some (JObj [("pump_sound", JStr "humming")]) else None;
     parts_sample := []; compatibility_sample := []; guides_sample := [] |}.

(** A world with a credential in which the classifier's answer, humming,
    comes with a slow body: the response after 1000 ms, the body 4000 ms
    later. *)
Definition slowBodyWorld : World :=
  {| GROQ_API_KEY := Some "gsk_demo";
     network := [answerWithSlowBody 1000 4000 hummingJson];
     Math_random := 1 # 2;
     JSON_parse := fun s => if s === hummingJson
                            then Some (JObj [("pump_sound", JStr "humming")]) else None;
     parts_sample := []; compatibility_sample := []; guides_sample := [] |}.

(** A history that ends with the pump question of the drain checks. *)
Definition pumpHistory : list ChatMessage :=
  [mkMsg user drainMessage; mkMsg assistant (troubleshootDishwasher None false)].

Definition turn (message : string) (history : list ChatMessage) : ChatRequest :=
  {| message := message; history := history |}.

(** ** Vocabulary of the further properties *)

(** The turns of the user that repeat the current request. *)
Definition sameRequest (current : string) (m : ChatMessage) : bool :=
  Role_eqb (role m) user && (norm (content m) === norm current).

Definition occurrences (history : list ChatMessage) (current : string) : nat :=
  List.length (filter (sameRequest current) history).

(** Some character of the text is in the class. *)
Fixpoint any_char (cls : ascii -> bool) (s : string) : bool :=
  match s with
  | EmptyString => false
  | String a s' => cls a || any_char cls s'
  end.

(** Every character of the text is in the class. *)
Fixpoint all_char (cls : ascii -> bool) (s : string) : bool :=
  match s with
  | EmptyString => true
  | String a s' => cls a && all_char cls s'
  end.

(** The characters of a class, in order. *)
Fixpoint keep (cls : ascii -> bool) (s : string) : string :=
  match s with
  | EmptyString => EmptyString
  | String a s' => if cls a then String a (keep cls s') else keep cls s'
  end.

(** The digits a text starts with, [n] of them at most. *)
Fixpoint leading_digits (n : nat) (s : string) : string :=
  match n, s with
  | S n', String a s' => if is_digit a then String a (leading_digits n' s') else ""
  | _, _ => ""
  end.

(** [[A-Z0-9-]], the characters of an order id. *)
Definition order_char (c : ascii) : bool := upper_or_digit c || one_of "-" c.

(** The words [looksLikeAck] accepts, once the message is reduced to its
    letters. *)
Definition ackWords : list string :=
  ["ok"; "okay"; "k"; "kk"; "thanks"; "thankyou"; "thx"; "cool"; "gotit"; "great"; "nice";
   "perfect"].

(** The lane a slot belongs to, as the stickiness rules of [handleChatTurn]
    read it. *)
Definition stickyIntent (s : Slot) : Intent :=
  if isAwaitingInstall (Some s) then installation_help
  else if isAwaitingTroubleshoot (Some s) then troubleshooting
  else if isAwaitingOrder (Some s) then order_support
  else unknown.

(** A response that keeps what the turn resolved: in domain, with the
    entities of [metaBase]. *)
Definition keepsEntities (t : Turn) (r : ChatResponse) : Prop :=
  inDomain (meta r) = true /\ extracted (meta r) = extracted (metaBase t).

(** The tool a response reports, and what the router had in hand when it
    called it. *)
Definition toolDiscipline (w : World) (t : Turn) (m : string) (h : list ChatMessage)
    (r : ChatResponse) : Prop :=
  (toolsUsed (meta r) = [] /\ sources (meta r) = [] /\ cards r = []) \/
  (toolsUsed (meta r) = ["toolCreateSupportTicketDemo"] /\ cards r = [] /\
   opensTicket m h = true) \/
  (toolsUsed (meta r) = ["groqParsePumpSound"] /\ sources (meta r) = [] /\ cards r = [] /\
   awaiting t = Some pump_sound /\ parsePumpSound m = unknown_sound /\
   askGroq w m <> unknown_sound) \/
  (toolsUsed (meta r) = ["toolCheckCompatibility"] /\ cards r = [] /\
   truthy (partNumber (entities t)) = true /\ truthy (modelNumber (entities t)) = true) \/
  (toolsUsed (meta r) = ["toolSearchGuides"] /\ cards r = [] /\
   truthy (partNumber (entities t)) = true) \/
  (toolsUsed (meta r) = ["toolLookupPart"] /\
   truthy (extractPartNumberFromLinkOrText m) = true /\
   (cards r = [] \/
    exists p, cards r = [cardOf p] /\
              Tools.part (Tools.toolLookupPart (parts_sample w)
                            (orElse (extractPartNumberFromLinkOrText m) "")) = Some p)).


(** The slot decoded on the next turn when [reply] is the last thing the
    assistant said. *)
Definition nextSlot (h : list ChatMessage) (reply : string) : Awaiting :=
  inferDialogState (h ++ [mkMsg assistant reply]).

(** The reply of [handleChatTurn] that asks for the email. *)
Definition replyAskEmail : string :=
  "Sure — I can set up a human follow-up (demo ticket)." ++ nl ++
  "Just send your email in the next message." ++ nl ++
  "Example: " ++ dquote ++ "name@email.com WDT780SAEM1 PS11752778" ++ dquote.

(** The reply of [handleChatTurn] that reports the ticket. *)
Definition replyTicket (id : string) : string :=
  "Got it — I opened a support ticket for human follow-up (demo)." ++ nl ++
  "Ticket: " ++ id ++ nl ++ nl ++
  "While you wait, tell me what you want to solve (compatibility, install, or the symptom) and I can keep helping.".

(** The reply of [replyToAck] outside the slots it knows. *)
Definition replyAckMenu : string :=
  "👍 Okay. Want help with compatibility, installation, troubleshooting, order support, or a PS part number?".

(** A history that ends with the greeting. *)
Definition greeted : list ChatMessage := [mkMsg user "hi"; mkMsg assistant replyHome].

(** A character of the ASCII range, and a text made of such characters. *)
Definition is_ascii (c : ascii) : bool := code c <? 128.
Definition ascii_text (s : string) : bool := all_char is_ascii s.








(** A turn about a refrigerator. *)
Definition fridgeMessage : string := "my fridge is not cooling".
Definition iceMessage : string := "the ice maker stopped".
Definition fridgeTurn : Turn := resolveTurn fridgeMessage [].

(** A request for a human followed by [n] more user turns. *)
Definition afterTheRequest (n : nat) : list ChatMessage :=
  mkMsg user "human please" :: repeat (mkMsg user "ok") n.

(** A catalog, a compatibility index and a guide store for the examples. *)
Definition doorBin : RawPart :=
  {| raw_partNumber := Some " ps11752778 "; raw_name := "Refrigerator Door Shelf Bin";
     raw_price := Some "$44.95"; raw_imageUrl := None; raw_appliance := Some refrigerator;
     raw_compatibleModels := ["wdt780saem1"] |}.

Definition emptyIndexRow : RawCompatibilityRow :=
  {| raw_row_partNumber := Some "PS11752778"; raw_row_models := [] |}.

Definition pumpGuide : RawGuide :=
  {| raw_id := Some "g1"; raw_title := Some "Replace the drain pump";
     raw_url := None; raw_snippet := Some "Disconnect power, remove the lower panel and swap the pump.";
     raw_guide_appliance := Some dishwasher; raw_mode := Some mode_install; raw_tags := ["pump"] |}.

Definition pumpGuideAgain : RawGuide :=
  {| raw_id := Some "g2"; raw_title := Some " replace the DRAIN pump ";
     raw_url := None; raw_snippet := Some "The same steps, told again.";
     raw_guide_appliance := None; raw_mode := Some mode_install; raw_tags := [] |}.

Definition binGuide : RawGuide :=
  {| raw_id := Some "g3"; raw_title := Some "Install a door bin";
     raw_url := None; raw_snippet := Some "Lift the old bin and snap in the new one.";
     raw_guide_appliance := Some refrigerator; raw_mode := Some mode_install; raw_tags := [] |}.

Definition catalogWorld : World :=
  {| GROQ_API_KEY := None; network := []; Math_random := 1 # 2;
     JSON_parse := fun _ => None;
     parts_sample := [doorBin]; compatibility_sample := [];
     guides_sample := [pumpGuide; pumpGuideAgain; binGuide] |}.

(** A classifier answer wrapped in a code fence. *)
Definition fencedJson : string :=
  "```json" ++ nl ++ hummingJson ++ nl ++ "```".

(* ===================================================================== *)
(** * Part II. Properties *)
(* ===================================================================== *)

(** ** Tactics *)

(** Replaces what a goal still reads from the history [h] by variables. *)
Ltac forget_history h :=
  repeat match goal with
         | |- context [inferPinnedAppliance ?m h] =>
             let a := fresh "pinned" in
             generalize (inferPinnedAppliance m h); intro a
         | |- context [findLastModelNumberForAppliance h ?a] =>
             let m := fresh "lastModel" in
             generalize (findLastModelNumberForAppliance h a); intro m
         | |- context [findLastPartNumber h] =>
             let p := fresh "lastPart" in
             generalize (findLastPartNumber h); intro p
         | |- context [countUserRepeatsExcludingCurrent h ?m] =>
             let n := fresh "reps" in
             generalize (countUserRepeatsExcludingCurrent h m); intro n
         | |- context [everRequestedHuman h] =>
             let b := fresh "asked" in
             generalize (everRequestedHuman h); intro b
         | |- context [handoffPending h] =>
             let b := fresh "pend" in
             generalize (handoffPending h); intro b
         end.

(** A digit is a word character that no case mapping changes. *)
Lemma is_digit_facts (a : ascii) :
  is_digit a = true ->
  is_word a = true /\ toUpperChar a = a /\ toLowerChar a = a /\
  (a =? "P")%char = false /\ (toUpperChar a =? "P")%char = false.
Proof.
  destruct a as [[] [] [] [] [] [] [] []]; vm_compute; intros H;
    try discriminate H; repeat split; reflexivity.
Qed.





(** ** Appliance pinning *)

Lemma keywordClassifier_is_inferApplianceFromText (text : string) :
  inferApplianceFromText text = keywordClassifier text.
Proof.
  unfold inferApplianceFromText, keywordClassifier, dishwasherSignals, refrigeratorSignals.
  cbn [existsb].
  repeat match goal with
         | |- context [includes ?a ?b] => destruct (includes a b); cbn; try reflexivity
         end.
Qed.

Lemma slice_last_is_rev_firstn {A} (n : nat) (l : list A) :
  slice_last (S n) l = rev (firstn (S n) (rev l)).
Proof.
  unfold slice_last. rewrite firstn_rev, rev_involutive. reflexivity.
Qed.

Lemma applianceVotes_counts (recent : list ChatMessage) :
  forall dw rf,
    applianceVotes recent dw rf =
    (dw + votesFor dishwasher recent, rf + votesFor refrigerator recent).
Proof.
  unfold votesFor.
  induction recent as [|m recent IH]; intros dw rf; cbn [applianceVotes filter].
  - cbn. now rewrite !Nat.add_0_r.
  - rewrite IH, keywordClassifier_is_inferApplianceFromText.
    destruct (keywordClassifier (content m)); cbn; f_equal; lia.
Qed.

(** C4. Appliance pinning is the algorithm of the specification: a
    dishwasher or refrigerator verdict of the keyword classifier on the
    current message (dishwasher signals first) is returned whatever the
    history; otherwise each of the last 8 user turns is classified on its own
    and the appliance with strictly more votes is returned, [unknown] on a
    tie. *)
Theorem inferPinnedAppliance_refines_spec (message : string) (history : list ChatMessage) :
  inferPinnedAppliance message history = pinnedApplianceSpec message history.
Proof.
  unfold inferPinnedAppliance, pinnedApplianceSpec, lastNUser, lastUserTurns.
  rewrite keywordClassifier_is_inferApplianceFromText.
  destruct (keywordClassifier message); cbn [Appliance_eqb negb]; try reflexivity.
  rewrite slice_last_is_rev_firstn, applianceVotes_counts. cbn [Nat.add].
  set (dw := votesFor dishwasher _). set (rf := votesFor refrigerator _).
  destruct (Nat.eqb_spec dw rf) as [E|E].
  - rewrite E, Nat.ltb_irrefl. reflexivity.
  - destruct (Nat.ltb_spec rf dw) as [L|L]; [reflexivity|].
    destruct (Nat.ltb_spec dw rf) as [L'|L']; [reflexivity|lia].
Qed.

(** ** Reasoning about a turn with an arbitrary history

    The history enters a turn through a handful of functions.  A proof
    rewrites the facts it needs about them, replaces the remaining calls by
    variables and evaluates the turn, one phase at a time. *)

Lemma handleChatTurn_phases (w : World) (m : string) (h : list ChatMessage) :
  handleChatTurn w (turn m h) =
  match gates w (resolveTurn m h) m h ;; followUp w (resolveTurn m h) m h with
  | Return r => r
  | Next intent0 => dispatch w (resolveTurn m h) intent0 m
  end.
Proof. reflexivity. Qed.

(** ** Intent non-stealing *)

Lemma lastAssistant_install_step (h : list ChatMessage) (a : ChatMessage) :
  lastAssistant h = Some a ->
  content a = installStepQuestion ->
  inferDialogState h = Some install_step /\
  handoffPending h = false /\
  detectInstallStepFollowup h "clamps" = Some step_clamps.
Proof.
  intros Hl Hc. unfold inferDialogState, handoffPending, detectInstallStepFollowup.
  rewrite Hl. cbn [option_map orElse]. rewrite Hc.
  repeat split; vm_compute; reflexivity.
Qed.











(** The bare question, on its own or after anything else, meets the
    conditions. *)
Lemma the_bare_question_opens_the_install_step (h : list ChatMessage) (a : ChatMessage) :
  lastAssistant h = Some a ->
  content a = installStepQuestion ->
  includes (toLowerCase (content a)) "which step are you on: panel, clamps, or connector?" = true /\
  inferDialogState h = Some install_step /\
  handoffPending h = false.
Proof.
  intros Hl Hc. destruct (lastAssistant_install_step h Hl Hc) as (Hs & Hp & _).
  rewrite Hc. split; [vm_compute; reflexivity|]. split; assumption.
Qed.

(** ** The domain gate *)

Lemma resolveTurn_no_slot (m : string) (h : list ChatMessage) :
  inferDialogState h = None -> awaiting (resolveTurn m h) = None.
Proof. intros Hs. unfold resolveTurn. rewrite Hs. reflexivity. Qed.

Lemma followUp_no_slot (w : World) (t : Turn) (m : string) (h : list ChatMessage) :
  awaiting t = None -> followUp w t m h = Next (intent0 t).
Proof. intros Ht. unfold followUp. rewrite Ht. reflexivity. Qed.

Lemma resolveTurn_weather (h : list ChatMessage) :
  inferDialogState h = None ->
  findLastPartNumber h = None ->
  findLastModelNumberForAppliance h (inferPinnedAppliance weatherMessage h) = None ->
  let t := resolveTurn weatherMessage h in
  awaiting t = None /\ partNumber (entities t) = None /\ modelNumber (entities t) = None.
Proof.
  intros Hs Hp Hm. unfold resolveTurn, resolveEntities. rewrite Hs, Hp, Hm.
  forget_history h. vm_compute. auto.
Qed.

Lemma gates_weather (w : World) (t : Turn) (h : list ChatMessage) :
  awaiting t = None -> partNumber (entities t) = None -> modelNumber (entities t) = None ->
  gates w t weatherMessage h =
  Return (say replyOutOfDomain (withIntent (withInDomain (metaBase t) false) unknown)).
Proof.
  intros Ha Hp Hm. unfold gates, allowed. rewrite Ha, Hp, Hm. vm_compute. reflexivity.
Qed.

Lemma pinned_by_message (m : string) (h : list ChatMessage) :
  inferApplianceFromText m <> unknown_appliance ->
  inferPinnedAppliance m h = inferApplianceFromText m.
Proof.
  intros H. unfold inferPinnedAppliance.
  destruct (inferApplianceFromText m); [reflexivity | reflexivity | congruence].
Qed.

Lemma resolveTurn_drain (h : list ChatMessage) :
  inferDialogState h = None ->
  let t := resolveTurn drainMessage h in
  awaiting t = None /\ intent0 t = troubleshooting /\ appliance t = dishwasher /\
  hasIncompletePart (entities t) = false.
Proof.
  intros Hs. unfold resolveTurn, resolveEntities. rewrite Hs.
  rewrite (@pinned_by_message drainMessage h) by (vm_compute; discriminate).
  forget_history h. vm_compute. auto.
Qed.

Lemma allowed_drain (t : Turn) : allowed t drainMessage = true.
Proof.
  unfold allowed.
  replace (includes (toLowerCase drainMessage) "dishwasher") with true
    by (vm_compute; reflexivity).
  rewrite orb_true_r, !orb_true_l. reflexivity.
Qed.

Lemma gates_drain (w : World) (t : Turn) (h : list ChatMessage) :
  hasIncompletePart (entities t) = false ->
  gates w t drainMessage h = Next tt.
Proof.
  intros Hi. unfold gates, opensTicket, pendingHandoff. rewrite Hi, allowed_drain.
  forget_history h. destruct pend; vm_compute; reflexivity.
Qed.

(** C8, amended.  The domain gate: with no active slot and no part or
    model number carried by the history, "what's the weather today" gets the
    redirect reply with [inDomain = false] and intent [unknown]; with no active
    slot, "my dishwasher won't drain" gets a reply with [inDomain = true] and
    intent [troubleshooting] (the dishwasher drain checks). *)
Theorem domain_gate (w : World) (h : list ChatMessage) :
  inferDialogState h = None ->
  (findLastPartNumber h = None ->
   findLastModelNumberForAppliance h (inferPinnedAppliance weatherMessage h) = None ->
   let r := handleChatTurn w (turn weatherMessage h) in
   reply r = replyOutOfDomain /\ inDomain (meta r) = false /\ intent (meta r) = unknown) /\
  (let r := handleChatTurn w (turn drainMessage h) in
   let t := resolveTurn drainMessage h in
   inDomain (meta r) = true /\ intent (meta r) = troubleshooting /\
   reply r = troubleshootDishwasher (modelNumber (entities t)) (isRepeated t)).
Proof.
  intros Hs. split.
  - intros Hp Hm. cbv zeta. rewrite handleChatTurn_phases.
    destruct (resolveTurn_weather h Hs Hp Hm) as (Ha & Hpn & Hmn).
    rewrite (gates_weather w _ h Ha Hpn Hmn). cbn. auto.
  - cbv zeta. rewrite handleChatTurn_phases.
    destruct (resolveTurn_drain h Hs) as (Ha & Hi & Hap & Hinc).
    rewrite (gates_drain w _ h Hinc). cbn [andThen].
    rewrite (followUp_no_slot w _ drainMessage h Ha), Hi.
    cbn [dispatch]. unfold troubleshoot. rewrite Hap.
    cbn [Appliance_eqb say reply meta inDomain intent withIntent metaBase]. auto.
Qed.

Lemma domain_gate_witness :
  (let r := handleChatTurn bareWorld (turn weatherMessage []) in
   reply r = replyOutOfDomain /\ inDomain (meta r) = false /\ intent (meta r) = unknown) /\
  (let r := handleChatTurn bareWorld (turn drainMessage []) in
   let t := resolveTurn drainMessage [] in
   inDomain (meta r) = true /\ intent (meta r) = troubleshooting /\
   reply r = troubleshootDishwasher (modelNumber (entities t)) (isRepeated t)).
Proof.
  destruct (@domain_gate bareWorld [] eq_refl) as [H1 H2].
  split; [apply H1; reflexivity | exact H2].
Defined.

(** C8, as stated, fails.  With no active slot the weather question is
    still answered in domain, with the greeting, when the history carries a part
    number: one the user typed, or the example of the assistant's greeting.  The
    part number of the conversation is one of the signals of the domain
    filter. *)
Lemma weather_is_in_domain_after_a_part_number :
  (let h := [mkMsg user "PS11752778"] in
   let r := handleChatTurn bareWorld (turn weatherMessage h) in
   inferDialogState h = None /\ awaiting (resolveTurn weatherMessage h) = None /\
   inDomain (meta r) = true /\ reply r = replyHome /\ reply r <> replyOutOfDomain) /\
  (let h := greeted in
   let r := handleChatTurn bareWorld (turn weatherMessage h) in
   inferDialogState h = None /\ awaiting (resolveTurn weatherMessage h) = None /\
   inDomain (meta r) = true /\ reply r = replyHome /\ reply r <> replyOutOfDomain).
Proof. vm_compute. repeat split; try reflexivity; discriminate. Qed.

(** ** The slot-clearing guard *)

(** What the guard computes for an active slot: the installation family it
    tests is the list of four kinds written in its body. *)
Lemma shouldClearAwaiting_rule (slot : Slot) (i : Intent) (a : Appliance) (m : string) :
  shouldClearAwaiting (Some slot) i a m =
  hasGlobalIntentKeyword m
  || (truthy (extractPartNumberFromLinkOrText m) || truthy (extractModelNumber m)
      || truthy (extractOrderId m) || truthy (extractZip m))
  || (Intent_eqb i troubleshooting && isStaleInstallList slot)
  || (Appliance_eqb a refrigerator && isAwaitingTroubleshoot (Some slot)).
Proof.
  unfold shouldClearAwaiting, isStaleInstallList.
  destruct (hasGlobalIntentKeyword m); [reflexivity|].
  destruct (truthy (extractPartNumberFromLinkOrText m) || truthy (extractModelNumber m)
            || truthy (extractOrderId m) || truthy (extractZip m)); [reflexivity|].
  destruct (Intent_eqb i troubleshooting); cbn [andb orb].
  - destruct slot; cbn [orb]; try reflexivity;
      destruct (Appliance_eqb a refrigerator); reflexivity.
  - destruct (Appliance_eqb a refrigerator && isAwaitingTroubleshoot (Some slot)); reflexivity.
Qed.

(** C2. The slot-clearing guard at the input where it departs from the
    claim: the raw intent of "it won't budge" is [troubleshooting], the message
    carries no keyword and no entity, and the slots
    [panel_still_wont_drop_yesno] and [connector_moving_or_stuck] belong to the
    installation family of [isAwaitingInstall]; the guard keeps both (it
    returns [false]), while it clears [install_step] on the same input.  In a
    turn, the slot reconstructed from the panel help is still active after the
    guard. *)
Theorem shouldClearAwaiting_keeps_newer_install_slots :
  isAwaitingInstall (Some panel_still_wont_drop_yesno) = true /\
  isAwaitingInstall (Some connector_moving_or_stuck) = true /\
  inferIntent wontBudge = troubleshooting /\
  hasGlobalIntentKeyword wontBudge = false /\
  shouldClearAwaiting (Some panel_still_wont_drop_yesno) troubleshooting unknown_appliance
    wontBudge = false /\
  shouldClearAwaiting (Some connector_moving_or_stuck) troubleshooting unknown_appliance
    wontBudge = false /\
  shouldClearAwaiting (Some install_step) troubleshooting unknown_appliance wontBudge = true /\
  awaiting (resolveTurn wontBudge [mkMsg assistant (replyPanelFastenerHelp screws)]) =
    Some panel_still_wont_drop_yesno /\
  awaiting (resolveTurn wontBudge [mkMsg assistant installStepQuestion]) = None.
Proof. vm_compute. repeat split; reflexivity. Qed.

(** ** Tri-state compatibility *)




(** The example of the specification, through the whole turn and for every
    world: the reply to the compatibility question is the phrasing of whatever
    the tool answers for PS11752778 and WDT780SAEM1. *)
Lemma compatibility_turn (w : World) :
  let r := handleChatTurn w (turn compatibilityQuestion []) in
  reply r =
    replyCompatibility
      (Tools.compatible
         (Tools.toolCheckCompatibility (compatibility_sample w) (parts_sample w)
            "PS11752778" "WDT780SAEM1"))
      "PS11752778" "WDT780SAEM1" ++ compatibilityTail /\
  toolsUsed (meta r) = ["toolCheckCompatibility"].
Proof.
  cbv zeta. rewrite handleChatTurn_phases.
  assert (G : gates w (resolveTurn compatibilityQuestion []) compatibilityQuestion [] = Next tt)
    by (vm_compute; reflexivity).
  rewrite G. cbn [andThen].
  assert (F : followUp w (resolveTurn compatibilityQuestion []) compatibilityQuestion [] =
              Next compatibility_check) by (vm_compute; reflexivity).
  rewrite F.
  assert (T : entities (resolveTurn compatibilityQuestion []) =
              {| partNumber := Some "PS11752778"; modelNumber := Some "WDT780SAEM1";
                 hasIncompletePart := false; shortPart := None |})
    by (vm_compute; reflexivity).
  cbn [dispatch]. unfold compatibility. rewrite T. split; reflexivity.
Qed.

(** ** What a turn reads from the world *)

Lemma gates_world (w1 w2 : World) (t : Turn) (m : string) (h : list ChatMessage) :
  (opensTicket m h = true ->
   ticketId (createSupportTicketDemo w1) = ticketId (createSupportTicketDemo w2)) ->
  gates w1 t m h = gates w2 t m h.
Proof.
  intros H. unfold gates. destruct (opensTicket m h).
  - unfold createSupportTicketDemo in *. cbn [ticketId ticket_sources] in *.
    rewrite (H eq_refl). reflexivity.
  - reflexivity.
Qed.

Lemma followUp_world (w1 w2 : World) (t : Turn) (m : string) (h : list ChatMessage) :
  (awaiting t = Some pump_sound -> isClearIntentShift m = false ->
   parsePumpSound m = unknown_sound -> askGroq w1 m = askGroq w2 m) ->
  followUp w1 t m h = followUp w2 t m h.
Proof.
  intros H. unfold followUp.
  destruct (awaiting t) as [[]|]; try reflexivity.
  destruct (isClearIntentShift m); cbn [negb andThen]; [reflexivity|].
  destruct (parsePumpSound m); cbn [PumpSound_eqb]; try reflexivity.
  rewrite (H eq_refl eq_refl eq_refl). reflexivity.
Qed.

Lemma dispatch_world (w1 w2 : World) (t : Turn) (i : Intent) (m : string) :
  parts_sample w1 = parts_sample w2 ->
  compatibility_sample w1 = compatibility_sample w2 ->
  guides_sample w1 = guides_sample w2 ->
  dispatch w1 t i m = dispatch w2 t i m.
Proof.
  intros Hp Hc Hg.
  unfold dispatch, compatibility, installation, partLookup.
  rewrite Hp, Hc, Hg. reflexivity.
Qed.

(** Two worlds with the same sample files give the same response to a
    request, unless the turn opens a ticket with different draws or consults
    the classifier with different answers. *)
Lemma handleChatTurn_world (w1 w2 : World) (m : string) (h : list ChatMessage) :
  parts_sample w1 = parts_sample w2 ->
  compatibility_sample w1 = compatibility_sample w2 ->
  guides_sample w1 = guides_sample w2 ->
  (opensTicket m h = true ->
   ticketId (createSupportTicketDemo w1) = ticketId (createSupportTicketDemo w2)) ->
  (awaiting (resolveTurn m h) = Some pump_sound -> isClearIntentShift m = false ->
   parsePumpSound m = unknown_sound -> askGroq w1 m = askGroq w2 m) ->
  handleChatTurn w1 (turn m h) = handleChatTurn w2 (turn m h).
Proof.
  intros Hp Hc Hg Ht Hq. rewrite !handleChatTurn_phases.
  rewrite (@gates_world w1 w2 _ m h Ht).
  destruct (gates w2 (resolveTurn m h) m h); cbn [andThen]; [reflexivity|].
  rewrite (@followUp_world w1 w2 _ m h Hq).
  destruct (followUp w2 (resolveTurn m h) m h); [reflexivity|].
  apply dispatch_world; assumption.
Qed.

(** ** Determinism *)

(** C7, as stated, fails.  Two calls with the same message and history, in
    worlds that differ only in the draw of [Math.random], open tickets with
    different ids, so the replies differ; and in the pump-sound slot two calls
    differ when the classifier answers in time in one and too late in the
    other. *)
Lemma handleChatTurn_not_idempotent :
  reply (handleChatTurn bareWorld (turn handoffMessage [])) <>
  reply (handleChatTurn (withRandom bareWorld (1 # 4)) (turn handoffMessage [])) /\
  reply (handleChatTurn (hummingWorld 300) (turn rattleMessage pumpHistory)) <>
  reply (handleChatTurn (hummingWorld 1500) (turn rattleMessage pumpHistory)).
Proof. split; vm_compute; discriminate. Qed.

(** C7, amended.  For a fixed message and history and fixed sample data,
    two calls yield the same response (reply, meta and cards) provided that,
    if the turn opens a demo support ticket, [Math.random] draws the same
    ticket id in both, and, if the pump-sound handler consults the classifier
    (slot [pump_sound], no clear shift, local parse unknown), the classifier
    answers the same in both.  The repeat phrasing is a function of the repeat
    count, which is derived from the history. *)
Theorem handleChatTurn_idempotent_up_to_world (w1 w2 : World) (m : string)
    (h : list ChatMessage) :
  parts_sample w1 = parts_sample w2 ->
  compatibility_sample w1 = compatibility_sample w2 ->
  guides_sample w1 = guides_sample w2 ->
  (opensTicket m h = true ->
   ticketId (createSupportTicketDemo w1) = ticketId (createSupportTicketDemo w2)) ->
  (awaiting (resolveTurn m h) = Some pump_sound -> isClearIntentShift m = false ->
   parsePumpSound m = unknown_sound -> askGroq w1 m = askGroq w2 m) ->
  handleChatTurn w1 (turn m h) = handleChatTurn w2 (turn m h) /\
  repeats (resolveTurn m h) = countUserRepeatsExcludingCurrent h m.
Proof.
  intros Hp Hc Hg Ht Hq. split.
  - apply handleChatTurn_world; assumption.
  - reflexivity.
Qed.

Lemma handleChatTurn_idempotent_up_to_world_witness :
  handleChatTurn (hummingWorld 300) (turn rattleMessage pumpHistory) =
  handleChatTurn (withRandom (hummingWorld 300) (1 # 4)) (turn rattleMessage pumpHistory) /\
  repeats (resolveTurn rattleMessage pumpHistory) =
  countUserRepeatsExcludingCurrent pumpHistory rattleMessage.
Proof.
  apply (@handleChatTurn_idempotent_up_to_world (hummingWorld 300)
           (withRandom (hummingWorld 300) (1 # 4)) rattleMessage pumpHistory).
  - reflexivity.
  - reflexivity.
  - reflexivity.
  - vm_compute. discriminate.
  - intros _ _ _. reflexivity.
Defined.

(** ** The external classifier *)

Lemma normalizePumpSound_closed (x : option json) :
  Groq.normalizePumpSound x <> unknown_sound ->
  (Groq.soundText x = "running" /\ Groq.normalizePumpSound x = running) \/
  (Groq.soundText x = "humming" /\ Groq.normalizePumpSound x = humming) \/
  (Groq.soundText x = "silent" /\ Groq.normalizePumpSound x = silent).
Proof.
  unfold Groq.normalizePumpSound.
  destruct (String.eqb_spec (Groq.soundText x) "running"); [auto|].
  destruct (String.eqb_spec (Groq.soundText x) "humming"); [auto|].
  destruct (String.eqb_spec (Groq.soundText x) "silent"); [auto|].
  congruence.
Qed.

Lemma askGroq_withoutCredential (w : World) (m : string) :
  askGroq (withoutCredential w) m = unknown_sound.
Proof. reflexivity. Qed.

(** What the adapter does, for every answer of the network.
    Without a credential it answers [unknown] at once and issues no request.
    With one it issues exactly one request (the other answers of the network
    are left: no retry), and it answers something else than [unknown] only if
    [fetch] settled with a response by the time the 1200 ms timer was due,
    with a success status, a body that parses and a content that parses, and
    the value of [pump_sound] is [running], [humming] or [silent] (after
    [String], lower-casing and trimming); when the timer fires first the answer
    is [unknown], 1200 ms after the call.  In the router, an [unknown] answer
    changes nothing, and a turn outside the pump-sound handler (another slot, a
    clear shift, or a local parse that succeeded) does not depend on the
    classifier. *)
Lemma classifier_fallback (parse : string -> option json) (key0 key : option string)
    (text : string) (p : Pending) (net : list Pending)
    (w : World) (m : string) (h : list ChatMessage) :
  truthy key0 = false ->
  truthy key = true ->
  let call := Groq.groqParsePumpSound parse key text (p :: net) in
  Groq.groqParsePumpSound parse key0 text (p :: net) = (unknown_sound, p :: net) /\
  Groq.returnsAfter key0 (p :: net) = 0%N /\
  snd call = net /\
  Groq.GROQ_TIMEOUT_MS = 1200%N /\
  (fst call <> unknown_sound ->
   exists t resp data obj,
     settlesAfter p = Some t /\ (t <= Groq.GROQ_TIMEOUT_MS)%N /\
     outcome p = Some resp /\ ok resp = true /\ json_body resp = Some data /\
     Groq.safeJsonParse parse (Groq.messageContent data) = Groq.Ok obj /\
     let s := Groq.soundText (Groq.prop (Some obj) "pump_sound") in
     (s = "running" /\ fst call = running) \/
     (s = "humming" /\ fst call = humming) \/
     (s = "silent" /\ fst call = silent)) /\
  (settlesAfter p = None \/
   (exists t, settlesAfter p = Some t /\ (Groq.GROQ_TIMEOUT_MS < t)%N) ->
   fst call = unknown_sound /\ Groq.returnsAfter key (p :: net) = Groq.GROQ_TIMEOUT_MS) /\
  (askGroq w m = unknown_sound ->
   handleChatTurn w (turn m h) = handleChatTurn (withoutCredential w) (turn m h)) /\
  (awaiting (resolveTurn m h) <> Some pump_sound \/ isClearIntentShift m = true \/
   parsePumpSound m <> unknown_sound ->
   handleChatTurn w (turn m h) = handleChatTurn (withoutCredential w) (turn m h)).
Proof.
  intros Hk0 Hk call. subst call.
  unfold Groq.groqParsePumpSound, Groq.returnsAfter. rewrite Hk0, Hk. cbn [negb].
  split; [reflexivity|].
  split; [reflexivity|].
  split.
  { destruct (Groq.withTimeout p Groq.GROQ_TIMEOUT_MS) as [resp|]; [|reflexivity].
    destruct (Groq.classifyResponse parse resp); reflexivity. }
  split; [reflexivity|].
  split.
  { unfold Groq.withTimeout, Groq.classifyResponse.
    destruct (settlesAfter p) as [t|] eqn:Hset; [|cbn; congruence].
    destruct (N.leb_spec t Groq.GROQ_TIMEOUT_MS) as [Lt|]; [|cbn; congruence].
    destruct (outcome p) as [resp|] eqn:Hout; [|cbn; congruence].
    destruct (ok resp) eqn:Hok; cbn [negb]; [|cbn; congruence].
    destruct (json_body resp) as [data|] eqn:Hbody; [|cbn; congruence].
    destruct (Groq.safeJsonParse parse (Groq.messageContent data)) as [obj|] eqn:Hobj;
      [|cbn; congruence].
    cbn [fst]. intros Hv.
    exists t, resp, data, obj. repeat split; try assumption; try reflexivity.
    apply normalizePumpSound_closed. exact Hv. }
  split.
  { unfold Groq.withTimeout. intros [Hn|(t & Ht & Hlate)].
    - rewrite Hn. split; reflexivity.
    - rewrite Ht. destruct (N.leb_spec t Groq.GROQ_TIMEOUT_MS) as [Le|_]; [lia|].
      split; reflexivity. }
  split.
  - intros Hu. apply handleChatTurn_world; try reflexivity.
    intros _ _ _. rewrite Hu. reflexivity.
  - intros Hout. apply handleChatTurn_world; try reflexivity.
    intros Ha Hs Hp. destruct Hout as [H1|[H1|H1]]; congruence.
Qed.

(** The timer covers the head of the response only.  Once [fetch] has
    settled in time, the adapter waits for [json()] however long it takes: the
    answer is the one of a body that comes at once, and it comes when the body
    does. *)
Lemma the_timer_covers_the_head_only (parse : string -> option json) (key : option string)
    (text answer : string) (ms body : N) (net : list Pending) :
  truthy key = true ->
  (ms <= Groq.GROQ_TIMEOUT_MS)%N ->
  Groq.groqParsePumpSound parse key text (answerWithSlowBody ms body answer :: net) =
  Groq.groqParsePumpSound parse key text (answerAfter ms answer :: net) /\
  Groq.returnsAfter key (answerWithSlowBody ms body answer :: net) = (ms + body)%N.
Proof.
  intros Hk Hms. unfold Groq.groqParsePumpSound, Groq.returnsAfter, Groq.withTimeout.
  rewrite Hk. cbn [negb answerWithSlowBody answerAfter settlesAfter outcome ok bodyAfter].
  destruct (N.leb_spec ms Groq.GROQ_TIMEOUT_MS) as [_|Lt]; [|lia].
  split; reflexivity.
Qed.

(** C9. The timeout part of the contract fails on the code.  The response
    arrives after 1000 ms, in time for the timer, and its body 4000 ms later:
    the adapter answers [humming] 5000 ms after the call, well past the
    1200 ms of the timeout, instead of [unknown], and the router uses that
    answer. *)
Theorem late_body_is_not_cut_off :
  let w := slowBodyWorld in
  let r := handleChatTurn w (turn rattleMessage pumpHistory) in
  awaiting (resolveTurn rattleMessage pumpHistory) = Some pump_sound /\
  parsePumpSound rattleMessage = unknown_sound /\
  askGroq w rattleMessage = humming /\
  Groq.returnsAfter (GROQ_API_KEY w) (network w) = 5000%N /\
  (Groq.GROQ_TIMEOUT_MS < Groq.returnsAfter (GROQ_API_KEY w) (network w))%N /\
  reply r = replyPumpSound humming /\
  toolsUsed (meta r) = ["groqParsePumpSound"] /\
  r <> handleChatTurn (withoutCredential w) (turn rattleMessage pumpHistory).
Proof. vm_compute. repeat split; try reflexivity; discriminate. Qed.

(** The answers of the adapter in the example worlds: in time, or at the
    deadline itself, humming; too late, or without credential, unknown; and
    one request at most is taken from the network. *)
Lemma classifier_examples :
  askGroq (hummingWorld 300) rattleMessage = humming /\
  askGroq (hummingWorld 1200) rattleMessage = humming /\
  askGroq (hummingWorld 1201) rattleMessage = unknown_sound /\
  askGroq (hummingWorld 1500) rattleMessage = unknown_sound /\
  askGroq (withoutCredential (hummingWorld 300)) rattleMessage = unknown_sound /\
  Groq.groqParsePumpSound (JSON_parse (hummingWorld 300)) (Some "gsk_demo") rattleMessage
    [answerAfter 1500 hummingJson; answerAfter 300 hummingJson] =
    (unknown_sound, [answerAfter 300 hummingJson]).
Proof. vm_compute. repeat split; reflexivity. Qed.

(** ** Soundness of the matcher *)

Lemma iterate_sound (ci : bool) (r0 : regex) (lo : nat) (hi : option nat) (k : cursor -> option cursor)
    (e : cursor) :
  (forall k' c, run ci r0 k' c = Some e -> exists c', Den ci r0 c c' /\ k' c' = Some e) ->
  forall fuel n c,
    (forall h, hi = Some h -> n <= h) ->
    iterate (run ci r0) lo hi k fuel n c = Some e ->
    exists j c', Pow (Den ci r0) j c c' /\ lo <= n + j /\
                 (forall h, hi = Some h -> n + j <= h) /\ k c' = Some e.
Proof.
  intros IH. induction fuel as [|fuel IHf]; intros n c Hn H; cbn [iterate] in H.
  - destruct (Nat.leb_spec lo n); [|discriminate].
    exists 0, c. rewrite Nat.add_0_r. cbn. auto.
  - assert (Stop : (if lo <=? n then k c else None) = Some e ->
             exists j c', Pow (Den ci r0) j c c' /\ lo <= n + j /\
                          (forall h, hi = Some h -> n + j <= h) /\ k c' = Some e).
    { intros Hs. destruct (Nat.leb_spec lo n); [|discriminate].
      exists 0, c. rewrite Nat.add_0_r. cbn. auto. }
    destruct (below n hi) eqn:Hb; [|auto].
    match type of H with
    | match ?x with _ => _ end = _ => destruct x as [e'|] eqn:Hbody; [|auto]
    end.
    injection H as ->.
    apply IH in Hbody. destruct Hbody as (mid & Hd & Hk).
    destruct (Nat.ltb_spec (String.length (rest mid)) (String.length (rest c))) as [Lt|];
      [|discriminate].
    apply IHf in Hk.
    + destruct Hk as (j & c' & Hp & Hlo & Hhi & Hk).
      exists (S j), c'. cbn [Pow]. repeat split.
      * exists mid. auto.
      * lia.
      * intros h Eh. specialize (Hhi h Eh). lia.
      * exact Hk.
    + intros h Eh. subst hi. cbn in Hb. apply Nat.ltb_lt in Hb. lia.
Qed.

Lemma run_sound (ci : bool) (r : regex) :
  forall k c e, run ci r k c = Some e -> exists c', Den ci r c c' /\ k c' = Some e.
Proof.
  induction r as [cls| |r1 IH1 r2 IH2|r1 IH1 r2 IH2|lo hi r0 IH0| | | |g r0 IH0];
    intros k c e H; cbn [run] in H; cbn [Den].
  - destruct (rest c) as [|a s'] eqn:Hr; [discriminate|].
    destruct (accepts ci cls a) eqn:Ha; [|discriminate].
    exists (step a s' c). split; [exists a, s'; auto | exact H].
  - exists c. auto.
  - apply IH1 in H. destruct H as (mid & H1 & H).
    apply IH2 in H. destruct H as (c' & H2 & H).
    exists c'. split; [exists mid; auto | exact H].
  - destruct (run ci r1 k c) as [e'|] eqn:H1.
    + injection H as ->. apply IH1 in H1. destruct H1 as (c' & H1 & Hk). exists c'. auto.
    + apply IH2 in H. destruct H as (c' & H2 & Hk). exists c'. auto.
  - apply (@iterate_sound ci r0 lo hi k e (fun k' c' => IH0 k' c' e)) in H.
    + destruct H as (j & c' & Hp & Hlo & Hhi & Hk). exists c'. split; [|exact Hk].
      exists j. auto.
    + intros h _. lia.
  - destruct (boundary c) eqn:Hb; [|discriminate]. exists c. auto.
  - destruct (before c) eqn:Hb; [discriminate|]. exists c. auto.
  - destruct (rest c) eqn:Hr; [|discriminate]. exists c. auto.
  - apply IH0 in H. destruct H as (c' & H0 & Hk).
    exists (set_group g (consumed c c') c'). split; [exists c'; auto | exact Hk].
Qed.

(** A match found by the scan starts after some prefix of the subject and is
    a match of the pattern there. *)
Lemma scan_sound (ci : bool) (r : regex) (s : string) :
  forall prev i m,
    scan ci r prev s i = Some m ->
    exists pre post,
      s = pre ++ post /\
      let c := {| before := last_char prev pre; rest := post; groups := [] |} in
      Den ci r c (m_end m) /\ m_0 m = consumed c (m_end m) /\
      m_groups m = groups (m_end m) /\ m_index m = i + String.length pre.
Proof.
  induction s as [|a s IH]; intros prev i m H; cbn [scan] in H.
  - destruct (run ci r (fun e => Some e) _) as [e|] eqn:Hrun; [|discriminate].
    injection H as <-. apply run_sound in Hrun. destruct Hrun as (c' & Hd & Hk).
    injection Hk as ->.
    exists "", "". cbn. rewrite Nat.add_0_r. auto.
  - destruct (run ci r (fun e => Some e) _) as [e|] eqn:Hrun.
    + injection H as <-. apply run_sound in Hrun. destruct Hrun as (c' & Hd & Hk).
      injection Hk as ->.
      exists "", (String a s). cbn. rewrite Nat.add_0_r. auto.
    + apply IH in H. destruct H as (pre & post & Hs & Hd & H0 & Hg & Hi).
      exists (String a pre), post. cbn. subst s. repeat split; auto. lia.
Qed.

(** ** The shape of a part-number match *)

Lemma accepts_digit (ci : bool) (a : ascii) : accepts ci is_digit a = is_digit a.
Proof.
  destruct ci; [|reflexivity].
  destruct a as [[] [] [] [] [] [] [] []]; vm_compute; reflexivity.
Qed.

Lemma substring_prefix (x y : string) : substring 0 (String.length x) (x ++ y) = x.
Proof.
  induction x as [|a x IH]; cbn.
  - destruct y; reflexivity.
  - now rewrite IH.
Qed.

Lemma length_append (x y : string) :
  String.length (x ++ y) = String.length x + String.length y.
Proof. induction x as [|a x IH]; cbn; [reflexivity | now rewrite IH]. Qed.

Lemma append_assoc (x y z : string) : (x ++ y) ++ z = x ++ (y ++ z).
Proof. induction x as [|a x IH]; cbn; [reflexivity | now rewrite IH]. Qed.

Lemma last_char_append (prev : option ascii) (x y : string) :
  last_char prev (x ++ y) = last_char (last_char prev x) y.
Proof. revert prev. induction x as [|a x IH]; intros prev; cbn; [reflexivity | apply IH]. Qed.

(** A run of digit iterations reads a string of digits. *)
Lemma Pow_digits (ci : bool) (n : nat) :
  forall c c',
    Pow (Den ci digit) n c c' ->
    exists ds,
      String.length ds = n /\ all_digits ds = true /\ rest c = ds ++ rest c' /\
      before c' = last_char (before c) ds /\ groups c' = groups c.
Proof.
  induction n as [|n IH]; intros c c' H; cbn [Pow] in H.
  - subst c'. exists "". cbn. auto.
  - destruct H as (mid & Hd & _ & Hp). cbn [Den digit] in Hd.
    destruct Hd as (a & s' & Hr & Ha & ->). rewrite accepts_digit in Ha.
    apply IH in Hp. destruct Hp as (ds & Hl & Hall & Hrest & Hb & Hg).
    cbn [step rest before groups] in *.
    exists (String a ds). cbn. rewrite Hl, Ha, Hall, Hr, Hrest. auto.
Qed.

Lemma all_digits_last (prev : option ascii) (ds : string) :
  all_digits ds = true -> 0 < String.length ds ->
  exists a, last_char prev ds = Some a /\ is_digit a = true.
Proof.
  revert prev. induction ds as [|a ds IH]; intros prev Hall Hl; cbn in *; [lia|].
  apply andb_true_iff in Hall. destruct Hall as [Ha Hall].
  destruct ds as [|b ds].
  - exists a. auto.
  - apply (IH (Some a) Hall). cbn. lia.
Qed.

(** What a match of [\bPS\d{lo,hi}\b] is: a token PS + digits, between two
    places where no word character touches it. *)
Lemma ps_token_sound (lo hi : nat) (up : string) (m : rmatch) :
  0 < lo ->
  exec false (PS_TOKEN_RE lo hi) up = Some m ->
  exists pre ds post,
    up = pre ++ ("PS" ++ ds) ++ post /\ m_0 m = "PS" ++ ds /\
    all_digits ds = true /\ lo <= String.length ds <= hi /\
    ends_with_word pre = false /\ starts_with_word post = false.
Proof.
  intros Hlo H. apply scan_sound in H.
  destruct H as (pre & post0 & Hup & Hd & H0 & _ & _).
  cbn [PS_TOKEN_RE Den lit] in Hd.
  destruct Hd as (c1 & (Hb1 & ->) & c2 & (c3 & (a1 & s1 & Hr1 & Ha1 & ->) &
                   c4 & (a2 & s2 & Hr2 & Ha2 & ->) & ->) &
                   c5 & (n & Hn1 & Hn2 & Hp) & (Hb5 & He)).
  rewrite He in H0. clear He.
  cbn [rest step accepts] in *.
  apply Ascii.eqb_eq in Ha1, Ha2. subst a1 a2.
  apply Pow_digits in Hp. destruct Hp as (ds & Hl & Hall & Hrest & Hbef & _).
  cbn [rest step before] in *.
  specialize (Hn2 hi eq_refl).
  exists pre, ds, (rest c5). subst post0 s1 s2.
  assert (Hc : consumed {| before := last_char None pre;
                           rest := String "P" (String "S" (ds ++ rest c5));
                           groups := [] |} c5 = "PS" ++ ds).
  { unfold consumed. cbn [rest].
    change (String "P" (String "S" (ds ++ rest c5))) with (("PS" ++ ds) ++ rest c5).
    rewrite length_append.
    replace (String.length ("PS" ++ ds) + String.length (rest c5) - String.length (rest c5))
      with (String.length ("PS" ++ ds)) by lia.
    apply substring_prefix. }
  rewrite Hc in H0.
  repeat split; try assumption; try lia.
  - unfold boundary, word_before, word_after in Hb1. cbn [before rest] in Hb1.
    unfold ends_with_word. destruct (last_char None pre); [|reflexivity].
    change (is_word "P") with true in Hb1. destruct (is_word a); [discriminate|reflexivity].
  - unfold boundary, word_before, word_after in Hb5. rewrite Hbef in Hb5.
    destruct (@all_digits_last (Some "S"%char) ds Hall ltac:(lia)) as (a & Hlast & Ha).
    rewrite Hlast in Hb5. rewrite (proj1 (is_digit_facts a Ha)) in Hb5.
    unfold starts_with_word. destruct (rest c5); [reflexivity|].
    destruct (is_word a0); [discriminate|reflexivity].
Qed.

(** ** Part-number token discipline *)

Lemma extractPartNumber_only_tokens (text v : string) :
  extractPartNumber text = Some v ->
  exists pre ds post,
    toUpperCase text = pre ++ v ++ post /\ v = "PS" ++ ds /\
    all_digits ds = true /\ 5 <= String.length ds <= 10 /\
    ends_with_word pre = false /\ starts_with_word post = false.
Proof.
  unfold extractPartNumber, match0. intros H.
  destruct (exec false PS_FULL_RE (toUpperCase text)) as [m|] eqn:Hm; [|discriminate].
  injection H as <-.
  apply (@ps_token_sound 5 10) in Hm; [|lia].
  destruct Hm as (pre & ds & post & Hup & H0 & Hall & Hl & Hb & Ha).
  exists pre, ds, post. rewrite H0. repeat split; try assumption; lia.
Qed.



Lemma prefix_append (x y : string) : prefix x (x ++ y) = true.
Proof.
  induction x as [|a x IH]; cbn; [destruct y; reflexivity|].
  destruct (ascii_dec a a); [exact IH | congruence].
Qed.

Lemma includes_middle (pre x post : string) : includes (pre ++ x ++ post) x = true.
Proof.
  induction pre as [|a pre IH].
  - cbn [append]. destruct (x ++ post) eqn:E; cbn [includes]; rewrite <- ?E;
      rewrite prefix_append; reflexivity.
  - cbn [append includes]. rewrite IH. apply orb_true_r.
Qed.



Lemma prefix_cons (a b : ascii) (x y : string) :
  prefix (String a x) (String b y) = (a =? b)%char && prefix x y.
Proof.
  cbn [prefix]. destruct (ascii_dec a b) as [->|N].
  - now rewrite Ascii.eqb_refl.
  - apply Ascii.eqb_neq in N. now rewrite N.
Qed.








(** ** The link fallback has no token boundaries *)

Lemma toUpperCase_append (x y : string) :
  toUpperCase (x ++ y) = toUpperCase x ++ toUpperCase y.
Proof.
  unfold toUpperCase. induction x as [|a x IH]; cbn; [reflexivity | now rewrite IH].
Qed.

Lemma toUpperCase_length (x : string) : String.length (toUpperCase x) = String.length x.
Proof.
  unfold toUpperCase. induction x as [|a x IH]; cbn; [reflexivity | now rewrite IH].
Qed.

Lemma toUpperCase_digits (ds : string) : all_digits ds = true -> toUpperCase ds = ds.
Proof.
  unfold toUpperCase. induction ds as [|a ds IH]; cbn; [reflexivity|].
  intros H. apply andb_true_iff in H. destruct H as [Ha H].
  destruct (is_digit_facts a Ha) as (_ & -> & _). now rewrite IH.
Qed.

Lemma upper_digit (a : ascii) : is_digit (toUpperChar a) = true -> is_digit a = true.
Proof. destruct a as [[] [] [] [] [] [] [] []]; vm_compute; congruence. Qed.

Lemma accepts_P (a : ascii) :
  accepts true (Ascii.eqb "P") a = true -> (toUpperChar a =? "P")%char = true.
Proof. destruct a as [[] [] [] [] [] [] [] []]; vm_compute; congruence. Qed.

Lemma accepts_S (a : ascii) :
  accepts true (Ascii.eqb "S") a = true -> (toUpperChar a =? "S")%char = true.
Proof. destruct a as [[] [] [] [] [] [] [] []]; vm_compute; congruence. Qed.

(** Strings that agree in length split alike. *)
Lemma append_inj_length (x : string) :
  forall x' y y', x ++ y = x' ++ y' -> String.length x = String.length x' ->
                  x = x' /\ y = y'.
Proof.
  induction x as [|a x IH]; intros [|a' x'] y y' E L; cbn in *; try lia; auto.
  injection E as -> E. destruct (IH x' y y' E) as [-> ->]; [lia | auto].
Qed.

(** A split of the upper-cased text is the upper-casing of a split of the
    text. *)
Lemma toUpperCase_split (a : string) :
  forall t b, toUpperCase t = a ++ b ->
              exists x y, t = x ++ y /\ toUpperCase x = a /\ toUpperCase y = b.
Proof.
  induction a as [|c a IH]; intros t b E.
  - exists "", t. auto.
  - destruct t as [|d t]; [discriminate|]. cbn in E. injection E as Ec E.
    destruct (IH t b E) as (x & y & -> & Hx & Hy).
    exists (String d x), y. cbn. fold (toUpperCase x). rewrite Hx, Ec. auto.
Qed.

(** Digits at the start of the upper-cased text are digits of the text. *)
Lemma digits_under_upper (n : nat) :
  forall r ds z, toUpperCase r = ds ++ z -> all_digits ds = true -> n <= String.length ds ->
                 all_digits (substring 0 n r) = true.
Proof.
  induction n as [|n IH]; intros r ds z E Hall Hn.
  - destruct r; reflexivity.
  - destruct ds as [|d ds]; cbn in Hn; [lia|].
    destruct r as [|c r]; [discriminate|]. cbn in E. injection E as Ec E.
    cbn in Hall. apply andb_true_iff in Hall. destruct Hall as [Hd Hall].
    cbn. rewrite (upper_digit c) by now rewrite Ec.
    apply (@IH r ds z E Hall). lia.
Qed.

Lemma upper_starts_ps5 (y ds z : string) :
  toUpperCase y = "PS" ++ ds ++ z -> all_digits ds = true -> 5 <= String.length ds ->
  starts_ps5 y = true.
Proof.
  intros E Hall Hl.
  destruct y as [|p [|q r]]; try discriminate. cbn in E. injection E as Ep Eq E.
  unfold starts_ps5. rewrite Ep, Eq. cbn [Ascii.eqb Bool.eqb andb].
  rewrite (@digits_under_upper 5 r ds z E Hall Hl), andb_true_r.
  apply Nat.leb_le. fold (toUpperCase r) in E.
  rewrite <- (toUpperCase_length r), E, length_append. lia.
Qed.

(** Every place where PS and five digits start is listed. *)
Lemma ps5_starts_complete (x : string) :
  forall i y, starts_ps5 y = true -> In (i + String.length x) (ps5_starts i (x ++ y)).
Proof.
  induction x as [|a x IH]; intros i y H.
  - cbn [append String.length]. rewrite Nat.add_0_r.
    destruct y; cbn [ps5_starts]; rewrite H; apply in_or_app; left; left; reflexivity.
  - cbn [append String.length ps5_starts]. apply in_or_app. right.
    replace (i + S (String.length x)) with (S i + String.length x) by lia.
    apply IH. exact H.
Qed.

(** After fewer digits than a run has, the next character is a digit. *)
Lemma digit_follows (ds' : string) :
  forall ds z post',
    all_digits ds = true -> String.length ds' < String.length ds ->
    ds' ++ post' = ds ++ z -> starts_with_word post' = true.
Proof.
  induction ds' as [|a ds' IH]; intros ds z post' Hall Hl E.
  - destruct ds as [|d ds]; cbn in Hl; [lia|]. cbn in E. subst post'.
    cbn in Hall. apply andb_true_iff in Hall. destruct Hall as [Hd _].
    cbn. apply (is_digit_facts d Hd).
  - destruct ds as [|d ds]; cbn in Hl; [lia|]. cbn in E. injection E as _ E.
    cbn in Hall. apply andb_true_iff in Hall. destruct Hall as [_ Hall].
    apply (@IH ds z post' Hall); [lia | exact E].
Qed.

Lemma all_digits_prefix (n : nat) :
  forall ds z, all_digits ds = true -> n <= String.length ds ->
               all_digits (substring 0 n (ds ++ z)) = true.
Proof.
  induction n as [|n IH]; intros ds z Hall Hn.
  - destruct (ds ++ z); reflexivity.
  - destruct ds as [|d ds]; cbn in Hn; [lia|].
    cbn in Hall. apply andb_true_iff in Hall. destruct Hall as [Hd Hall].
    cbn. rewrite Hd. apply IH; [exact Hall | lia].
Qed.

(** The link pattern matches only where PS and five digits start. *)
Lemma link_pattern_needs_ps5 (k : cursor -> option cursor) (c e : cursor) :
  run true PS_IN_URL_RE k c = Some e -> starts_ps5 (rest c) = true.
Proof.
  intros H. apply run_sound in H. destruct H as (c' & Hd & _).
  cbn [PS_IN_URL_RE Den lit] in Hd.
  destruct Hd as (c1 & (c2 & (c3 & (p & s1 & Hr1 & Hp & ->) &
                   c4 & (q & s2 & Hr2 & Hq & ->) & ->) &
                   (n & Hn & _ & Hpow)) & _).
  cbn [rest step] in *.
  apply Pow_digits in Hpow. destruct Hpow as (ds & Hl & Hall & Hrest & _).
  cbn [rest step] in Hrest. subst s1 s2.
  rewrite Hr1. unfold starts_ps5.
  rewrite (accepts_P p Hp), (accepts_S q Hq). cbn [andb].
  rewrite (@all_digits_prefix 5 ds (rest c1) Hall) by lia. rewrite andb_true_r.
  apply Nat.leb_le. rewrite length_append. lia.
Qed.

(** The scan finds nothing in a stretch where PS and five digits start
    nowhere. *)
Lemma scan_skips_ps5_free (x : string) :
  forall prev i tail,
    (forall x1 x2, x = x1 ++ x2 -> x2 <> "" -> starts_ps5 (x2 ++ tail) = false) ->
    scan true PS_IN_URL_RE prev (x ++ tail) i =
    scan true PS_IN_URL_RE (last_char prev x) tail (i + String.length x).
Proof.
  induction x as [|a x IH]; intros prev i tail H.
  - cbn [append last_char String.length]. now rewrite Nat.add_0_r.
  - cbn [append scan].
    destruct (run true PS_IN_URL_RE (fun e => Some e)
                {| before := prev; rest := String a (x ++ tail); groups := [] |})
      as [e|] eqn:Hrun.
    + apply link_pattern_needs_ps5 in Hrun. cbn [rest] in Hrun.
      pose proof (H "" (String a x) eq_refl ltac:(discriminate)) as Hf.
      cbn [append] in Hf. congruence.
    + rewrite (IH (Some a) (S i) tail).
      * cbn [last_char String.length].
        replace (i + S (String.length x)) with (S i + String.length x) by lia. reflexivity.
      * intros x1 x2 E. apply (H (String a x1) x2). cbn. now rewrite E.
Qed.

Lemma run_digit (ci : bool) (k : cursor -> option cursor) (c : cursor) (a : ascii)
    (s' : string) :
  rest c = String a s' -> is_digit a = true -> run ci digit k c = k (step a s' c).
Proof. intros Hr Ha. cbn [run digit]. now rewrite Hr, accepts_digit, Ha. Qed.

(** A greedy loop over digits takes all the digits it is allowed. *)
Lemma iterate_takes_digits (ci : bool) (lo hi : nat) (k : cursor -> option cursor)
    (e : cursor) (ds : string) :
  forall tail fuel n c,
    all_digits ds = true -> rest c = ds ++ tail ->
    n + String.length ds = hi -> String.length ds <= fuel -> lo <= hi ->
    k (advance c ds tail) = Some e ->
    iterate (run ci digit) lo (Some hi) k fuel n c = Some e.
Proof.
  induction ds as [|a ds IH]; intros tail fuel n c Hall Hr Hn Hf Hlo Hk.
  - cbn in Hn, Hr. rewrite Nat.add_0_r in Hn. subst n.
    assert (Ec : advance c "" tail = c) by (destruct c; cbn in *; now subst).
    rewrite Ec in Hk.
    destruct fuel; cbn [iterate below]; rewrite ?Nat.ltb_irrefl;
      destruct (Nat.leb_spec lo hi); try lia; exact Hk.
  - cbn in Hall. apply andb_true_iff in Hall. destruct Hall as [Ha Hall].
    cbn in Hn, Hf. destruct fuel as [|fuel]; [lia|].
    cbn [iterate below]. destruct (Nat.ltb_spec n hi); [|lia].
    rewrite (@run_digit ci _ c a (ds ++ tail) Hr Ha).
    cbn [step rest]. rewrite Hr. cbn [append String.length].
    destruct (Nat.ltb_spec (String.length (ds ++ tail)) (S (String.length (ds ++ tail))));
      [|lia].
    rewrite (IH tail fuel (S n) (step a (ds ++ tail) c)); auto; try lia.
Qed.

Lemma scan_hit (ci : bool) (r : regex) (prev : option ascii) (s : string) (i : nat)
    (e : cursor) :
  let c := {| before := prev; rest := s; groups := [] |} in
  run ci r (fun e => Some e) c = Some e ->
  scan ci r prev s i =
  Some {| m_index := i; m_0 := consumed c e; m_groups := groups e; m_end := e |}.
Proof. intros c H. destruct s; cbn [scan]; fold c; rewrite H; reflexivity. Qed.

Lemma length_substring_0 (n : nat) :
  forall s, n <= String.length s -> String.length (substring 0 n s) = n.
Proof.
  induction n as [|n IH]; intros s H.
  - destruct s; reflexivity.
  - destruct s as [|a s]; cbn in H; [lia|]. cbn. rewrite IH; [reflexivity | lia].
Qed.

Lemma part_number_is_clear_shift (text : string) :
  truthy (extractPartNumberFromLinkOrText text) = true -> isClearIntentShift text = true.
Proof.
  intros H. unfold isClearIntentShift.
  destruct (String.eqb_spec text "") as [->|_]; [vm_compute in H; discriminate|].
  destruct (wantsHuman text || wantsAlternatives text); [reflexivity|].
  destruct (truthy (extractEmail text)); [reflexivity|].
  destruct (truthy (extractOrderId text) || truthy (extractZip text)); [reflexivity|].
  now rewrite H.
Qed.

(** ** Re-asking on an unparseable answer *)

(** What a slot's block answers when its parser fails and the message is no
    clear shift: the re-ask of the slot. *)
Lemma followUp_reasks (w : World) (t : Turn) (m : string) (h : list ChatMessage) (s : Slot) :
  awaiting t = Some s ->
  isClearIntentShift m = false ->
  unparsed s (askGroq w m) m h = true ->
  followUp w t m h = Return (say (reask s) (withIntent (metaBase t) (lane s))).
Proof.
  intros Ha Hs Hu. unfold followUp. rewrite Ha, Hs.
  destruct s; cbn [unparsed] in Hu; cbn [negb andThen returnIf reask lane].
  - (* pump_sound *)
    apply andb_true_iff in Hu. destruct Hu as [Hp Hl].
    destruct (parsePumpSound m); try discriminate Hp. cbn [PumpSound_eqb].
    destruct (askGroq w m); try discriminate Hl. reflexivity.
  - destruct (parseDrainSpeed m); [discriminate|]. reflexivity.
  - destruct (parseDrainHoseSetup m); try discriminate. reflexivity.
  - destruct (parseSinkConnectionType m); try discriminate. reflexivity.
  - destruct (parseYesNo m); [discriminate|]. reflexivity.
  - destruct (parseYesNo m); [discriminate|]. reflexivity.
  - destruct (parseYesNo m); [discriminate|]. reflexivity.
  - destruct (parseYesNo m); [discriminate|]. reflexivity.
  - destruct (parseChoice m); [discriminate|]. reflexivity.
  - destruct (detectInstallStepFollowup h m); [discriminate|]. reflexivity.
  - destruct (parseClampType m); [discriminate|]. reflexivity.
  - destruct (parsePanelFastener m); [discriminate|]. reflexivity.
  - destruct (parseLatchSide m); [discriminate|].
    destruct (parseYesNo m); [discriminate|]. reflexivity.
  - destruct ask; cbn [unparsed] in Hu; rewrite Hu; reflexivity.
  - destruct (parseYesNo m); [discriminate|]. reflexivity.
  - destruct (parseYesNo m); [discriminate|]. reflexivity.
  - destruct (parseMovingOrStuck m); try discriminate. reflexivity.
Qed.

(** Which re-asks the rule table recognizes as their own slot: all but
    three.  The re-ask of [connector_latch_side] and the re-ask of [choice]
    match no rule; the re-ask of [drain_hose_setup] matches the rule of
    [sink_connection_type]. *)
Lemma reask_recognition :
  (forall s,
     s <> connector_latch_side -> s <> drain_hose_setup -> (forall o, s <> choice o) ->
     slotAfterReask s = Some s) /\
  slotAfterReask connector_latch_side = None /\
  slotAfterReask drain_hose_setup = Some sink_connection_type /\
  (forall o, slotAfterReask (choice o) = None).
Proof.
  split; [|repeat split; intros; vm_compute; reflexivity].
  intros s H1 H2 H3.
  destruct s as [| | | | | | | |o| | | | |[]| | |];
    try congruence; try (vm_compute; reflexivity).
Qed.

(** C3. The re-ask of the latch slot is not recognized.  The history ends
    with the connector help ("Do you see a latch on the top or side?"), so the
    slot is [connector_latch_side]; "not sure" is no clear shift and parses
    neither as a side nor as yes or no.  The router answers "Is the latch on the
    top, or on the side?", which is not the question it had asked and which no
    rule of the slot table matches: on the history extended with this turn the
    reconstructed slot is none, and the answer "top" that follows is met with
    the home reply instead of the latch help. *)
Theorem latch_reask_loses_the_slot (w : World) :
  let h := connectorHistory in
  let r := handleChatTurn w (turn notSure h) in
  let h' := (h ++ [mkMsg user notSure; mkMsg assistant (reply r)])%list in
  inferDialogState h = Some connector_latch_side /\
  awaiting (resolveTurn notSure h) = Some connector_latch_side /\
  isClearIntentShift notSure = false /\
  parseLatchSide notSure = None /\ parseYesNo notSure = None /\
  reply r = "Is the latch on the top, or on the side?" /\
  includes (replyInstallStepHelp step_connector) (reply r) = false /\
  inferDialogState h' = None /\
  reply (handleChatTurn w (turn "top" h')) = replyHome /\
  reply (handleChatTurn w (turn "top" h)) = replyConnectorLatchHelp top.
Proof.
  assert (E : handleChatTurn w (turn notSure connectorHistory) =
              say (reask connector_latch_side)
                  (withIntent (metaBase (resolveTurn notSure connectorHistory))
                              installation_help)).
  { rewrite handleChatTurn_phases.
    assert (G : gates w (resolveTurn notSure connectorHistory) notSure connectorHistory =
                Next tt) by (vm_compute; reflexivity).
    rewrite G. cbn [andThen].
    rewrite (@followUp_reasks w _ notSure connectorHistory connector_latch_side);
      [reflexivity | vm_compute; reflexivity ..]. }
  cbv zeta. rewrite E. cbn [reply say reask].
  repeat split; try (vm_compute; reflexivity).
Qed.


(* ===================================================================== *)
(** * Part III. Further properties *)
(* ===================================================================== *)

(** ** The history *)

Lemma lastAssistant_app (h1 h2 : list ChatMessage) :
  lastAssistant (h1 ++ h2) =
  match lastAssistant h2 with Some a => Some a | None => lastAssistant h1 end.
Proof.
  induction h1 as [|m h1 IH]; cbn [app lastAssistant].
  - destruct (lastAssistant h2); reflexivity.
  - rewrite IH. destruct (lastAssistant h2); reflexivity.
Qed.

Lemma last_map_Some_app {A} (l : list A) (x : A) :
  last (map Some (l ++ [x])) None = Some x.
Proof. rewrite map_app. cbn [map]. apply last_last. Qed.

Lemma last_map_Some_cons {A} (x : A) (l : list A) :
  last (map Some (x :: l)) None =
  match last (map Some l) None with Some a => Some a | None => Some x end.
Proof.
  revert x. induction l as [|y l IH]; intros x; [reflexivity|].
  change (last (map Some (x :: y :: l)) None) with (last (map Some (y :: l)) None).
  rewrite (IH y). destruct (last (map Some l) None); reflexivity.
Qed.

Lemma lastAssistant_users (us : list string) :
  lastAssistant (map (mkMsg user) us) = None.
Proof. induction us as [|u us IH]; cbn; [reflexivity | now rewrite IH]. Qed.

(** X1. [lastAssistant] returns the most recent assistant turn: the last
    element of the history restricted to the assistant's turns, nothing when
    there is none; a turn appended to the history replaces it exactly when it is
    an assistant turn. *)
Theorem lastAssistant_latest (h : list ChatMessage) (m : ChatMessage) :
  lastAssistant h =
    last (map Some (filter (fun x => Role_eqb (role x) assistant) h)) None /\
  lastAssistant (h ++ [m]) =
    (if Role_eqb (role m) assistant then Some m else lastAssistant h).
Proof.
  split.
  - induction h as [|x h IH]; [reflexivity|].
    cbn [lastAssistant filter]. rewrite IH.
    destruct (Role_eqb (role x) assistant).
    + rewrite last_map_Some_cons. reflexivity.
    + destruct (last _ None); reflexivity.
  - rewrite lastAssistant_app. cbn [lastAssistant].
    destruct (Role_eqb (role m) assistant); reflexivity.
Qed.

Lemma lastAssistant_then_users (h : list ChatMessage) (a : string) (us : list string) :
  lastAssistant (h ++ mkMsg assistant a :: map (mkMsg user) us) = Some (mkMsg assistant a).
Proof.
  rewrite lastAssistant_app. cbn [lastAssistant]. rewrite lastAssistant_users. reflexivity.
Qed.

(** X2. The dialog state is read from the last assistant turn alone.
    Whatever came before it and however many user turns follow it, the slot is
    the one the rule table gives for its lower-cased text, and the pending
    handoff and the install-step detection are those of a history that holds
    this one turn; a history of user turns only has no slot and no pending
    handoff. *)
Theorem state_is_read_from_last_assistant_turn (h : list ChatMessage) (a u : string)
    (us : list string) :
  let h' := (h ++ mkMsg assistant a :: map (mkMsg user) us)%list in
  inferDialogState h' = slotOfAssistantText (toLowerCase a) /\
  handoffPending h' = handoffPending [mkMsg assistant a] /\
  detectInstallStepFollowup h' u = detectInstallStepFollowup [mkMsg assistant a] u /\
  inferDialogState (map (mkMsg user) us) = None /\
  handoffPending (map (mkMsg user) us) = false.
Proof.
  cbv zeta. unfold inferDialogState, handoffPending, detectInstallStepFollowup.
  rewrite lastAssistant_then_users, lastAssistant_users.
  cbn [lastAssistant role Role_eqb option_map orElse content].
  repeat split; reflexivity.
Qed.

Lemma firstn_app_exact {A} (l : list A) (x : A) :
  firstn (List.length (l ++ [x]) - 1) (l ++ [x]) = l.
Proof.
  rewrite length_app. cbn [List.length].
  replace (List.length l + 1 - 1) with (List.length l + 0) by lia.
  rewrite firstn_app_2. cbn. apply app_nil_r.
Qed.

(** X3. The repeat count ignores the echo of the current message.  When
    the history ends with the current message (as a front end that appends it
    before sending does), or with an assistant turn, the count is the number of
    earlier user turns that equal the message after normalization; in general
    it is that number, less one at most. *)
Theorem countUserRepeats_excludes_the_echo (h : list ChatMessage) (m a : string) :
  countUserRepeatsExcludingCurrent (h ++ [mkMsg user m]) m = occurrences h m /\
  countUserRepeatsExcludingCurrent (h ++ [mkMsg assistant a]) m = occurrences h m /\
  countUserRepeatsExcludingCurrent [] m = 0 /\
  occurrences h m <= countUserRepeatsExcludingCurrent h m + 1 /\
  countUserRepeatsExcludingCurrent h m <= occurrences h m.
Proof.
  unfold countUserRepeatsExcludingCurrent, occurrences, sameRequest.
  split; [|split; [|split; [|split]]].
  - rewrite last_map_Some_app. cbn [role content Role_eqb andb].
    rewrite String.eqb_refl. rewrite firstn_app_exact. reflexivity.
  - rewrite last_map_Some_app. cbn [role content Role_eqb andb].
    rewrite firstn_all. rewrite filter_app, length_app. cbn. lia.
  - reflexivity.
  - destruct h as [|x h] using rev_ind; [cbn; lia|].
    rewrite last_map_Some_app.
    destruct (Role_eqb (role x) user && (norm (content x) === norm m)) eqn:E.
    + rewrite firstn_app_exact, filter_app, length_app. cbn [filter]. rewrite E. cbn. lia.
    + rewrite firstn_all. lia.
  - destruct h as [|x h] using rev_ind; [cbn; lia|].
    rewrite last_map_Some_app.
    destruct (Role_eqb (role x) user && (norm (content x) === norm m)) eqn:E.
    + rewrite firstn_app_exact, filter_app, length_app. lia.
    + rewrite firstn_all. lia.
Qed.

(** X4. [lastN] returns the tail of the history: the history is some older
    turns followed by it, and it has [n] turns, or all of them when there are
    fewer.  [lastNUser] with a positive [n] is [lastN] of the user's turns, and
    holds user turns only. *)
Theorem lastN_is_the_tail (h : list ChatMessage) (n : nat) :
  (exists older, h = older ++ lastN h n)%list /\
  List.length (lastN h n) = Nat.min n (List.length h) /\
  lastNUser h (S n) = lastN (filter (fun m => Role_eqb (role m) user) h) (S n) /\
  forallb (fun m => Role_eqb (role m) user) (lastNUser h n) = true.
Proof.
  unfold lastN, lastNUser, slice_last. rewrite !Nat.max_0_l.
  split; [|split; [|split]].
  - exists (firstn (List.length h - n) h). symmetry. apply firstn_skipn.
  - rewrite length_skipn. lia.
  - reflexivity.
  - apply forallb_forall. intros x Hx.
    assert (Hin : In x (filter (fun m => Role_eqb (role m) user) h)).
    { destruct n as [|n]; [exact Hx|].
      rewrite <- (firstn_skipn (List.length (filter (fun m => Role_eqb (role m) user) h) - S n)).
      apply in_or_app. right. exact Hx. }
    apply filter_In in Hin. apply Hin.
Qed.

(** ** What the matcher reads *)

Lemma append_empty_r (s : string) : s ++ "" = s.
Proof. induction s as [|a s IH]; cbn; [reflexivity | now rewrite IH]. Qed.

Lemma consumed_prefix (b : option ascii) (g : list (nat * string)) (x y : string) (e : cursor) :
  rest e = y ->
  consumed {| before := b; rest := x ++ y; groups := g |} e = x.
Proof.
  intros Hy. unfold consumed. cbn [rest]. rewrite Hy, length_append.
  replace (String.length x + String.length y - String.length y) with (String.length x) by lia.
  apply substring_prefix.
Qed.

Lemma Pow_reads (R : cursor -> cursor -> Prop) (n : nat) :
  (forall c c', R c c' ->
     exists x, rest c = x ++ rest c' /\ before c' = last_char (before c) x) ->
  forall c c', Pow R n c c' ->
     exists x, rest c = x ++ rest c' /\ before c' = last_char (before c) x.
Proof.
  intros HR. induction n as [|n IH]; intros c c' H; cbn [Pow] in H.
  - subst c'. exists "". auto.
  - destruct H as (mid & H1 & _ & H2).
    destruct (HR _ _ H1) as (x & Hx & Hbx). destruct (IH _ _ H2) as (y & Hy & Hby).
    exists (x ++ y). rewrite Hx, Hy, append_assoc, last_char_append, <- Hbx. auto.
Qed.

(** A pattern reads a piece of the text, from where it starts to where it
    ends. *)
Lemma Den_reads (ci : bool) (r : regex) :
  forall c c', Den ci r c c' ->
    exists x, rest c = x ++ rest c' /\ before c' = last_char (before c) x.
Proof.
  induction r as [cls| |r1 IH1 r2 IH2|r1 IH1 r2 IH2|lo hi r0 IH0| | | |g r0 IH0];
    intros c c' H; cbn [Den] in H.
  - destruct H as (a & s' & Hr & _ & ->). exists (String a ""). cbn. auto.
  - subst c'. exists "". auto.
  - destruct H as (mid & H1 & H2).
    destruct (IH1 _ _ H1) as (x & Hx & Hbx). destruct (IH2 _ _ H2) as (y & Hy & Hby).
    exists (x ++ y). rewrite Hx, Hy, append_assoc, last_char_append, <- Hbx. auto.
  - destruct H as [H|H]; [apply IH1 | apply IH2]; exact H.
  - destruct H as (n & _ & _ & Hp). apply (@Pow_reads (Den ci r0) n IH0 c c' Hp).
  - destruct H as (_ & ->). exists "". auto.
  - destruct H as (_ & ->). exists "". auto.
  - destruct H as (_ & ->). exists "". auto.
  - destruct H as (e & He & ->). apply IH0 in He. exact He.
Qed.

(** A run of iterations of a one-character pattern reads a string of the
    class. *)
Lemma Pow_class (ci : bool) (cls : ascii -> bool) (n : nat) :
  forall c c',
    Pow (Den ci (Chr cls)) n c c' ->
    exists ds,
      String.length ds = n /\ all_char (accepts ci cls) ds = true /\ rest c = ds ++ rest c' /\
      before c' = last_char (before c) ds /\ groups c' = groups c.
Proof.
  induction n as [|n IH]; intros c c' H; cbn [Pow] in H.
  - subst c'. exists "". cbn. auto.
  - destruct H as (mid & Hd & _ & Hp). cbn [Den] in Hd.
    destruct Hd as (a & s' & Hr & Ha & ->).
    apply IH in Hp. destruct Hp as (ds & Hl & Hall & Hrest & Hb & Hg).
    cbn [step rest before groups] in *.
    exists (String a ds). cbn. rewrite Hl, Ha, Hall, Hr, Hrest. auto.
Qed.

Lemma Rep_digits (ci : bool) (lo hi : nat) (c c' : cursor) :
  Den ci (Rep lo (Some hi) digit) c c' ->
  exists ds,
    lo <= String.length ds <= hi /\ all_digits ds = true /\ rest c = ds ++ rest c' /\
    before c' = last_char (before c) ds /\ groups c' = groups c.
Proof.
  cbn [Den]. intros (n & Hlo & Hhi & Hp). specialize (Hhi hi eq_refl).
  apply Pow_digits in Hp. destruct Hp as (ds & Hl & Hall & Hr & Hb & Hg).
  exists ds. repeat split; try assumption; lia.
Qed.

Lemma not_word_before (c : cursor) (a : ascii) (s : string) :
  boundary c = true -> rest c = String a s -> is_word a = true -> word_before c = false.
Proof.
  unfold boundary, word_after. intros Hb Hr Ha. rewrite Hr, Ha in Hb.
  destruct (word_before c); [discriminate | reflexivity].
Qed.

Lemma not_word_after (c : cursor) (a : ascii) :
  boundary c = true -> before c = Some a -> is_word a = true -> starts_with_word (rest c) = false.
Proof.
  unfold boundary, word_before, word_after, starts_with_word. intros Hb Hr Ha.
  rewrite Hr, Ha in Hb. destruct (rest c) as [|b s]; [reflexivity|].
  destruct (is_word b); [discriminate | reflexivity].
Qed.

(** A pattern of one class is found in a text exactly when some character
    of the text is in the class. *)
Lemma scan_class (cls : ascii -> bool) (s : string) :
  forall prev i, isSome (scan false (Chr cls) prev s i) = any_char cls s.
Proof.
  induction s as [|a s IH]; intros prev i; cbn [scan run rest any_char accepts].
  - reflexivity.
  - destruct (cls a); [reflexivity|]. cbn [orb]. apply IH.
Qed.

Lemma test_class (cls : ascii -> bool) (s : string) :
  test false (Chr cls) s = any_char cls s.
Proof. apply scan_class. Qed.

(** ** Part numbers in links and running text *)

(** What a match of the link pattern is: PS in either letter case and five
    to ten digits, captured as group 1. *)
Lemma link_pattern_sound (text : string) (m : rmatch) :
  exec true PS_IN_URL_RE text = Some m ->
  exists pre p q ds post,
    text = pre ++ String p (String q (ds ++ post)) /\
    toUpperChar p = "P"%char /\ toUpperChar q = "S"%char /\
    all_digits ds = true /\ 5 <= String.length ds <= 10 /\
    matchN 1 (Some m) = Some (String p (String q ds)).
Proof.
  intros H. apply scan_sound in H.
  destruct H as (pre & post0 & Htext & Hd & _ & Hg & _).
  cbn [PS_IN_URL_RE Den lit] in Hd.
  destruct Hd as (e & (c2 & (c3 & (p & s1 & Hr1 & Hp & ->) &
                   c4 & (q & s2 & Hr2 & Hq & ->) & ->) &
                   (n & Hn & Hhi & Hpow)) & Hend).
  cbn [rest step] in *.
  apply Pow_digits in Hpow. destruct Hpow as (ds & Hl & Hall & Hrest & _ & Hgr).
  cbn [rest step groups] in *. subst post0 s1 s2.
  specialize (Hhi 10 eq_refl).
  exists pre, p, q, ds, (rest e).
  apply accepts_P, Ascii.eqb_eq in Hp. apply accepts_S, Ascii.eqb_eq in Hq.
  repeat split; try assumption; try lia.
  cbn [matchN]. rewrite Hg, Hend. cbn [set_group groups group Nat.eqb]. f_equal.
  change (String p (String q (ds ++ rest e))) with ((String p (String q ds)) ++ rest e).
  apply consumed_prefix. reflexivity.
Qed.

Lemma toUpperCase_PS (p q : ascii) (ds : string) :
  toUpperChar p = "P"%char -> toUpperChar q = "S"%char -> all_digits ds = true ->
  toUpperCase (String p (String q ds)) = "PS" ++ ds.
Proof.
  intros Hp Hq Hall. cbn [toUpperCase map_string]. rewrite Hp, Hq.
  fold (toUpperCase ds). now rewrite (toUpperCase_digits ds Hall).
Qed.

Lemma link_or_text_shape (text v : string) :
  extractPartNumberFromLinkOrText text = Some v ->
  exists before_ digits after_,
    toUpperCase text = before_ ++ v ++ after_ /\ v = "PS" ++ digits /\
    all_digits digits = true /\ 5 <= String.length digits <= 10.
Proof.
  unfold extractPartNumberFromLinkOrText. intros H.
  destruct (extractPartNumber text) as [d|] eqn:Hd.
  - destruct (extractPartNumber_only_tokens text Hd)
      as (pre & ds & post & Hup & -> & Hall & Hl & _).
    cbn [truthy append String.eqb negb] in H. injection H as <-.
    exists pre, ds, post. auto.
  - cbn [truthy] in H.
    destruct (exec true PS_IN_URL_RE text) as [m|] eqn:Hm; [|discriminate H].
    destruct (link_pattern_sound text Hm)
      as (pre & p & q & ds & post & Ht & Hp & Hq & Hall & Hl & Hg).
    rewrite Hg in H. cbn [truthy String.eqb negb option_map] in H. injection H as <-.
    rewrite (@toUpperCase_PS p q ds Hp Hq Hall).
    exists (toUpperCase pre), ds, (toUpperCase post). repeat split; try assumption; try lia.
    rewrite Ht, toUpperCase_append.
    change (String p (String q (ds ++ post))) with (String p (String q ds) ++ post).
    rewrite toUpperCase_append, (@toUpperCase_PS p q ds Hp Hq Hall). reflexivity.
Qed.

(** X5. Whatever [extractPartNumberFromLinkOrText] returns, from the strict
    pattern or from the link fallback, is PS followed by five to ten digits, in
    upper case, and occurs in the upper-cased text. *)
Theorem extractPartNumberFromLinkOrText_shape (text v : string) :
  extractPartNumberFromLinkOrText text = Some v ->
  exists before_ digits after_,
    toUpperCase text = before_ ++ v ++ after_ /\ v = "PS" ++ digits /\
    all_digits digits = true /\ 5 <= String.length digits <= 10.
Proof. apply link_or_text_shape. Qed.

Lemma extractPartNumberFromLinkOrText_shape_witness :
  exists before_ digits after_,
    toUpperCase "see xps11752778-kit" = before_ ++ "PS11752778" ++ after_ /\
    "PS11752778" = "PS" ++ digits /\
    all_digits digits = true /\ 5 <= String.length digits <= 10.
Proof.
  apply (@extractPartNumberFromLinkOrText_shape "see xps11752778-kit" "PS11752778").
  reflexivity.
Defined.

Lemma leading_digits_split (n : nat) :
  forall s, exists tail,
    s = leading_digits n s ++ tail /\ all_digits (leading_digits n s) = true /\
    String.length (leading_digits n s) <= n /\
    (String.length (leading_digits n s) = n \/
     forall a s', tail = String a s' -> is_digit a = false).
Proof.
  induction n as [|n IH]; intros s.
  - exists s. cbn. auto.
  - destruct s as [|a s]; cbn [leading_digits].
    + exists "". cbn. repeat split; try lia. right. discriminate.
    + destruct (is_digit a) eqn:Ha.
      * destruct (IH s) as (tail & Hs & Hall & Hle & Hor).
        exists tail. cbn [append all_digits String.length]. rewrite Ha, Hall, <- Hs.
        repeat split; try lia. destruct Hor as [E|N]; [left; lia | right; exact N].
      * exists (String a s). cbn. repeat split; try lia.
        right. intros a' s' E. injection E as <- _. exact Ha.
Qed.

Lemma leading_digits_long (k : nat) :
  forall n s, k <= n -> k <= String.length s -> all_digits (substring 0 k s) = true ->
              k <= String.length (leading_digits n s).
Proof.
  induction k as [|k IH]; intros n s Hn Hs Hall; [lia|].
  destruct n as [|n]; [lia|]. destruct s as [|a s]; cbn in Hs; [lia|].
  cbn in Hall. apply andb_true_iff in Hall. destruct Hall as [Ha Hall].
  cbn [leading_digits]. rewrite Ha. cbn [String.length].
  apply le_n_S. apply IH; [lia | lia | exact Hall].
Qed.

(** A greedy loop over digits takes every digit of a run, up to its bound. *)
Lemma iterate_digits_greedy (ci : bool) (lo hi : nat) (k : cursor -> option cursor)
    (e : cursor) (ds : string) :
  forall tail fuel n c,
    all_digits ds = true -> rest c = ds ++ tail ->
    (n + String.length ds = hi \/ forall a s', tail = String a s' -> is_digit a = false) ->
    n + String.length ds <= hi -> lo <= n + String.length ds ->
    String.length ds <= fuel ->
    k (advance c ds tail) = Some e ->
    iterate (run ci digit) lo (Some hi) k fuel n c = Some e.
Proof.
  induction ds as [|a ds IH]; intros tail fuel n c Hall Hr Hor Hhi Hlo Hf Hk.
  - cbn in Hr, Hhi, Hlo, Hor. rewrite Nat.add_0_r in *.
    assert (Ec : advance c "" tail = c) by (destruct c; cbn in *; now subst).
    rewrite Ec in Hk.
    destruct fuel; cbn [iterate].
    + destruct (Nat.leb_spec lo n); [exact Hk | lia].
    + destruct (below n (Some hi)) eqn:Hb.
      * assert (Hbody : forall k', run ci digit k' c = None).
        { intros k'. cbn [run digit]. rewrite Hr. destruct tail as [|a s']; [reflexivity|].
          rewrite accepts_digit. destruct Hor as [E|N].
          - cbn in Hb. apply Nat.ltb_lt in Hb. lia.
          - now rewrite (N a s' eq_refl). }
        rewrite Hbody. destruct (Nat.leb_spec lo n); [exact Hk | lia].
      * destruct (Nat.leb_spec lo n); [exact Hk | lia].
  - cbn in Hall. apply andb_true_iff in Hall. destruct Hall as [Ha Hall].
    cbn [String.length] in *. destruct fuel as [|fuel]; [lia|].
    cbn [iterate below]. destruct (Nat.ltb_spec n hi); [|lia].
    rewrite (@run_digit ci _ c a (ds ++ tail) Hr Ha).
    cbn [step rest]. rewrite Hr. cbn [append String.length].
    destruct (Nat.ltb_spec (String.length (ds ++ tail)) (S (String.length (ds ++ tail))));
      [|lia].
    rewrite (IH tail fuel (S n) (step a (ds ++ tail) c)); auto; try lia.
    destruct Hor as [E|N]; [left; lia | right; exact N].
Qed.

Lemma accepts_upper (x a : ascii) :
  toUpperChar a = x -> accepts true (Ascii.eqb x) a = true.
Proof. intros <-. unfold accepts. now rewrite Ascii.eqb_refl. Qed.

(** Where PS and five digits start, the link pattern matches. *)
Lemma link_pattern_complete (prev : option ascii) (s : string) :
  starts_ps5 s = true ->
  exists e, run true PS_IN_URL_RE (fun e => Some e)
              {| before := prev; rest := s; groups := [] |} = Some e.
Proof.
  unfold starts_ps5. destruct s as [|p [|q r]]; try discriminate. intros H.
  apply andb_true_iff in H. destruct H as [H H5].
  apply andb_true_iff in H. destruct H as [H Hlen].
  apply andb_true_iff in H. destruct H as [Hp Hq].
  apply Ascii.eqb_eq in Hp, Hq. apply Nat.leb_le in Hlen.
  destruct (leading_digits_split 10 r) as (tail & Hr & Hall & Hle & Hor).
  pose proof (@leading_digits_long 5 10 r ltac:(lia) Hlen H5) as H5'.
  set (ds := leading_digits 10 r) in *.
  eexists.
  cbn [run PS_IN_URL_RE lit rest step].
  rewrite (@accepts_upper _ _ Hp), (@accepts_upper _ _ Hq). cbn [groups before].
  apply iterate_digits_greedy with (ds := ds) (tail := tail).
  - exact Hall.
  - cbn [rest]. exact Hr.
  - cbn [Nat.add]. destruct Hor as [E|N]; [left; exact E | right; exact N].
  - cbn [Nat.add]. exact Hle.
  - cbn [Nat.add]. exact H5'.
  - cbn [rest]. pose proof (f_equal String.length Hr) as L.
    rewrite length_append in L. lia.
  - reflexivity.
Qed.

(** The first place where PS and five digits start. *)
Lemma first_ps5_place (text : string) :
  forall i, ps5_starts i text <> [] ->
  exists x y, text = x ++ y /\ starts_ps5 y = true /\
              forall x1 x2, x = x1 ++ x2 -> x2 <> "" -> starts_ps5 (x2 ++ y) = false.
Proof.
  induction text as [|a text IH]; intros i H.
  - cbn in H. congruence.
  - destruct (starts_ps5 (String a text)) eqn:E.
    + exists "", (String a text). repeat split; [exact E|].
      intros x1 x2 Hx Hx2. destruct x1; destruct x2; cbn in Hx; congruence.
    + cbn [ps5_starts] in H. rewrite E in H. cbn [app] in H.
      destruct (IH (S i) H) as (x & y & -> & Hy & Hfree).
      exists (String a x), y. repeat split; [exact Hy|].
      intros x1 x2 Hx Hx2. destruct x1 as [|b x1]; cbn in Hx.
      * subst x2. exact E.
      * injection Hx as _ Hx. apply (Hfree x1 x2 Hx Hx2).
Qed.

Lemma part_number_has_ps5_place (text v : string) :
  extractPartNumber text = Some v -> ps5_starts 0 text <> [].
Proof.
  intros Hv. apply extractPartNumber_only_tokens in Hv.
  destruct Hv as (pre & ds & post & Hup & -> & Hall & Hl & _).
  destruct (@toUpperCase_split _ _ _ Hup) as (x & y & -> & Hx & Hy).
  assert (Hps : starts_ps5 y = true).
  { apply (@upper_starts_ps5 y ds post); [|exact Hall|lia]. rewrite Hy. now rewrite append_assoc. }
  pose proof (@ps5_starts_complete x 0 y Hps) as Hin.
  intros E. rewrite E in Hin. exact Hin.
Qed.

(** X6. [extractPartNumberFromLinkOrText] finds nothing only in a text
    that has no place where PS, in either letter case, is followed by five
    digits; and in a text of ASCII characters without such a place it finds
    nothing. *)
Theorem extractPartNumberFromLinkOrText_complete (text : string) :
  (extractPartNumberFromLinkOrText text = None -> ps5_starts 0 text = []) /\
  (ascii_text text = true -> ps5_starts 0 text = [] ->
   extractPartNumberFromLinkOrText text = None).
Proof.
  split.
  - intros Hnone. destruct (ps5_starts 0 text) eqn:E; [reflexivity|]. exfalso.
    assert (Hne : ps5_starts 0 text <> []) by (rewrite E; discriminate).
    destruct (first_ps5_place text 0 Hne) as (x & y & -> & Hy & Hfree).
    unfold extractPartNumberFromLinkOrText in Hnone.
    destruct (extractPartNumber (x ++ y)) as [d|] eqn:Hd.
    + destruct (extractPartNumber_only_tokens _ Hd) as (_ & ds & _ & _ & -> & _).
      cbn in Hnone. discriminate.
    + cbn [truthy] in Hnone.
      destruct (link_pattern_complete (last_char None x) y Hy) as (e & He).
      assert (Hm : exists m, exec true PS_IN_URL_RE (x ++ y) = Some m).
      { unfold exec. rewrite (@scan_skips_ps5_free x None 0 y Hfree).
        rewrite (@scan_hit true PS_IN_URL_RE _ _ _ _ He). eexists. reflexivity. }
      destruct Hm as (m & Hm).
      destruct (link_pattern_sound _ Hm) as (_ & p & q & ds & _ & _ & _ & _ & _ & _ & Hg).
      rewrite Hm, Hg in Hnone. cbn in Hnone. discriminate.
  - intros _ E. unfold extractPartNumberFromLinkOrText.
    destruct (extractPartNumber text) as [d|] eqn:Hd.
    + exfalso. apply (part_number_has_ps5_place _ Hd E).
    + cbn [truthy].
      assert (Hm : exec true PS_IN_URL_RE text = None).
      { destruct (exec true PS_IN_URL_RE text) as [m|] eqn:Hm; [|reflexivity]. exfalso.
        destruct (link_pattern_sound _ Hm)
          as (pre & p & q & ds & post & -> & Hp & Hq & Hall & Hl & _).
        assert (Hps : starts_ps5 (String p (String q (ds ++ post))) = true).
        { unfold starts_ps5. rewrite Hp, Hq. cbn [Ascii.eqb Bool.eqb andb].
          rewrite (@all_digits_prefix 5 ds post Hall) by lia. rewrite andb_true_r.
          apply Nat.leb_le. rewrite length_append. lia. }
        pose proof (@ps5_starts_complete pre 0 _ Hps) as Hin.
        rewrite E in Hin. exact Hin. }
      rewrite Hm. reflexivity.
Qed.

(** ** The truncation of long tokens *)


(** A pattern that matches somewhere in a text is found by the scan. *)
Lemma scan_finds (ci : bool) (r : regex) (x y : string) :
  forall prev i e,
    run ci r (fun e => Some e) {| before := last_char prev x; rest := y; groups := [] |} = Some e ->
    exists m, scan ci r prev (x ++ y) i = Some m.
Proof.
  induction x as [|a x IH]; intros prev i e H.
  - cbn [append last_char] in *. rewrite (@scan_hit ci r prev y i e H). eexists. reflexivity.
  - cbn [append scan].
    destruct (run ci r (fun e => Some e)
                {| before := prev; rest := String a (x ++ y); groups := [] |}) as [e'|];
      [eexists; reflexivity|].
    apply (IH (Some a) (S i) e). exact H.
Qed.

Lemma last_digit_is_word (prev : option ascii) (ds : string) :
  all_digits ds = true -> ds <> "" ->
  match last_char prev ds with Some a => is_word a | None => false end = true.
Proof.
  intros Hall Hne. destruct (@all_digits_last prev ds Hall) as (x & Hx & Hd).
  - destruct ds; [congruence | cbn; lia].
  - rewrite Hx. apply (is_digit_facts x Hd).
Qed.

(** At a complete token the strict pattern matches. *)
Lemma full_pattern_at_token (prev : option ascii) (ds tail : string) :
  match prev with Some a => is_word a | None => false end = false ->
  all_digits ds = true -> 5 <= String.length ds <= 10 ->
  starts_with_word tail = false ->
  exists e, run false PS_FULL_RE (fun e => Some e)
              {| before := prev; rest := "PS" ++ ds ++ tail; groups := [] |} = Some e.
Proof.
  intros Hprev Hall Hl Htail. eexists.
  cbn [run PS_FULL_RE lit rest append accepts].
  unfold boundary at 1, word_before, word_after. cbn [before rest]. rewrite Hprev.
  change (is_word "P") with true. cbn [xorb].
  cbn [Ascii.eqb Bool.eqb andb step rest before groups].
  apply iterate_digits_greedy with (ds := ds) (tail := tail).
  - exact Hall.
  - reflexivity.
  - right. intros a s' ->. cbn in Htail.
    destruct (is_digit a) eqn:E; [|reflexivity].
    rewrite (proj1 (is_digit_facts a E)) in Htail. discriminate.
  - cbn [Nat.add]. lia.
  - cbn [Nat.add]. lia.
  - cbn [rest]. rewrite length_append. lia.
  - cbn [run]. unfold boundary, word_before, word_after, advance. cbn [before rest].
    rewrite last_digit_is_word; [|exact Hall|destruct ds; [cbn in Hl; lia | discriminate]].
    unfold starts_with_word in Htail. rewrite Htail. reflexivity.
Qed.

(** [extractPartNumber] finds a token whenever the upper-cased text has a
    complete one. *)
Lemma extractPartNumber_complete (text pre ds post : string) :
  toUpperCase text = pre ++ ("PS" ++ ds) ++ post ->
  all_digits ds = true -> 5 <= String.length ds <= 10 ->
  ends_with_word pre = false -> starts_with_word post = false ->
  extractPartNumber text <> None.
Proof.
  intros Hup Hall Hl Hpre Hpost. unfold extractPartNumber, exec. rewrite Hup.
  destruct (@full_pattern_at_token (last_char None pre) ds post Hpre Hall Hl Hpost) as (e & He).
  replace (("PS" ++ ds) ++ post) with ("PS" ++ ds ++ post) by reflexivity.
  destruct (@scan_finds false PS_FULL_RE pre ("PS" ++ ds ++ post) None 0 e He) as (m & ->).
  discriminate.
Qed.

(** The first place where PS and five digits start has none before it. *)
Lemma first_ps5_skip (pre : string) :
  forall i y,
    hd_error (ps5_starts i (pre ++ y)) = Some (i + String.length pre) ->
    forall x1 x2, pre = x1 ++ x2 -> x2 <> "" -> starts_ps5 (x2 ++ y) = false.
Proof.
  induction pre as [|a pre IH]; intros i y H x1 x2 E Hx2.
  - destruct x1; destruct x2; cbn in E; congruence.
  - cbn [append ps5_starts String.length] in H.
    destruct (starts_ps5 (String a (pre ++ y))) eqn:Hs.
    + cbn in H. injection H as H. lia.
    + cbn [app] in H. destruct x1 as [|b x1]; cbn in E.
      * subst x2. exact Hs.
      * injection E as _ E.
        assert (H' : hd_error (ps5_starts (S i) (pre ++ y)) = Some (S i + String.length pre)).
        { rewrite H. f_equal. lia. }
        exact (IH (S i) y H' x1 x2 E Hx2).
Qed.

(** At PS, in either letter case, followed by ten digits and more text, the
    link pattern matches the PS and the ten digits, whatever follows. *)
Lemma link_pattern_at_run (prev : option ascii) (p q : ascii) (ds tail : string) :
  toUpperChar p = "P"%char -> toUpperChar q = "S"%char ->
  all_digits ds = true -> String.length ds = 10 ->
  run true PS_IN_URL_RE (fun e => Some e)
      {| before := prev; rest := String p (String q (ds ++ tail)); groups := [] |} =
  Some {| before := last_char (Some q) ds; rest := tail;
          groups := [(1, String p (String q ds))] |}.
Proof.
  intros Hp Hq Hall Hl.
  cbn [run PS_IN_URL_RE lit rest step append].
  rewrite (@accepts_upper _ _ Hp), (@accepts_upper _ _ Hq).
  cbv iota. cbn [groups before].
  apply iterate_takes_digits with (ds := ds) (tail := tail); try assumption; try lia.
  - reflexivity.
  - rewrite length_append. lia.
  - unfold advance, set_group, consumed. cbn [before rest groups].
    change (String p (String q (ds ++ tail))) with ((String p (String q ds)) ++ tail).
    rewrite length_append.
    replace (String.length (String p (String q ds)) + String.length tail - String.length tail)
      with (String.length (String p (String q ds))) by lia.
    rewrite substring_prefix. reflexivity.
Qed.

Lemma substring_split (n : nat) :
  forall s, n <= String.length s ->
            s = substring 0 n s ++ substring n (String.length s - n) s.
Proof.
  induction n as [|n IH]; intros s H.
  - cbn. rewrite Nat.sub_0_r. destruct s; cbn; [reflexivity|].
    f_equal. clear. induction s as [|a s IH]; cbn; [reflexivity | now rewrite <- IH].
  - destruct s as [|a s]; cbn in H; [lia|]. cbn. f_equal. apply IH. lia.
Qed.

(** Where the link pattern first matches a run of eleven digits or more, it
    takes PS and the first ten. *)
Lemma link_fallback_takes_ten (pre : string) (p q : ascii) (ds post : string) :
  toUpperChar p = "P"%char -> toUpperChar q = "S"%char ->
  all_digits ds = true -> 11 <= String.length ds ->
  hd_error (ps5_starts 0 (pre ++ String p (String q (ds ++ post)))) = Some (String.length pre) ->
  matchN 1 (exec true PS_IN_URL_RE (pre ++ String p (String q (ds ++ post)))) =
  Some (String p (String q (substring 0 10 ds))).
Proof.
  intros Hp Hq Hall Hl Hfirst.
  pose proof (@first_ps5_skip pre 0 _ Hfirst) as Hskip.
  unfold exec. rewrite (@scan_skips_ps5_free pre None 0 _ Hskip).
  rewrite (@substring_split 10 ds ltac:(lia)) at 1.
  rewrite append_assoc.
  assert (D10 : all_digits (substring 0 10 ds) = true).
  { pose proof (@all_digits_prefix 10 ds "" Hall ltac:(lia)) as D.
    now rewrite append_empty_r in D. }
  rewrite (@scan_hit true PS_IN_URL_RE _ _ _ _
             (@link_pattern_at_run (last_char None pre) p q (substring 0 10 ds) _ Hp Hq D10
                (@length_substring_0 10 ds ltac:(lia)))).
  reflexivity.
Qed.

Lemma all_char_append (cls : ascii -> bool) (x y : string) :
  all_char cls (x ++ y) = all_char cls x && all_char cls y.
Proof. induction x as [|a x IH]; cbn; [reflexivity|]. now rewrite IH, andb_assoc. Qed.

Lemma all_char_last (cls : ascii -> bool) (x : string) :
  forall prev, all_char cls x = true -> x <> "" ->
               exists a, last_char prev x = Some a /\ cls a = true.
Proof.
  induction x as [|a x IH]; intros prev Hall Hne; [congruence|].
  cbn in Hall. apply andb_true_iff in Hall. destruct Hall as [Ha Hall].
  destruct x as [|b x]; [exists a; auto|].
  cbn [last_char]. apply (IH (Some a)); [exact Hall | discriminate].
Qed.

Lemma digits_are_words (ds : string) : all_digits ds = true -> all_char is_word ds = true.
Proof.
  induction ds as [|a ds IH]; cbn; [reflexivity|]. intros H.
  apply andb_true_iff in H. destruct H as [Ha H].
  rewrite (proj1 (is_digit_facts a Ha)). now apply IH.
Qed.

(** The strict pattern matches nowhere in a run of PS and eleven digits or
    more. *)
Lemma no_token_inside_a_long_run (p q : ascii) (ds : string) :
  toUpperChar p = "P"%char -> toUpperChar q = "S"%char ->
  all_digits ds = true -> 11 <= String.length ds ->
  extractPartNumber (String p (String q ds)) = None.
Proof.
  intros Hp Hq Hall Hl.
  destruct (extractPartNumber (String p (String q ds))) as [v|] eqn:Hv; [|reflexivity].
  exfalso. apply extractPartNumber_only_tokens in Hv.
  destruct Hv as (pre' & ds' & post' & Hup & -> & Hall' & Hl' & Hb & Ha).
  rewrite (@toUpperCase_PS p q ds Hp Hq Hall) in Hup.
  assert (W : all_char is_word ("PS" ++ ds) = true).
  { cbn. now apply digits_are_words. }
  destruct pre' as [|c pre'].
  - cbn [append] in Hup. injection Hup as Hup. symmetry in Hup.
    assert (E : ds' ++ post' = ds ++ "") by now rewrite append_empty_r.
    apply (@digit_follows ds' ds "" post' Hall) in E; [congruence | lia].
  - rewrite Hup, all_char_append in W. apply andb_true_iff in W. destruct W as [W _].
    destruct (@all_char_last is_word (String c pre') None W ltac:(discriminate)) as (a & La & Wa).
    unfold ends_with_word in Hb. rewrite La, Wa in Hb. discriminate.
Qed.

(** C10, as stated, fails.  An input may contain PS followed by twelve
    digits and still carry a complete token elsewhere: then
    [extractPartNumber] returns that token, and so does the link fallback,
    instead of PS plus the first ten digits of the long run.  And without a
    complete token the link fallback takes the first place where PS and five
    digits start, which need not be the long run. *)
Lemma long_run_beside_a_full_token :
  (let text := "PS12345 " ++ longToken in
   includes text longToken = true /\
   extractPartNumber text = Some "PS12345" /\
   extractPartNumberFromLinkOrText text = Some "PS12345" /\
   extractPartNumberFromLinkOrText text <> Some "PS1234567890") /\
  (let text := "xPS12345 " ++ longToken in
   includes text longToken = true /\
   extractPartNumber text = None /\
   extractPartNumberFromLinkOrText text = Some "PS12345" /\
   extractPartNumberFromLinkOrText text <> Some "PS1234567890").
Proof. vm_compute. repeat split; discriminate. Qed.

(** C10, amended.  Take an input in which PS, in either letter case, is
    followed by eleven or more consecutive digits, this run is the first place
    of the input where PS and five digits start, and [extractPartNumber] finds
    no complete token.  In the run itself [extractPartNumber] finds nothing
    (its word-bounded pattern cannot match inside the digits), and the link
    fallback returns PS plus the first ten digits of the run: a truncated value
    that is nowhere a complete token of the upper-cased input (wherever it
    occurs, a word character stands before or after it).  This value counts as
    an explicit part number: the message is a clear intent shift, the value is
    the part number of the turn's entities, and the part-lookup branch looks it
    up. *)
Theorem link_fallback_truncates_long_tokens (pre : string) (p q : ascii) (ds post : string)
    (w : World) (t : Turn) (h : list ChatMessage) :
  let text := pre ++ String p (String q (ds ++ post)) in
  let v := "PS" ++ substring 0 10 ds in
  toUpperChar p = "P"%char -> toUpperChar q = "S"%char ->
  all_digits ds = true -> 11 <= String.length ds ->
  hd_error (ps5_starts 0 text) = Some (String.length pre) ->
  extractPartNumber text = None ->
  extractPartNumber (String p (String q ds)) = None /\
  extractPartNumberFromLinkOrText text = Some v /\
  (forall pre' post', toUpperCase text = pre' ++ v ++ post' ->
                      ends_with_word pre' = true \/ starts_with_word post' = true) /\
  isClearIntentShift text = true /\
  partNumber (entities (resolveTurn text h)) = Some v /\
  (Tools.part (Tools.toolLookupPart (parts_sample w) v) = None ->
   reply (partLookup w t text) =
     "I can’t find " ++ v ++
     " in the demo catalog. If you paste the PartSelect link, I can still help with install/troubleshooting.").
Proof.
  intros text v Hp Hq Hall Hl Hfirst H1.
  assert (D10 : all_digits (substring 0 10 ds) = true).
  { pose proof (@all_digits_prefix 10 ds "" Hall ltac:(lia)) as D.
    now rewrite append_empty_r in D. }
  assert (L10 : String.length (substring 0 10 ds) = 10) by (apply length_substring_0; lia).
  assert (H2 : extractPartNumberFromLinkOrText text = Some v).
  { unfold extractPartNumberFromLinkOrText. rewrite H1. cbn [truthy].
    subst text. rewrite (@link_fallback_takes_ten pre p q ds post Hp Hq Hall Hl Hfirst).
    cbn [truthy String.eqb negb option_map]. f_equal.
    apply toUpperCase_PS; assumption. }
  assert (Hv : truthy (Some v) = true) by reflexivity.
  split; [apply no_token_inside_a_long_run; assumption|].
  split; [exact H2|].
  split.
  { intros pre' post' E.
    destruct (ends_with_word pre') eqn:Eb; [left; reflexivity|].
    destruct (starts_with_word post') eqn:Ea; [right; reflexivity|]. exfalso.
    apply (@extractPartNumber_complete text pre' (substring 0 10 ds) post'); try assumption.
    lia. }
  split; [apply part_number_is_clear_shift; rewrite H2; exact Hv|].
  split.
  - unfold resolveTurn. cbn [entities]. unfold resolveEntities. cbn [partNumber].
    rewrite H2. reflexivity.
  - intros Hnone. unfold partLookup. rewrite H2, Hv. cbn [negb orElse].
    rewrite Hnone. reflexivity.
Qed.

Lemma link_fallback_truncates_long_tokens_witness :
  let text := "see ps123456789012 please" in
  let v := "PS1234567890" in
  extractPartNumber "ps123456789012" = None /\
  extractPartNumberFromLinkOrText text = Some v /\
  (forall pre' post', toUpperCase text = pre' ++ v ++ post' ->
                      ends_with_word pre' = true \/ starts_with_word post' = true) /\
  isClearIntentShift text = true /\
  partNumber (entities (resolveTurn text [])) = Some v /\
  (Tools.part (Tools.toolLookupPart (parts_sample bareWorld) v) = None ->
   reply (partLookup bareWorld (resolveTurn text []) text) =
     "I can’t find " ++ v ++
     " in the demo catalog. If you paste the PartSelect link, I can still help with install/troubleshooting.").
Proof.
  apply (@link_fallback_truncates_long_tokens "see " "p" "s" "123456789012" " please" bareWorld
           (resolveTurn "see ps123456789012 please" []) []).
  - reflexivity.
  - reflexivity.
  - reflexivity.
  - cbn. lia.
  - reflexivity.
  - reflexivity.
Defined.

(** The example through the whole turn: the truncated value is what the
    router looks up. *)
Lemma long_token_turn :
  let r := handleChatTurn bareWorld (turn longToken []) in
  extractPartNumber longToken = None /\
  intent (meta r) = part_lookup /\
  x_partNumber (extracted (meta r)) = Some "PS1234567890" /\
  toolsUsed (meta r) = ["toolLookupPart"] /\
  reply r =
    "I can’t find PS1234567890 in the demo catalog. If you paste the PartSelect link, I can still help with install/troubleshooting.".
Proof. vm_compute. repeat split; reflexivity. Qed.

(** ** Model numbers *)

Lemma looksLikeRealModelToken_facts (t : string) :
  looksLikeRealModelToken (Some t) = true ->
  5 <= String.length t /\ any_char is_upper t = true /\ any_char is_digit t = true /\
  startsWith t "PS" = false /\ test false LONG_DIGITS_RE t = false /\
  has ["NUMBER"; "MODEL"; "UNKNOWN"; "N/A"; "NULL"; "NONE"; "HELLO"; "THANKS"] t = false.
Proof.
  unfold looksLikeRealModelToken.
  destruct (t === ""); [discriminate|].
  destruct (has _ t); [discriminate|].
  destruct (Nat.ltb_spec (String.length t) 5); [discriminate|].
  rewrite !test_class. unfold digit. rewrite test_class.
  destruct (any_char is_upper t); [|discriminate].
  destruct (any_char is_digit t); [|discriminate]. cbn [negb orb].
  destruct (startsWith t "PS"); [discriminate|].
  destruct (test false LONG_DIGITS_RE t); [discriminate|].
  intros _. repeat split; auto.
Qed.

Lemma firstModelCandidate_looks_real (cands : list string) (t : string) :
  firstModelCandidate cands = Some t -> looksLikeRealModelToken (Some t) = true.
Proof.
  induction cands as [|raw cands IH]; cbn [firstModelCandidate]; [discriminate|].
  destruct (looksLikeRealModelToken (Some (mainChunk raw))) eqn:E; cbn [negb]; [|exact IH].
  destruct ((mainChunk raw === "DRAIN") || (mainChunk raw === "INSTALL") ||
            (mainChunk raw === "REFUND") || (mainChunk raw === "RETURN")); [exact IH|].
  intros H. injection H as <-. exact E.
Qed.

(** X7. Whatever [extractModelNumber] returns passes the real-model check:
    at least five characters, with an upper-case letter and a digit, not
    starting with PS, and so never itself a part number. *)
Theorem extractModelNumber_looks_real (text t : string) :
  extractModelNumber text = Some t ->
  looksLikeRealModelToken (Some t) = true /\
  5 <= String.length t /\ any_char is_upper t = true /\ any_char is_digit t = true /\
  startsWith t "PS" = false /\
  extractPartNumber t <> Some t.
Proof.
  intros H.
  assert (L : looksLikeRealModelToken (Some t) = true).
  { unfold extractModelNumber in H.
    match type of H with
    | match ?x with _ => _ end = _ => destruct x as [tok|] eqn:Hphrase
    end.
    - injection H as <-.
      destruct (truthy _); [|discriminate].
      match type of Hphrase with
      | (if ?b then _ else _) = _ => destruct b eqn:Hb; [|discriminate]
      end.
      injection Hphrase as <-. apply andb_true_iff in Hb. apply Hb.
    - apply (firstModelCandidate_looks_real _ H). }
  destruct (looksLikeRealModelToken_facts t L) as (H1 & H2 & H3 & H4 & _).
  repeat split; try assumption.
  intros Hp.
  destruct (extractPartNumber_only_tokens t Hp) as (pre & ds & post & _ & Ht & _).
  unfold startsWith in H4. rewrite Ht, prefix_append in H4. discriminate.
Qed.

Lemma extractModelNumber_looks_real_witness :
  looksLikeRealModelToken (Some "WDT780SAEM1") = true /\
  5 <= String.length "WDT780SAEM1" /\ any_char is_upper "WDT780SAEM1" = true /\
  any_char is_digit "WDT780SAEM1" = true /\
  startsWith "WDT780SAEM1" "PS" = false /\
  extractPartNumber "WDT780SAEM1" <> Some "WDT780SAEM1".
Proof.
  apply (@extractModelNumber_looks_real "my model is wdt780saem1" "WDT780SAEM1").
  vm_compute. reflexivity.
Defined.

(** X8. The model number remembered for an appliance is the one extracted
    from the latest user message that has a model number and mentions that
    appliance (any user message when the appliance is unknown); messages of the
    assistant and messages about the other appliance are never its origin. *)
Theorem model_number_is_scoped_to_the_appliance (h : list ChatMessage) (a : Appliance)
    (mn : string) :
  findLastModelNumberForAppliance h a = Some mn ->
  exists older msg newer,
    h = (older ++ msg :: newer)%list /\
    role msg = user /\
    extractModelNumber (content msg) = Some mn /\
    (a = unknown_appliance \/ inferApplianceFromText (content msg) = a) /\
    findLastModelNumberForAppliance newer a = None.
Proof.
  induction h as [|m h IH]; cbn [findLastModelNumberForAppliance]; [discriminate|].
  destruct (findLastModelNumberForAppliance h a) as [mn'|] eqn:Hh.
  - intros E. injection E as ->. destruct (IH eq_refl) as (o & msg & n & -> & H1 & H2 & H3 & H4).
    exists (m :: o), msg, n. auto.
  - destruct (Role_eqb (role m) user) eqn:Hr; cbn [negb]; [|discriminate].
    destruct (messageMentionsAppliance m a) eqn:Hm; cbn [negb]; [|discriminate].
    destruct (truthy (extractModelNumber (content m))); [|discriminate].
    intros E. exists [], m, h. repeat split; try assumption.
    + destruct (role m); [reflexivity | discriminate].
    + unfold messageMentionsAppliance in Hm.
      destruct a; cbn [Appliance_eqb] in Hm; [right | right | left; reflexivity];
        destruct (inferApplianceFromText (content m)); try reflexivity; discriminate.
Qed.

Lemma model_number_is_scoped_to_the_appliance_witness :
  exists older msg newer,
    [mkMsg user "my dishwasher is WDT780SAEM1"; mkMsg user "my fridge is WRF555SDFZ"] =
      (older ++ msg :: newer)%list /\
    role msg = user /\
    extractModelNumber (content msg) = Some "WDT780SAEM1" /\
    (dishwasher = unknown_appliance \/ inferApplianceFromText (content msg) = dishwasher) /\
    findLastModelNumberForAppliance newer dishwasher = None.
Proof.
  apply (@model_number_is_scoped_to_the_appliance
           [mkMsg user "my dishwasher is WDT780SAEM1"; mkMsg user "my fridge is WRF555SDFZ"]
           dishwasher "WDT780SAEM1").
  vm_compute. reflexivity.
Defined.

(** ** Part-number continuity *)

Lemma findLastPartNumber_app (h1 h2 : list ChatMessage) :
  findLastPartNumber (h1 ++ h2) =
  match findLastPartNumber h2 with Some pn => Some pn | None => findLastPartNumber h1 end.
Proof.
  induction h1 as [|m h1 IH]; cbn [app findLastPartNumber].
  - destruct (findLastPartNumber h2); reflexivity.
  - rewrite IH. destruct (findLastPartNumber h2); reflexivity.
Qed.

Lemma findLastModelNumberForAppliance_app (h1 h2 : list ChatMessage) (a : Appliance) :
  findLastModelNumberForAppliance (h1 ++ h2) a =
  match findLastModelNumberForAppliance h2 a with
  | Some mn => Some mn
  | None => findLastModelNumberForAppliance h1 a
  end.
Proof.
  induction h1 as [|m h1 IH]; cbn [app findLastModelNumberForAppliance].
  - destruct (findLastModelNumberForAppliance h2 a); reflexivity.
  - rewrite IH. destruct (findLastModelNumberForAppliance h2 a); reflexivity.
Qed.

(** X9. The part number carried over from the history is read from every
    message, the assistant's included: a part number in the last message wins
    whoever wrote it, while a model number is never read from an assistant
    message. So the example part number of the assistant's own greeting (and of
    its request for an email) becomes the part number of the conversation when
    the user names none. *)
Theorem part_number_continuity_reads_assistant_turns (h : list ChatMessage)
    (msg : ChatMessage) (text m : string) (a : Appliance) :
  findLastPartNumber (h ++ [msg]) =
    (if truthy (extractPartNumberFromLinkOrText (content msg))
     then extractPartNumberFromLinkOrText (content msg)
     else findLastPartNumber h) /\
  findLastModelNumberForAppliance (h ++ [mkMsg assistant text]) a =
    findLastModelNumberForAppliance h a /\
  findLastPartNumber (h ++ [mkMsg assistant replyHome]) = Some "PS11752778" /\
  findLastPartNumber (h ++ [mkMsg assistant replyAskEmail]) = Some "PS11752778" /\
  (extractPartNumberFromLinkOrText m = None -> extractShortPartToken m = None ->
   partNumber (entities (resolveTurn m (h ++ [mkMsg assistant replyHome]))) =
     Some "PS11752778").
Proof.
  rewrite !findLastPartNumber_app, findLastModelNumberForAppliance_app.
  cbn [findLastPartNumber findLastModelNumberForAppliance role Role_eqb negb content].
  split.
  { destruct (extractPartNumberFromLinkOrText (content msg)) as [s|]; cbn [truthy];
      [destruct (s === "")|]; reflexivity. }
  split; [reflexivity|].
  split; [vm_compute; reflexivity|].
  split; [vm_compute; reflexivity|].
  intros Hp Hs. unfold resolveTurn. cbn [entities]. unfold resolveEntities. cbn [partNumber].
  rewrite Hp, Hs. cbn [truthy andb orElseOpt]. rewrite findLastPartNumber_app.
  vm_compute. reflexivity.
Qed.

(** After the greeting, a question that names no part is answered for the
    greeting's example part. *)
Lemma part_number_continuity_example (w : World) :
  let r := handleChatTurn w (turn "how do i install it" [mkMsg user "hi"; mkMsg assistant replyHome]) in
  x_partNumber (extracted (meta r)) = Some "PS11752778" /\
  intent (meta r) = installation_help /\
  toolsUsed (meta r) = ["toolSearchGuides"].
Proof.
  cbv zeta. rewrite handleChatTurn_phases.
  set (m := "how do i install it"). set (h := [mkMsg user "hi"; mkMsg assistant replyHome]).
  assert (G : gates w (resolveTurn m h) m h = Next tt) by (vm_compute; reflexivity).
  rewrite G. cbn [andThen].
  assert (F : followUp w (resolveTurn m h) m h = Next installation_help)
    by (vm_compute; reflexivity).
  rewrite F. cbn [dispatch]. unfold installation.
  assert (T : partNumber (entities (resolveTurn m h)) = Some "PS11752778")
    by (vm_compute; reflexivity).
  rewrite T. cbn [truthy String.eqb negb].
  match goal with |- context [if ?b then _ else _] => destruct b end;
    repeat split; try reflexivity; vm_compute; reflexivity.
Qed.

(** ** Emails, order numbers and ZIP codes *)

Lemma accepts_upper_letter (a : ascii) : accepts true is_upper a = is_letter a.
Proof. destruct a as [[] [] [] [] [] [] [] []]; vm_compute; reflexivity. Qed.

Lemma all_char_ext (f g : ascii -> bool) (s : string) :
  (forall a, f a = g a) -> all_char f s = all_char g s.
Proof. intros E. induction s as [|a s IH]; cbn; [reflexivity | now rewrite E, IH]. Qed.

(** X10. What [extractEmail] returns is a piece of the text of the form
    local@domain.tld with a non-empty local part and domain and a top-level
    domain of at least two letters. *)
Theorem extractEmail_shape (text e : string) :
  extractEmail text = Some e ->
  exists before_ local domain tld after_,
    text = before_ ++ e ++ after_ /\
    e = local ++ "@" ++ domain ++ "." ++ tld /\
    1 <= String.length local /\ 1 <= String.length domain /\
    2 <= String.length tld /\ all_char is_letter tld = true.
Proof.
  unfold extractEmail, matchAll. intros H.
  cbn [scanAll] in H.
  destruct (scan true EMAIL_RE None text 0) as [m|] eqn:Hm; [|discriminate H].
  cbn [map] in H. injection H as <-.
  apply scan_sound in Hm. destruct Hm as (pre & post0 & -> & Hd & H0 & _ & _).
  unfold EMAIL_RE, plus in Hd. cbn [Den lit] in Hd.
  destruct Hd as (c1 & (n1 & Hn1 & _ & Hp1) & c2 & (c3 & (a & sa & Hra & Ha & ->) & ->) &
                  c4 & (n2 & Hn2 & _ & Hp2) & c5 & (c6 & (d & sd & Hrd & Hdot & ->) & ->) &
                  (n3 & Hn3 & _ & Hp3)).
  apply Pow_class in Hp1. destruct Hp1 as (l & Hl1 & _ & Hr1 & _).
  apply Pow_class in Hp2. destruct Hp2 as (dm & Hl2 & _ & Hr2 & _).
  apply Pow_class in Hp3. destruct Hp3 as (tld & Hl3 & Hall3 & Hr3 & _).
  cbn [rest step accepts] in *.
  assert (Ea : a = "@"%char).
  { revert Ha. destruct a as [[] [] [] [] [] [] [] []]; vm_compute; congruence. }
  assert (Ed : d = "."%char).
  { revert Hdot. destruct d as [[] [] [] [] [] [] [] []]; vm_compute; congruence. }
  subst a d.
  assert (E0 : m_0 m = l ++ "@" ++ dm ++ "." ++ tld).
  { rewrite H0, Hr1, Hra, Hr2, Hrd, Hr3.
    replace (l ++ String "@" (dm ++ String "." (tld ++ rest (m_end m))))
      with ((l ++ "@" ++ dm ++ "." ++ tld) ++ rest (m_end m)).
    - apply consumed_prefix. reflexivity.
    - rewrite ?append_assoc. cbn [append]. rewrite ?append_assoc. cbn [append].
      rewrite ?append_assoc. reflexivity. }
  exists pre, l, dm, tld, (rest (m_end m)). rewrite E0.
  split.
  { rewrite Hr1, Hra, Hr2, Hrd, Hr3.
    rewrite ?append_assoc. cbn [append]. rewrite ?append_assoc. cbn [append].
    rewrite ?append_assoc. reflexivity. }
  repeat split; try lia.
  rewrite <- Hall3. apply all_char_ext. intros x. symmetry. apply accepts_upper_letter.
Qed.

Lemma extractEmail_shape_witness :
  exists before_ local domain tld after_,
    "mail me at ann@example.com please" = before_ ++ "ann@example.com" ++ after_ /\
    "ann@example.com" = local ++ "@" ++ domain ++ "." ++ tld /\
    1 <= String.length local /\ 1 <= String.length domain /\
    2 <= String.length tld /\ all_char is_letter tld = true.
Proof.
  apply (@extractEmail_shape "mail me at ann@example.com please" "ann@example.com").
  vm_compute. reflexivity.
Defined.

Lemma lower_is_no_upper (a : ascii) : is_upper (toLowerChar a) = false.
Proof. destruct a as [[] [] [] [] [] [] [] []]; vm_compute; reflexivity. Qed.

(** With the flag [i], an upper-case letter of a pattern accepts the
    characters that upper-case to it. *)
Lemma accepts_upper_only (u a : ascii) :
  is_upper u = true -> accepts true (Ascii.eqb u) a = true -> toUpperChar a = u.
Proof.
  intros Hu H. unfold accepts in H. apply orb_true_iff in H. destruct H as [H|H];
    apply Ascii.eqb_eq in H; [now symmetry|].
  rewrite H, lower_is_no_upper in Hu. discriminate.
Qed.

(** What a literal of upper-case letters reads under the flag [i]. *)
Lemma lit_upper_reads (s : string) :
  all_char is_upper s = true ->
  forall c c', Den true (lit s) c c' ->
    exists x, rest c = x ++ rest c' /\ toUpperCase x = s /\
              before c' = last_char (before c) x /\ groups c' = groups c.
Proof.
  induction s as [|u s IH]; intros Hs c c' H; cbn [lit Den] in H.
  - subst c'. exists "". auto.
  - cbn in Hs. apply andb_true_iff in Hs. destruct Hs as [Hu Hs].
    destruct H as (mid & (a & s' & Hr & Ha & ->) & H).
    destruct (IH Hs _ _ H) as (x & Hx & Hup & Hb & Hg).
    cbn [step rest before groups] in *.
    exists (String a x). cbn [append toUpperCase map_string last_char].
    fold (toUpperCase x). rewrite Hr, Hx, Hup, (@accepts_upper_only u a Hu Ha). auto.
Qed.

Lemma space_is_no_word (a : ascii) : accepts true is_space a = true -> is_word a = false.
Proof. destruct a as [[] [] [] [] [] [] [] []]; vm_compute; congruence. Qed.

Lemma hash_is_no_word (a : ascii) : accepts true (Ascii.eqb "#") a = true -> is_word a = false.
Proof. destruct a as [[] [] [] [] [] [] [] []]; vm_compute; congruence. Qed.

Lemma any_char_append (cls : ascii -> bool) (x y : string) :
  any_char cls (x ++ y) = any_char cls x || any_char cls y.
Proof. induction x as [|a x IH]; cbn; [reflexivity|]. now rewrite IH, orb_assoc. Qed.

Lemma none_is_word (cls : ascii -> bool) (x : string) :
  (forall a, cls a = true -> is_word a = false) ->
  all_char cls x = true -> any_char is_word x = false.
Proof.
  intros Hc. induction x as [|a x IH]; cbn; [reflexivity|]. intros H.
  apply andb_true_iff in H. destruct H as [Ha H]. now rewrite (Hc a Ha), IH.
Qed.

(** What [\s*] reads. *)
Lemma spaces_read (c c' : cursor) :
  Den true (star space) c c' ->
  exists x, rest c = x ++ rest c' /\ any_char is_word x = false /\ groups c' = groups c.
Proof.
  unfold star, space. cbn [Den]. intros (n & _ & _ & Hp).
  apply Pow_class in Hp. destruct Hp as (x & _ & Hall & Hr & _ & Hg).
  exists x. repeat split; try assumption.
  apply (@none_is_word _ x space_is_no_word Hall).
Qed.

(** What [#?] reads. *)
Lemma hash_reads (c c' : cursor) :
  Den true (opt (lit "#")) c c' ->
  exists x, rest c = x ++ rest c' /\ any_char is_word x = false /\ groups c' = groups c.
Proof.
  unfold opt. cbn [Den lit]. intros (n & _ & Hn & Hp). specialize (Hn 1 eq_refl).
  destruct n as [|[|n]]; [| |lia]; cbn [Pow] in Hp.
  - subst c'. exists "". auto.
  - destruct Hp as (mid & (e & (a & s' & Hr & Ha & ->) & ->) & _ & ->).
    cbn [step rest groups]. exists (String a ""). cbn [append any_char].
    rewrite (hash_is_no_word a Ha). auto.
Qed.

Lemma order_char_upper (a : ascii) :
  accepts true (fun c => upper_or_digit c || one_of "-" c) a = true ->
  order_char (toUpperChar a) = true.
Proof. destruct a as [[] [] [] [] [] [] [] []]; vm_compute; congruence. Qed.

Lemma order_chars_upper (ds : string) :
  all_char (accepts true (fun c => upper_or_digit c || one_of "-" c)) ds = true ->
  all_char order_char (toUpperCase ds) = true.
Proof.
  induction ds as [|a ds IH]; cbn; [reflexivity|]. intros H.
  apply andb_true_iff in H. destruct H as [Ha H].
  rewrite (order_char_upper a Ha). now apply IH.
Qed.

Lemma upper_is_word (a : ascii) : is_upper (toUpperChar a) = true -> is_word a = true.
Proof. destruct a as [[] [] [] [] [] [] [] []]; vm_compute; congruence. Qed.

(** X11. What [extractOrderId] returns comes after the keyword: the text
    is some text, then ORD or ORDER in either letter case with no word character
    before it, then white space and at most one # (no word character), then the
    id as typed, five to twenty characters out of the letters, the digits and
    the hyphen, with a word boundary after it; the value returned is the id in
    upper case.  Nothing asks for a digit: a word of five letters after the
    keyword is taken for an order number. *)
Theorem extractOrderId_shape (text id : string) :
  extractOrderId text = Some id ->
  exists pre kw sep id0 after_,
    text = pre ++ kw ++ sep ++ id0 ++ after_ /\
    (toUpperCase kw = "ORD" \/ toUpperCase kw = "ORDER") /\
    any_char is_word sep = false /\
    id = toUpperCase id0 /\
    5 <= String.length id <= 20 /\ all_char order_char id = true /\
    ends_with_word pre = false /\
    xorb (ends_with_word id0) (starts_with_word after_) = true.
Proof.
  unfold extractOrderId. intros H.
  destruct (exec true ORDER_RE text) as [m|] eqn:Hm; [|discriminate H].
  apply scan_sound in Hm. destruct Hm as (pre & post0 & -> & Hd & _ & Hg & _).
  unfold ORDER_RE in Hd.
  destruct Hd as (c1 & (Hb1 & ->) & c2 & (e1 & Hkw & ->) & c3 & Hsp1 & c4 & Hhash & c5 & Hsp2 &
                  c6 & (e2 & Hid & ->) & (Hb2 & Hend)).
  cbn [matchN] in H. rewrite Hg, Hend in H. cbn [set_group groups group Nat.eqb] in H.
  destruct Hid as (n & Hlo & Hhi & Hp). specialize (Hhi 20 eq_refl).
  apply Pow_class in Hp. destruct Hp as (ds & Hl & Hall & Hr5 & Hbf5 & _).
  assert (Hc : consumed c5 e2 = ds).
  { destruct c5 as [b5 r5 g5]. cbn [rest] in Hr5. subst r5. apply consumed_prefix. reflexivity. }
  rewrite Hc in H.
  assert (Hne : truthy (Some ds) = true).
  { destruct ds; [cbn in Hl; lia | reflexivity]. }
  rewrite Hne in H. cbn [option_map] in H. injection H as <-.
  (* the keyword *)
  assert (Hk : exists kw, post0 = kw ++ rest e1 /\
                          (toUpperCase kw = "ORD" \/ toUpperCase kw = "ORDER")).
  { destruct Hkw as [Ha|Ha]; apply lit_upper_reads in Ha; try reflexivity;
      destruct Ha as (kw & Hr & Hup & _); cbn [rest] in Hr; exists kw; auto. }
  destruct Hk as (kw & Hk & Hup).
  cbn [set_group rest] in Hsp1.
  destruct (@spaces_read _ _ Hsp1) as (x1 & Hx1 & W1 & _).
  destruct (@hash_reads _ _ Hhash) as (x2 & Hx2 & W2 & _).
  destruct (@spaces_read _ _ Hsp2) as (x3 & Hx3 & W3 & _).
  cbn [set_group rest] in Hx1.
  exists pre, kw, (x1 ++ x2 ++ x3), ds, (rest e2).
  split.
  { rewrite Hk, Hx1, Hx2, Hx3, Hr5. rewrite !append_assoc. reflexivity. }
  split; [exact Hup|].
  split; [now rewrite !any_char_append, W1, W2, W3|].
  split; [reflexivity|].
  split; [rewrite toUpperCase_length; lia|].
  split; [apply order_chars_upper; exact Hall|].
  split.
  - (* no word character before the keyword *)
    assert (Wk : word_after {| before := last_char None pre; rest := post0; groups := [] |} = true).
    { unfold word_after. cbn [rest]. rewrite Hk.
      destruct kw as [|a kw]; [destruct Hup as [E|E]; discriminate E|].
      cbn [append]. apply upper_is_word.
      destruct Hup as [E|E]; cbn in E; injection E as E _; rewrite E; reflexivity. }
    unfold boundary in Hb1. rewrite Wk in Hb1.
    unfold word_before in Hb1. cbn [before] in Hb1. unfold ends_with_word.
    destruct (match last_char None pre with Some a => is_word a | None => false end);
      [discriminate | reflexivity].
  - (* a word boundary after the id *)
    rewrite Hend in *. unfold boundary, word_before, word_after in Hb2.
    cbn [set_group before rest] in Hb2. rewrite Hbf5 in Hb2.
    unfold ends_with_word, starts_with_word.
    destruct ds as [|d ds]; [cbn in Hl; lia|].
    cbn [last_char] in *. 
    replace (last_char None (String d ds)) with (last_char (before c5) (String d ds)); [exact Hb2|].
    reflexivity.
Qed.

Lemma extractOrderId_shape_witness :
  exists pre kw sep id0 after_,
    "where is my order status" = pre ++ kw ++ sep ++ id0 ++ after_ /\
    (toUpperCase kw = "ORD" \/ toUpperCase kw = "ORDER") /\
    any_char is_word sep = false /\
    "STATUS" = toUpperCase id0 /\
    5 <= String.length "STATUS" <= 20 /\ all_char order_char "STATUS" = true /\
    ends_with_word pre = false /\
    xorb (ends_with_word id0) (starts_with_word after_) = true.
Proof.
  apply (@extractOrderId_shape "where is my order status" "STATUS").
  vm_compute. reflexivity.
Defined.

(** X12. What [extractZip] returns is a piece of the text made of five
    digits, or five digits, a hyphen and four digits, with no word character
    right before or right after it. *)
Theorem extractZip_shape (text z : string) :
  extractZip text = Some z ->
  exists before_ d5 ext after_,
    text = before_ ++ z ++ after_ /\ z = d5 ++ ext /\
    all_digits d5 = true /\ String.length d5 = 5 /\
    (ext = "" \/ exists d4, ext = "-" ++ d4 /\ all_digits d4 = true /\ String.length d4 = 4) /\
    ends_with_word before_ = false /\ starts_with_word after_ = false.
Proof.
  unfold extractZip, match0. intros H.
  destruct (exec false ZIP_RE text) as [m|] eqn:Hm; [|discriminate]. injection H as <-.
  apply scan_sound in Hm. destruct Hm as (pre & post0 & -> & Hd & H0 & _ & _).
  unfold ZIP_RE, opt in Hd.
  destruct Hd as (c1 & (Hb1 & ->) & c2 & H5 & c3 & (n & _ & Hn & Hopt) & (Hb3 & Hend)).
  rewrite Hend in *. clear Hend.
  apply Rep_digits in H5. destruct H5 as (d5 & Hl5 & Hall5 & Hr5 & Hbf5 & _).
  cbn [rest before] in Hr5, Hbf5.
  specialize (Hn 1 eq_refl).
  destruct (@all_digits_last (last_char None pre) d5 Hall5 ltac:(lia)) as (x5 & Hx5 & Hd5).
  assert (Hpre : ends_with_word pre = false).
  { destruct d5 as [|a d5]; [cbn in Hl5; lia|].
    cbn in Hall5. apply andb_true_iff in Hall5. destruct Hall5 as [Ha _].
    pose proof (@not_word_before _ a (d5 ++ rest c2) Hb1 Hr5 (proj1 (is_digit_facts a Ha))) as W.
    exact W. }
  destruct n as [|[|n]]; [| |lia]; cbn [Pow] in Hopt.
  - subst c3. exists pre, d5, "", (rest c2).
    assert (E0 : m_0 m = d5).
    { rewrite H0, Hr5. apply consumed_prefix. reflexivity. }
    rewrite E0. split; [now rewrite Hr5|]. split; [now rewrite append_empty_r|].
    repeat split; auto; try lia.
    apply (@not_word_after c2 x5 Hb3); [now rewrite Hbf5 | apply (is_digit_facts x5 Hd5)].
  - destruct Hopt as (mid & Hdash & _ & ->).
    destruct Hdash as (e1 & (e2 & (a & s' & Hra & Ha & ->) & ->) & H4).
    apply Rep_digits in H4. destruct H4 as (d4 & Hl4 & Hall4 & Hr4 & Hbf4 & _).
    cbn [rest before step accepts] in *. apply Ascii.eqb_eq in Ha. subst a.
    destruct (@all_digits_last (Some "-"%char) d4 Hall4 ltac:(lia)) as (x4 & Hx4 & Hd4).
    exists pre, d5, ("-" ++ d4), (rest mid).
    assert (E0 : m_0 m = d5 ++ "-" ++ d4).
    { rewrite H0, Hr5, Hra, Hr4.
      replace (d5 ++ String "-" (d4 ++ rest mid)) with ((d5 ++ "-" ++ d4) ++ rest mid).
      - apply consumed_prefix. reflexivity.
      - rewrite append_assoc. cbn [append]. rewrite ?append_assoc. reflexivity. }
    rewrite E0. split.
    { rewrite Hr5, Hra, Hr4. rewrite ?append_assoc. cbn [append]. rewrite ?append_assoc.
      reflexivity. }
    split; [reflexivity|]. split; [exact Hall5|]. split; [lia|].
    split; [right; exists d4; repeat split; auto; lia|].
    split; [exact Hpre|].
    apply (@not_word_after mid x4 Hb3); [now rewrite Hbf4 | apply (is_digit_facts x4 Hd4)].
Qed.

Lemma extractZip_shape_witness :
  exists before_ d5 ext after_,
    "ORDER #A1B2C3 19104" = before_ ++ "19104" ++ after_ /\ "19104" = d5 ++ ext /\
    all_digits d5 = true /\ String.length d5 = 5 /\
    (ext = "" \/ exists d4, ext = "-" ++ d4 /\ all_digits d4 = true /\ String.length d4 = 4) /\
    ends_with_word before_ = false /\ starts_with_word after_ = false.
Proof.
  apply (@extractZip_shape "ORDER #A1B2C3 19104" "19104").
  vm_compute. reflexivity.
Defined.


(** ** Messages reduced to their letters *)

Lemma substring_all (s : string) : forall m, String.length s <= m -> substring 0 m s = s.
Proof.
  induction s as [|a s IH]; intros m H; [destruct m; reflexivity|].
  destruct m as [|m]; cbn in H; [lia|]. cbn. rewrite IH; [reflexivity | lia].
Qed.

Lemma substring_suffix (x y : string) (m : nat) :
  substring (String.length x) m (x ++ y) = substring 0 m y.
Proof. induction x as [|a x IH]; cbn; [reflexivity | exact IH]. Qed.

Lemma keep_append (cls : ascii -> bool) (x y : string) :
  keep cls (x ++ y) = keep cls x ++ keep cls y.
Proof.
  induction x as [|a x IH]; cbn; [reflexivity|]. rewrite IH. destruct (cls a); reflexivity.
Qed.

Lemma keep_none (cls : ascii -> bool) (x : string) :
  any_char (fun c => negb (cls c)) x = false -> keep cls x = x.
Proof.
  induction x as [|a x IH]; cbn; [reflexivity|]. intros H.
  apply orb_false_iff in H. destruct H as [Ha H]. apply negb_false_iff in Ha.
  now rewrite Ha, IH.
Qed.

(** The first character of a class, where the scan of the one-character
    pattern stops. *)
Lemma scan_class_first (cls : ascii -> bool) (s : string) :
  forall prev i,
    match scan false (Chr cls) prev s i with
    | None => any_char cls s = false
    | Some m =>
        exists pre a post,
          s = pre ++ String a post /\ any_char cls pre = false /\ cls a = true /\
          m_index m = i + String.length pre /\ m_0 m = String a "" /\
          rest (m_end m) = post /\ before (m_end m) = Some a
    end.
Proof.
  induction s as [|a s IH]; intros prev i; cbn [scan run rest accepts].
  - reflexivity.
  - destruct (cls a) eqn:Ha.
    + exists "", a, s. cbn [append any_char String.length m_index m_0 m_end step rest before].
      rewrite Nat.add_0_r. repeat split; try assumption.
      change (String a s) with (String a "" ++ s). apply consumed_prefix. reflexivity.
    + specialize (IH (Some a) (S i)).
      destruct (scan false (Chr cls) (Some a) s (S i)) as [m|].
      * destruct IH as (pre & b & post & -> & Hpre & Hb & Hi & H0 & Hr & Hbf).
        exists (String a pre), b, post. cbn [append any_char String.length].
        rewrite Ha, Hpre. repeat split; try assumption. lia.
      * cbn [any_char]. now rewrite Ha, IH.
Qed.

Lemma replaceAll_class_fuel (cls : ascii -> bool) (fuel : nat) :
  forall s prev i,
    String.length s < fuel ->
    splice (scanAll fuel false (Chr cls) prev s i) "" i s = keep (fun c => negb (cls c)) s.
Proof.
  induction fuel as [|fuel IH]; intros s prev i Hf; [lia|].
  cbn [scanAll]. pose proof (scan_class_first cls s prev i) as Hs.
  destruct (scan false (Chr cls) prev s i) as [m|].
  - destruct Hs as (pre & a & post & -> & Hpre & Ha & Hi & H0 & Hr & Hbf).
    rewrite H0, Hr, Hbf. cbn [splice]. rewrite H0, Hi.
    replace (i + String.length pre - i) with (String.length pre) by lia.
    cbn [String.length]. rewrite substring_prefix. cbn [append].
    replace (String.length pre + 1) with (String.length (pre ++ String a "")).
    2:{ rewrite length_append. reflexivity. }
    replace (pre ++ String a post) with ((pre ++ String a "") ++ post).
    2:{ rewrite append_assoc. reflexivity. }
    rewrite substring_suffix, substring_all.
    2:{ rewrite !length_append. cbn. lia. }
    rewrite length_append in Hf. cbn [String.length] in Hf.
    rewrite IH by lia.
    rewrite append_assoc, keep_append. cbn [append keep]. rewrite Ha. cbn [negb].
    rewrite (@keep_none _ pre); [reflexivity|].
    clear -Hpre. induction pre as [|b pre IHp]; cbn in *; [reflexivity|].
    apply orb_false_iff in Hpre. destruct Hpre as [-> Hp]. cbn. apply IHp, Hp.
  - cbn [splice]. symmetry. apply keep_none.
    clear -Hs. induction s as [|b s IHs]; cbn in *; [reflexivity|].
    apply orb_false_iff in Hs. destruct Hs as [-> Hp]. cbn. apply IHs, Hp.
Qed.

Lemma replaceAll_class (cls : ascii -> bool) (s : string) :
  replaceAll false (Chr cls) "" s = keep (fun c => negb (cls c)) s.
Proof. unfold replaceAll. apply replaceAll_class_fuel. lia. Qed.

Lemma keep_ext (f g : ascii -> bool) (s : string) :
  (forall c, f c = g c) -> keep f s = keep g s.
Proof. intros E. induction s as [|a s IH]; cbn; [reflexivity|]. now rewrite E, IH. Qed.

Lemma keep_idem (cls : ascii -> bool) (s : string) : keep cls (keep cls s) = keep cls s.
Proof.
  induction s as [|a s IH]; cbn; [reflexivity|].
  destruct (cls a) eqn:E; cbn; rewrite ?E, IH; reflexivity.
Qed.

Lemma toLowerCase_lower (s : string) : toLowerCase (keep is_lower s) = keep is_lower s.
Proof.
  unfold toLowerCase. induction s as [|a s IH]; cbn; [reflexivity|].
  destruct (is_lower a) eqn:E; [|exact IH]. cbn. rewrite IH. f_equal.
  revert E. destruct a as [[] [] [] [] [] [] [] []]; vm_compute; congruence.
Qed.

Lemma onlyLetters_keep (s : string) : onlyLetters s = keep is_lower (toLowerCase s).
Proof.
  unfold onlyLetters, NON_LETTER_RE. rewrite replaceAll_class.
  apply keep_ext. intros c. apply negb_involutive.
Qed.

Lemma ack_is_no_yes_no (s : string) : looksLikeAck s = true -> parseYesNo s = None.
Proof.
  unfold parseYesNo, looksLikeAck. set (t := onlyLetters s). intros H.
  repeat (apply orb_true_iff in H; destruct H as [H|H]);
    apply String.eqb_eq in H; rewrite H; reflexivity.
Qed.

(** X13. [onlyLetters] lower-cases the message and keeps its letters a-z, in
    order, and nothing else; doing it twice changes nothing, so yes/no answers
    and acknowledgements are read the same whatever the punctuation, digits,
    spaces or letter case around them. An acknowledgement is never a yes or a
    no. *)
Theorem onlyLetters_keeps_the_letters (s : string) :
  onlyLetters s = keep is_lower (toLowerCase s) /\
  onlyLetters (onlyLetters s) = onlyLetters s /\
  parseYesNo (onlyLetters s) = parseYesNo s /\
  looksLikeAck (onlyLetters s) = looksLikeAck s /\
  (looksLikeAck s = true -> parseYesNo s = None).
Proof.
  assert (I : onlyLetters (onlyLetters s) = onlyLetters s).
  { rewrite !onlyLetters_keep. now rewrite toLowerCase_lower, keep_idem. }
  split; [apply onlyLetters_keep|]. split; [exact I|].
  unfold parseYesNo, looksLikeAck. rewrite I. repeat split.
  apply ack_is_no_yes_no.
Qed.

Lemma prefix_split (k : string) : forall s, prefix k s = true -> exists b, s = k ++ b.
Proof.
  induction k as [|a k IH]; intros s H.
  - exists s. reflexivity.
  - destruct s as [|c s]; [discriminate|]. rewrite prefix_cons in H.
    apply andb_true_iff in H. destruct H as [Ha H]. apply Ascii.eqb_eq in Ha. subst c.
    destruct (IH s H) as (b & ->). exists b. reflexivity.
Qed.

Lemma includes_split (s k : string) :
  includes s k = true -> exists a b, s = a ++ k ++ b.
Proof.
  induction s as [|c s IH]; cbn [includes]; intros H.
  - rewrite orb_false_r in H. apply prefix_split in H. destruct H as (b & ->).
    exists "", b. reflexivity.
  - apply orb_true_iff in H. destruct H as [H|H].
    + apply prefix_split in H. destruct H as (b & ->). exists "", b. reflexivity.
    + destruct (IH H) as (a & b & ->). exists (String c a), b. reflexivity.
Qed.

(** A text found in a message is found, letters only, in the letters of the
    message. *)
Lemma includes_keep (cls : ascii -> bool) (s k : string) :
  includes s k = true -> includes (keep cls s) (keep cls k) = true.
Proof.
  intros H. destruct (includes_split s k H) as (a & b & ->).
  rewrite !keep_append. apply includes_middle.
Qed.

Lemma ack_words (m : string) : looksLikeAck m = true -> In (onlyLetters m) ackWords.
Proof.
  unfold looksLikeAck, ackWords. intros H.
  repeat (apply orb_true_iff in H; destruct H as [H|H]);
    apply String.eqb_eq in H; rewrite H; cbn; auto 20.
Qed.

(** A keyword whose letters occur in none of the acknowledgement words is
    not in an acknowledgement. *)
Lemma ack_has_no (m k : string) :
  looksLikeAck m = true ->
  forallb (fun w => negb (includes w (keep is_lower k))) ackWords = true ->
  includes (toLowerCase m) k = false.
Proof.
  intros Hack Hall.
  destruct (includes (toLowerCase m) k) eqn:E; [|reflexivity]. exfalso.
  apply (includes_keep is_lower) in E. rewrite <- onlyLetters_keep in E.
  pose proof (ack_words m Hack) as Hin.
  rewrite forallb_forall in Hall. specialize (Hall _ Hin).
  rewrite E in Hall. discriminate.
Qed.

Lemma ack_is_no_request (m : string) :
  looksLikeAck m = true ->
  wantsHuman m = false /\ includes (toLowerCase m) "ps" = false.
Proof.
  intros H. unfold wantsHuman.
  pose proof (fun k => @ack_has_no m k H) as N.
  repeat rewrite N by (vm_compute; reflexivity). split; reflexivity.
Qed.

(** ** Slots and stickiness *)

(** A message that is no clear intent shift names no intent, no request for
    a human or for alternatives, and no entity. *)
Lemma no_shift_facts (m : string) :
  isClearIntentShift m = false ->
  inferIntent m = unknown /\
  wantsHuman m = false /\ wantsAlternatives m = false /\
  truthy (extractEmail m) = false /\
  truthy (extractOrderId m) = false /\ truthy (extractZip m) = false /\
  truthy (extractPartNumberFromLinkOrText m) = false /\
  truthy (extractModelNumber m) = false.
Proof.
  unfold isClearIntentShift.
  destruct (String.eqb_spec m "") as [->|_].
  - intros _. vm_compute. repeat split; reflexivity.
  - destruct (wantsHuman m); [discriminate|].
    destruct (wantsAlternatives m); [discriminate|]. cbn [orb].
    destruct (truthy (extractEmail m)); [discriminate|].
    destruct (truthy (extractOrderId m)); [discriminate|].
    destruct (truthy (extractZip m)); [discriminate|]. cbn [orb].
    destruct (truthy (extractPartNumberFromLinkOrText m)); [discriminate|].
    destruct (truthy (extractModelNumber m)); [discriminate|].
    destruct (inferIntent m); cbn; try discriminate. auto 10.
Qed.

(** X14. A slot that survives [shouldClearAwaiting] is the slot decoded from
    the history, the message has no global keyword and names no part, model,
    order or ZIP code, and, unless the message is a clear intent shift, the
    intent of the turn is pinned to the lane of the slot whatever the message
    says. *)
Theorem a_surviving_slot_is_sticky (m : string) (h : list ChatMessage) (s : Slot) :
  awaiting (resolveTurn m h) = Some s ->
  inferDialogState h = Some s /\
  hasGlobalIntentKeyword m = false /\
  truthy (extractPartNumberFromLinkOrText m) = false /\
  truthy (extractModelNumber m) = false /\
  truthy (extractOrderId m) = false /\ truthy (extractZip m) = false /\
  (isClearIntentShift m = false -> intent0 (resolveTurn m h) = stickyIntent s).
Proof.
  unfold resolveTurn. cbn [awaiting intent0].
  destruct (inferDialogState h) as [s0|] eqn:Hs; [|cbn [shouldClearAwaiting]; discriminate].
  rewrite shouldClearAwaiting_rule.
  destruct (hasGlobalIntentKeyword m); cbn [orb]; [discriminate|].
  destruct (truthy (extractPartNumberFromLinkOrText m)); cbn [orb]; [discriminate|].
  destruct (truthy (extractModelNumber m)); cbn [orb]; [discriminate|].
  destruct (truthy (extractOrderId m)); cbn [orb]; [discriminate|].
  destruct (truthy (extractZip m)); cbn [orb]; [discriminate|].
  match goal with |- (if ?b then _ else _) = _ -> _ => destruct b; [discriminate|] end.
  intros E. injection E as ->.
  repeat split; try reflexivity.
  intros Hshift. destruct (no_shift_facts m Hshift) as (Hi & _).
  rewrite Hi, Hshift. cbn [isSome negb andb Intent_eqb].
  rewrite !orb_true_r. cbn [orb].
  destruct s; reflexivity.
Qed.

Lemma a_surviving_slot_is_sticky_witness :
  inferDialogState connectorHistory = Some connector_latch_side /\
  hasGlobalIntentKeyword notSure = false /\
  truthy (extractPartNumberFromLinkOrText notSure) = false /\
  truthy (extractModelNumber notSure) = false /\
  truthy (extractOrderId notSure) = false /\ truthy (extractZip notSure) = false /\
  (isClearIntentShift notSure = false ->
   intent0 (resolveTurn notSure connectorHistory) = stickyIntent connector_latch_side).
Proof.
  apply (@a_surviving_slot_is_sticky notSure connectorHistory connector_latch_side).
  vm_compute. reflexivity.
Defined.

Lemma gates_pass_in_a_slot (w : World) (t : Turn) (m : string) (h : list ChatMessage) :
  isSome (awaiting t) = true ->
  hasIncompletePart (entities t) = false ->
  isClearIntentShift m = false ->
  handoffPending h = false ->
  looksLikeAck m = false ->
  gates w t m h = Next tt.
Proof.
  intros Ha Hi Hs Hp Hk.
  destruct (no_shift_facts m Hs) as (_ & Hh & _ & He & _).
  unfold gates, allowed, opensTicket, pendingHandoff.
  rewrite Ha, Hi, Hp, Hk, Hh, He. cbn [orb negb andb returnIf andThen].
  rewrite andb_false_r. reflexivity.
Qed.

Lemma followUp_consumes (w : World) (t : Turn) (m : string) (h : list ChatMessage) (s : Slot) :
  awaiting t = Some s ->
  (forall o, s <> choice o) ->
  isClearIntentShift m = false ->
  exists r, followUp w t m h = Return r /\ intent (meta r) = lane s /\
            inDomain (meta r) = true /\ extracted (meta r) = extracted (metaBase t) /\
            cards r = [].
Proof.
  intros Ha Hc Hs. unfold followUp. rewrite Ha, Hs.
  destruct s; cbn [negb andThen returnIf lane];
    try (exfalso; eapply Hc; reflexivity).
  - destruct (parsePumpSound m); cbn [PumpSound_eqb];
      try (eexists; repeat split; reflexivity).
    destruct (askGroq w m); eexists; repeat split; reflexivity.
  - destruct (parseDrainSpeed m); eexists; repeat split; reflexivity.
  - destruct (parseDrainHoseSetup m); eexists; repeat split; reflexivity.
  - destruct (parseSinkConnectionType m); eexists; repeat split; reflexivity.
  - destruct (parseYesNo m); eexists; repeat split; reflexivity.
  - destruct (parseYesNo m); eexists; repeat split; reflexivity.
  - destruct (parseYesNo m); eexists; repeat split; reflexivity.
  - destruct (parseYesNo m); eexists; repeat split; reflexivity.
  - destruct (detectInstallStepFollowup h m); eexists; repeat split; reflexivity.
  - destruct (parseClampType m); eexists; repeat split; reflexivity.
  - destruct (parsePanelFastener m); eexists; repeat split; reflexivity.
  - destruct (parseLatchSide m); [eexists; repeat split; reflexivity|].
    destruct (parseYesNo m) as [[]|]; eexists; repeat split; reflexivity.
  - destruct ask;
      match goal with |- context [returnIf ?b _] => destruct b end;
      cbn [returnIf andThen]; eexists; repeat split; reflexivity.
  - destruct (parseYesNo m); eexists; repeat split; reflexivity.
  - destruct (parseYesNo m); eexists; repeat split; reflexivity.
  - eexists; repeat split; reflexivity.
Qed.

(** X15. While a slot other than the choice after a ticket is open, a
    message that is neither a clear intent shift, an acknowledgement nor an
    incomplete part number is consumed by the follow-up of that slot: the reply
    comes from [followUp], in the lane of the slot, in domain and without a
    card, and the intent dispatch is never reached. *)
Theorem an_active_slot_consumes_the_answer (w : World) (m : string) (h : list ChatMessage)
    (s : Slot) :
  awaiting (resolveTurn m h) = Some s ->
  (forall o, s <> choice o) ->
  isClearIntentShift m = false ->
  hasIncompletePart (entities (resolveTurn m h)) = false ->
  handoffPending h = false ->
  looksLikeAck m = false ->
  let r := handleChatTurn w (turn m h) in
  followUp w (resolveTurn m h) m h = Return r /\
  intent (meta r) = lane s /\ inDomain (meta r) = true /\ cards r = [].
Proof.
  intros Ha Hc Hs Hi Hp Hk. cbv zeta. rewrite handleChatTurn_phases.
  rewrite (@gates_pass_in_a_slot w _ m h); try assumption; [|now rewrite Ha].
  cbn [andThen].
  destruct (@followUp_consumes w _ m h s Ha Hc Hs) as (r & -> & H1 & H2 & _ & H3).
  auto.
Qed.

Lemma an_active_slot_consumes_the_answer_witness :
  let r := handleChatTurn bareWorld (turn notSure connectorHistory) in
  followUp bareWorld (resolveTurn notSure connectorHistory) notSure connectorHistory = Return r /\
  intent (meta r) = lane connector_latch_side /\ inDomain (meta r) = true /\ cards r = [].
Proof.
  apply (@an_active_slot_consumes_the_answer bareWorld notSure connectorHistory
           connector_latch_side); try reflexivity.
  intros o. discriminate.
Defined.

(** X16. An acknowledgement (ok, thanks, got it, ...) that carries no email
    and no incomplete part token, sent while a slot is open and no handoff is
    pending, is answered by [replyToAck]: it is never read as a yes or a no, the
    question of the slot is asked again in the lane of the slot, and only the
    choice after a ticket and the freezer question fall back to the menu. *)
Theorem an_acknowledgement_reasks (w : World) (m : string) (h : list ChatMessage) (s : Slot) :
  looksLikeAck m = true ->
  awaiting (resolveTurn m h) = Some s ->
  truthy (extractEmail m) = false ->
  extractShortPartToken m = None ->
  handoffPending h = false ->
  let t := resolveTurn m h in
  let r := handleChatTurn w (turn m h) in
  r = replyToAck t /\
  parseYesNo m = None /\
  ((forall o, s <> choice o) -> s <> fridge_freezer_warming_yesno ->
   reply r = reask s /\ intent (meta r) = lane s) /\
  ((exists o, s = choice o) \/ s = fridge_freezer_warming_yesno ->
   reply r = replyAckMenu /\ intent (meta r) = unknown).
Proof.
  intros Hack Ha He Hshort Hp. cbv zeta.
  destruct (ack_is_no_request m Hack) as [Hh _].
  assert (E : handleChatTurn w (turn m h) = replyToAck (resolveTurn m h)).
  { rewrite handleChatTurn_phases. unfold gates, allowed, opensTicket, pendingHandoff.
    rewrite Ha, Hack, Hh, He, Hp. cbn [isSome orb negb andb returnIf andThen].
    assert (Hi : hasIncompletePart (entities (resolveTurn m h)) = false).
    { unfold resolveTurn. cbn [entities]. unfold resolveEntities. cbn [hasIncompletePart].
      now rewrite Hshort. }
    rewrite Hi. cbn [returnIf andThen]. reflexivity. }
  rewrite E. split; [reflexivity|].
  split; [apply ack_is_no_yes_no; exact Hack|].
  unfold replyToAck. rewrite Ha. split.
  - intros Hc Hf. destruct s; try (split; reflexivity).
    + exfalso. eapply Hc. reflexivity.
    + congruence.
  - intros [(o & ->)| ->]; split; reflexivity.
Qed.

Lemma an_acknowledgement_reasks_witness :
  let m := "OK!" in
  let h := connectorHistory in
  let t := resolveTurn m h in
  let r := handleChatTurn bareWorld (turn m h) in
  r = replyToAck t /\
  parseYesNo m = None /\
  ((forall o, connector_latch_side <> choice o) ->
   connector_latch_side <> fridge_freezer_warming_yesno ->
   reply r = reask connector_latch_side /\ intent (meta r) = lane connector_latch_side) /\
  ((exists o, connector_latch_side = choice o) \/
   connector_latch_side = fridge_freezer_warming_yesno ->
   reply r = replyAckMenu /\ intent (meta r) = unknown).
Proof.
  apply (@an_acknowledgement_reasks bareWorld "OK!" connectorHistory connector_latch_side);
    vm_compute; reflexivity.
Defined.

(** ** The human handoff *)

Lemma wantsHuman_allowed (t : Turn) (m : string) : wantsHuman m = true -> allowed t m = true.
Proof.
  intros H. unfold allowed. rewrite H. rewrite !orb_true_r. reflexivity.
Qed.

(** X17. A request for a human is never turned away by the domain filter and
    never reaches a slot or the intent dispatch: unless the message holds an
    incomplete part number, the reply is in the order-support lane, a ticket
    when the message carries an email and the request for an email
    otherwise. *)
Theorem a_request_for_a_human_is_always_served (w : World) (m : string)
    (h : list ChatMessage) :
  wantsHuman m = true ->
  hasIncompletePart (entities (resolveTurn m h)) = false ->
  let r := handleChatTurn w (turn m h) in
  intent (meta r) = order_support /\ inDomain (meta r) = true /\
  (truthy (extractEmail m) = true ->
   toolsUsed (meta r) = ["toolCreateSupportTicketDemo"] /\
   reply r = replyTicket (ticketId (createSupportTicketDemo w))) /\
  (truthy (extractEmail m) = false ->
   toolsUsed (meta r) = [] /\ reply r = replyAskEmail).
Proof.
  intros Hh Hi. cbv zeta. rewrite handleChatTurn_phases. unfold gates.
  rewrite (wantsHuman_allowed _ m Hh), Hi.
  cbn [negb returnIf andThen]. unfold opensTicket. rewrite Hh, orb_true_r, andb_true_r.
  destruct (truthy (extractEmail m)); cbn [returnIf andThen orb];
    repeat split; try reflexivity; discriminate.
Qed.

Lemma a_request_for_a_human_is_always_served_witness :
  let m := "let me talk to a human agent" in
  let r := handleChatTurn bareWorld (turn m []) in
  intent (meta r) = order_support /\ inDomain (meta r) = true /\
  (truthy (extractEmail m) = true ->
   toolsUsed (meta r) = ["toolCreateSupportTicketDemo"] /\
   reply r = replyTicket (ticketId (createSupportTicketDemo bareWorld))) /\
  (truthy (extractEmail m) = false ->
   toolsUsed (meta r) = [] /\ reply r = replyAskEmail).
Proof.
  apply (@a_request_for_a_human_is_always_served bareWorld "let me talk to a human agent" []);
    vm_compute; reflexivity.
Defined.

Lemma skipn_app_tail {A} (a b : list A) (n : nat) :
  n <= List.length b ->
  skipn (List.length (a ++ b) - n) (a ++ b) = skipn (List.length b - n) b.
Proof.
  intros H. rewrite length_app, skipn_app.
  replace (List.length a + List.length b - n) with (List.length a + (List.length b - n)) by lia.
  rewrite skipn_all2 by lia.
  replace (List.length a + (List.length b - n) - List.length a) with (List.length b - n) by lia.
  reflexivity.
Qed.

(** The last user turns of a history that has enough of them do not
    depend on what came before. *)
Lemma lastNUser_forgets (old h : list ChatMessage) (n : nat) :
  S n <= List.length (filter (fun x => Role_eqb (role x) user) h) ->
  lastNUser (old ++ h) (S n) = lastNUser h (S n).
Proof.
  intros H. unfold lastNUser, slice_last. rewrite filter_app. apply skipn_app_tail. exact H.
Qed.

(** X18. A ticket is opened exactly when the message carries an email and
    a human is requested in this message or in one of the last ten user turns
    of the history; a request further back is forgotten, since once the history
    has ten user turns nothing before them is read.  The pending-handoff state
    alone never opens a ticket.  When one is opened (and the message passes the
    domain filter and has no incomplete part number) the reply reports the
    ticket in the order-support lane. *)
Theorem a_ticket_needs_an_email_and_a_request (w : World) (m : string)
    (h old : list ChatMessage) :
  (opensTicket m h = true <->
   truthy (extractEmail m) = true /\
   (wantsHuman m = true \/
    exists u, In u (lastNUser h 10) /\ wantsHuman (content u) = true)) /\
  (10 <= List.length (filter (fun x => Role_eqb (role x) user) h) ->
   everRequestedHuman (old ++ h) = everRequestedHuman h) /\
  (pendingHandoff m h = true -> opensTicket m h = false) /\
  (opensTicket m h = true ->
   allowed (resolveTurn m h) m = true ->
   hasIncompletePart (entities (resolveTurn m h)) = false ->
   let r := handleChatTurn w (turn m h) in
   reply r = replyTicket (ticketId (createSupportTicketDemo w)) /\
   intent (meta r) = order_support /\
   toolsUsed (meta r) = ["toolCreateSupportTicketDemo"]).
Proof.
  assert (E : opensTicket m h = truthy (extractEmail m) && (everRequestedHuman h || wantsHuman m)).
  { unfold opensTicket, pendingHandoff.
    destruct (truthy (extractEmail m)); cbn [andb negb]; [|reflexivity].
    now rewrite andb_false_r, orb_false_r. }
  split; [|split; [|split]].
  - rewrite E. unfold everRequestedHuman. split.
    + intros H. apply andb_true_iff in H. destruct H as [He H]. split; [exact He|].
      apply orb_true_iff in H. destruct H as [H|H]; [right | left; exact H].
      apply existsb_exists in H. exact H.
    + intros [He [H|H]]; rewrite He; cbn [andb].
      * rewrite H. apply orb_true_r.
      * apply orb_true_iff. left. apply existsb_exists. exact H.
  - intros H. unfold everRequestedHuman. now rewrite (@lastNUser_forgets old h 9 H).
  - unfold opensTicket, pendingHandoff.
    destruct (truthy (extractEmail m)); cbn [andb negb]; [|reflexivity].
    rewrite andb_false_r. discriminate.
  - intros H H0 H1. cbv zeta.
    rewrite handleChatTurn_phases. unfold gates. rewrite H0, H1.
    cbn [negb returnIf andThen]. rewrite H.
    cbn [returnIf andThen]. repeat split; reflexivity.
Qed.

(** The same email opens a ticket nine user turns after the request for a
    human, and none ten turns after it. *)
Lemma a_request_is_forgotten_example :
  let m := "my email is ann@example.com" in
  opensTicket m (afterTheRequest 9) = true /\
  opensTicket m (afterTheRequest 10) = false.
Proof. vm_compute. split; reflexivity. Qed.

(** ** What every reply carries *)

Ltac split_flow H :=
  repeat match type of H with
         | context [match ?x with _ => _ end] =>
             lazymatch x with
             | context [match _ with _ => _ end] => fail
             | _ => destruct x eqn:?
             end
         | _ => progress cbn [andThen returnIf negb andb orb] in H
         end.

Lemma gates_returns (w : World) (t : Turn) (m : string) (h : list ChatMessage)
    (r : ChatResponse) :
  gates w t m h = Return r ->
  (allowed t m = false /\
   r = say replyOutOfDomain (withIntent (withInDomain (metaBase t) false) unknown)) \/
  (allowed t m = true /\ keepsEntities t r /\
   ((toolsUsed (meta r) = [] /\ sources (meta r) = [] /\ cards r = []) \/
    (toolsUsed (meta r) = ["toolCreateSupportTicketDemo"] /\ cards r = [] /\
     opensTicket m h = true))).
Proof.
  unfold gates, keepsEntities. intros H.
  destruct (allowed t m); cbn [negb returnIf andThen] in H.
  2:{ left. injection H as <-. auto. }
  right. split; [reflexivity|].
  destruct (hasIncompletePart (entities t)); cbn [returnIf andThen] in H.
  { injection H as <-. cbn. auto 10. }
  destruct (opensTicket m h); cbn [returnIf andThen] in H.
  { injection H as <-. cbn. auto 10. }
  destruct (wantsHuman m || pendingHandoff m h); cbn [returnIf andThen] in H.
  { injection H as <-. cbn. auto 10. }
  destruct (looksLikeAck m); cbn [returnIf andThen] in H.
  { injection H as <-. unfold replyToAck.
    destruct (awaiting t) as [[]|]; cbn; auto 10. }
  destruct (looksLikeSmallTalk m && negb (isSome (awaiting t))); cbn [returnIf andThen] in H.
  { injection H as <-. cbn. auto 10. }
  discriminate.
Qed.

Lemma followUp_returns (w : World) (t : Turn) (m : string) (h : list ChatMessage)
    (r : ChatResponse) :
  followUp w t m h = Return r ->
  keepsEntities t r /\
  ((toolsUsed (meta r) = [] /\ sources (meta r) = [] /\ cards r = []) \/
   (toolsUsed (meta r) = ["groqParsePumpSound"] /\ sources (meta r) = [] /\ cards r = [] /\
    awaiting t = Some pump_sound /\ parsePumpSound m = unknown_sound /\
    askGroq w m <> unknown_sound)).
Proof.
  unfold followUp, keepsEntities. intros H.
  destruct (awaiting t) as [[]|] eqn:Ha; cbn [andThen returnIf] in H;
    try discriminate;
    destruct (isClearIntentShift m); cbn [negb andThen returnIf andb] in H;
    try discriminate.
  all: try (split_flow H; try discriminate; injection H as <-; cbn; auto 10; fail).
  all: try (destruct (parsePumpSound m) eqn:Hp; cbn [PumpSound_eqb] in H;
            [injection H as <-; cbn; auto 10 ..|];
            destruct (askGroq w m) eqn:Hg; cbn [PumpSound_eqb negb] in H;
            injection H as <-; cbn;
            (split; [auto|]); first [left; auto; fail | right; repeat split; auto; discriminate]).
  all: destruct ask; destruct (truthy (extractOrderId m)); destruct (truthy (extractZip m));
    cbn [negb andb orb returnIf andThen] in H; injection H as <-; cbn; auto 10.
Qed.

Lemma dispatch_shape (w : World) (t : Turn) (i : Intent) (m : string) :
  let r := dispatch w t i m in
  keepsEntities t r /\
  ((toolsUsed (meta r) = [] /\ sources (meta r) = [] /\ cards r = []) \/
   (toolsUsed (meta r) = ["toolCheckCompatibility"] /\ cards r = [] /\
    truthy (partNumber (entities t)) = true /\ truthy (modelNumber (entities t)) = true) \/
   (toolsUsed (meta r) = ["toolSearchGuides"] /\ cards r = [] /\
    truthy (partNumber (entities t)) = true) \/
   (toolsUsed (meta r) = ["toolLookupPart"] /\
    truthy (extractPartNumberFromLinkOrText m) = true /\
    (cards r = [] \/
     exists p, cards r = [cardOf p] /\
               Tools.part (Tools.toolLookupPart (parts_sample w)
                             (orElse (extractPartNumberFromLinkOrText m) "")) = Some p))).
Proof.
  unfold keepsEntities. destruct i; cbn [dispatch].
  - (* part_lookup *)
    unfold partLookup.
    destruct (truthy (extractPartNumberFromLinkOrText m)) eqn:Hp; cbn [negb].
    + destruct (Tools.part _) as [p|] eqn:Hpart.
      * destruct (wantsAlternatives m); cbn; (split; [auto|]);
          right; right; right; repeat split; right; exists p; auto.
      * cbn. split; [auto|]. right; right; right. auto.
    + cbn. auto 10.
  - (* compatibility_check *)
    unfold compatibility.
    destruct (truthy (partNumber (entities t))); destruct (truthy (modelNumber (entities t)));
      cbn; auto 10.
  - (* installation_help *)
    unfold installation.
    destruct (truthy (partNumber (entities t))); cbn [negb]; [|cbn; auto 10].
    match goal with |- context [if ?b then _ else _] => destruct b end; cbn; auto 10.
  - unfold troubleshoot. destruct (Appliance_eqb (appliance t) dishwasher); cbn; auto 10.
  - unfold orderSupport.
    repeat match goal with |- context [if ?b then _ else _] => destruct b end; cbn; auto 10.
  - cbn. auto 10.
Qed.

(** X20. Every reply of [handleChatTurn] reports, as extracted, the part
    number, model number and appliance resolved for the turn, and as inDomain
    the verdict of the domain filter; the only reply marked out of domain is the
    redirect message with intent unknown. *)
Theorem every_reply_echoes_the_turn (w : World) (m : string) (h : list ChatMessage) :
  let t := resolveTurn m h in
  let r := handleChatTurn w (turn m h) in
  extracted (meta r) =
    {| x_partNumber := partNumber (entities t); x_modelNumber := modelNumber (entities t);
       x_appliance := appliance t |} /\
  inDomain (meta r) = allowed t m /\
  (inDomain (meta r) = false <->
   r = say replyOutOfDomain (withIntent (withInDomain (metaBase t) false) unknown)).
Proof.
  cbv zeta. rewrite handleChatTurn_phases.
  destruct (gates w (resolveTurn m h) m h) as [r|[]] eqn:Hg; cbn [andThen].
  - destruct (gates_returns _ _ _ _ Hg) as [(Ha & ->)|(Ha & (H1 & H2) & _)].
    + rewrite Ha. cbn. repeat split; auto.
    + rewrite Ha, H1, H2. repeat split; auto; try discriminate.
      intros ->. cbn in H1. discriminate.
  - assert (Ha : allowed (resolveTurn m h) m = true).
    { unfold gates in Hg. destruct (allowed (resolveTurn m h) m); [reflexivity|].
      cbn in Hg. discriminate. }
    rewrite Ha.
    destruct (followUp w (resolveTurn m h) m h) as [r|i] eqn:Hf.
    + destruct (followUp_returns _ _ _ _ Hf) as ((H1 & H2) & _).
      rewrite H1, H2. repeat split; auto; try discriminate.
      intros ->. cbn in H1. discriminate.
    + destruct (dispatch_shape w (resolveTurn m h) i m) as ((H1 & H2) & _).
      rewrite H1, H2. repeat split; auto; try discriminate.
      intros E. rewrite E in H1. cbn in H1. discriminate.
Qed.

(** X21. A reply names at most one tool and carries at most one card, and
    a tool is named only with what it needs in hand: the ticket tool when the
    ticket condition holds, the compatibility tool with a part and a model
    number, the guide search with a part number, the part lookup with a part
    number in the message itself, the classifier only in the pump-sound slot
    after the rule-based parser gave up. A card is always the card of the part
    that the lookup returned. *)
Theorem tools_are_called_with_what_they_need (w : World) (m : string) (h : list ChatMessage) :
  let t := resolveTurn m h in
  let r := handleChatTurn w (turn m h) in
  toolDiscipline w t m h r /\
  List.length (toolsUsed (meta r)) <= 1 /\ List.length (cards r) <= 1.
Proof.
  cbv zeta.
  assert (D : toolDiscipline w (resolveTurn m h) m h (handleChatTurn w (turn m h))).
  { rewrite handleChatTurn_phases. unfold toolDiscipline.
    destruct (gates w (resolveTurn m h) m h) as [r|[]] eqn:Hg; cbn [andThen].
    - destruct (gates_returns _ _ _ _ Hg) as [(Ha & ->)|(Ha & _ & [H|H])].
      + cbn. auto.
      + auto.
      + auto.
    - destruct (followUp w (resolveTurn m h) m h) as [r|i] eqn:Hf.
      + destruct (followUp_returns _ _ _ _ Hf) as (_ & [H|H]); auto.
      + destruct (dispatch_shape w (resolveTurn m h) i m) as (_ & [H|[H|[H|H]]]); auto 10. }
  split; [exact D|].
  destruct D as [(-> & _ & ->)|[(-> & -> & _)|[(-> & _ & -> & _)|[(-> & -> & _)|[(-> & -> & _)|
             (-> & _ & [->|(p & -> & _)])]]]]]; cbn; lia.
Qed.

(** ** The domain filter *)

Lemma inDomain_is_allowed (w : World) (m : string) (h : list ChatMessage) :
  inDomain (meta (handleChatTurn w (turn m h))) = allowed (resolveTurn m h) m.
Proof.
  rewrite handleChatTurn_phases.
  destruct (gates w (resolveTurn m h) m h) as [r|[]] eqn:Hg; cbn [andThen].
  - destruct (gates_returns _ _ _ _ Hg) as [(Ha & ->)|(Ha & (H1 & _) & _)]; now rewrite Ha.
  - assert (Ha : allowed (resolveTurn m h) m = true).
    { unfold gates in Hg. destruct (allowed (resolveTurn m h) m); [reflexivity|].
      cbn in Hg. discriminate. }
    rewrite Ha.
    destruct (followUp w (resolveTurn m h) m h) as [r|i] eqn:Hf.
    + apply (followUp_returns _ _ _ _ Hf).
    + apply (dispatch_shape w (resolveTurn m h) i m).
Qed.

Lemma findLastPartNumber_truthy (h : list ChatMessage) (p : string) :
  findLastPartNumber h = Some p -> truthy (Some p) = true.
Proof.
  induction h as [|m h IH]; cbn [findLastPartNumber]; [discriminate|].
  destruct (findLastPartNumber h) as [q|].
  - intros E. injection E as <-. apply IH. reflexivity.
  - destruct (truthy (extractPartNumberFromLinkOrText (content m))) eqn:E; [|discriminate].
    intros Hp. rewrite Hp in E. exact E.
Qed.

Lemma part_number_truthy (m p : string) :
  extractPartNumberFromLinkOrText m = Some p -> truthy (Some p) = true.
Proof.
  intros H. destruct (link_or_text_shape m H) as (_ & ds & _ & _ & -> & _).
  reflexivity.
Qed.

(** X22. The domain filter lets every message through while a slot is
    open, when the message contains the letters ps anywhere (in tips or
    perhaps as well as in a part number), and when any earlier message of the
    conversation, the assistant's included, holds a part number. *)
Theorem domain_filter_lets_through (w : World) (m : string) (h : list ChatMessage) :
  (awaiting (resolveTurn m h) <> None \/
   includes (toLowerCase m) "ps" = true \/
   (findLastPartNumber h <> None /\ hasIncompletePart (entities (resolveTurn m h)) = false)) ->
  let r := handleChatTurn w (turn m h) in
  allowed (resolveTurn m h) m = true /\ inDomain (meta r) = true.
Proof.
  intros H. cbv zeta.
  assert (A : allowed (resolveTurn m h) m = true).
  { unfold allowed. destruct H as [H|[H|[H1 H2]]].
    - destruct (awaiting (resolveTurn m h)); [reflexivity | congruence].
    - rewrite H. rewrite !orb_true_r. reflexivity.
    - assert (P : truthy (partNumber (entities (resolveTurn m h))) = true).
      { revert H2. unfold resolveTurn. cbn [entities]. unfold resolveEntities.
        cbn [partNumber hasIncompletePart]. intros ->.
        destruct (extractPartNumberFromLinkOrText m) as [p|] eqn:Hp; cbn [orElseOpt].
        - apply (part_number_truthy m Hp).
        - destruct (findLastPartNumber h) as [p|] eqn:Hf; [|congruence].
          apply (findLastPartNumber_truthy h Hf). }
      rewrite P. rewrite !orb_true_r. reflexivity. }
  split; [exact A|]. now rewrite inDomain_is_allowed.
Qed.

Lemma domain_filter_lets_through_witness :
  let r := handleChatTurn bareWorld (turn weatherMessage greeted) in
  allowed (resolveTurn weatherMessage greeted) weatherMessage = true /\
  inDomain (meta r) = true.
Proof.
  apply (@domain_filter_lets_through bareWorld weatherMessage greeted).
  right. right. split; [vm_compute; discriminate | vm_compute; reflexivity].
Defined.

(** Once the assistant has greeted, a question about the weather is in
    domain and answered with the greeting again. *)
Lemma weather_after_the_greeting (w : World) :
  let r := handleChatTurn w (turn weatherMessage greeted) in
  reply r = replyHome /\ inDomain (meta r) = true /\ intent (meta r) = unknown /\
  x_partNumber (extracted (meta r)) = Some "PS11752778".
Proof.
  cbv zeta. rewrite handleChatTurn_phases.
  assert (G : gates w (resolveTurn weatherMessage greeted) weatherMessage greeted = Next tt)
    by (vm_compute; reflexivity).
  rewrite G. cbn [andThen].
  assert (F : followUp w (resolveTurn weatherMessage greeted) weatherMessage greeted =
              Next unknown)
    by (vm_compute; reflexivity).
  rewrite F. vm_compute. repeat split; reflexivity.
Qed.

(** ** Looking a part up *)

Lemma is_space_upper (c : ascii) : is_space (toUpperChar c) = is_space c.
Proof. destruct c as [[] [] [] [] [] [] [] []]; vm_compute; reflexivity. Qed.

Lemma toUpperChar_idem (c : ascii) : toUpperChar (toUpperChar c) = toUpperChar c.
Proof. destruct c as [[] [] [] [] [] [] [] []]; vm_compute; reflexivity. Qed.

Lemma toUpperCase_idem (s : string) : toUpperCase (toUpperCase s) = toUpperCase s.
Proof.
  unfold toUpperCase. induction s as [|c s IH]; cbn; [reflexivity|].
  now rewrite toUpperChar_idem, IH.
Qed.

Lemma trimStart_upper (s : string) : trimStart (toUpperCase s) = toUpperCase (trimStart s).
Proof.
  unfold toUpperCase. induction s as [|c s IH]; cbn [map_string trimStart]; [reflexivity|].
  rewrite is_space_upper. destruct (is_space c); [exact IH | reflexivity].
Qed.

Lemma trimEnd_upper (s : string) : trimEnd (toUpperCase s) = toUpperCase (trimEnd s).
Proof.
  unfold toUpperCase. induction s as [|c s IH]; cbn [map_string trimEnd]; [reflexivity|].
  rewrite IH, is_space_upper.
  destruct (trimEnd s); cbn [map_string]; [destruct (is_space c)|]; reflexivity.
Qed.

Lemma trimStart_idem (s : string) : trimStart (trimStart s) = trimStart s.
Proof.
  induction s as [|c s IH]; cbn [trimStart]; [reflexivity|].
  destruct (is_space c) eqn:E; [exact IH|]. cbn [trimStart]. now rewrite E.
Qed.

Lemma trimEnd_idem (s : string) : trimEnd (trimEnd s) = trimEnd s.
Proof.
  induction s as [|c s IH]; cbn [trimEnd]; [reflexivity|].
  destruct (trimEnd s) as [|d t] eqn:E.
  - destruct (is_space c) eqn:Ec; cbn [trimEnd]; [reflexivity | now rewrite Ec].
  - cbn [trimEnd]. cbn [trimEnd] in IH. rewrite IH. reflexivity.
Qed.

Lemma trim_comm (s : string) : trimStart (trimEnd s) = trimEnd (trimStart s).
Proof.
  induction s as [|c s IH]; [reflexivity|].
  cbn [trimStart trimEnd]. destruct (is_space c) eqn:Ec.
  - rewrite <- IH. destruct (trimEnd s) as [|d t]; [reflexivity|].
    cbn [trimStart]. now rewrite Ec.
  - cbn [trimEnd]. destruct (trimEnd s) as [|d t]; rewrite ?Ec; cbn [trimStart]; now rewrite Ec.
Qed.

Lemma trim_idem (s : string) : trim (trim s) = trim s.
Proof.
  unfold trim. rewrite trim_comm, trimStart_idem, trimEnd_idem. reflexivity.
Qed.

Lemma trim_upper (s : string) : trim (toUpperCase s) = toUpperCase (trim s).
Proof. unfold trim. now rewrite trimStart_upper, trimEnd_upper. Qed.

Lemma Tools_norm_idem (s : option string) : Tools.norm (Some (Tools.norm s)) = Tools.norm s.
Proof.
  unfold Tools.norm. cbn [orElse]. now rewrite trim_upper, trim_idem, toUpperCase_idem.
Qed.

Lemma loadParts_normalized (raw : list RawPart) (p : Part) :
  In p (Tools.loadParts raw) ->
  exists rp, In rp raw /\ p_partNumber p = Tools.norm (raw_partNumber rp) /\
             p_name p = raw_name rp.
Proof.
  unfold Tools.loadParts. intros H. apply in_map_iff in H. destruct H as (rp & <- & Hin).
  exists rp. auto.
Qed.

Lemma lookup_found_normalized (raw : list RawPart) (pn : string) (p : Part) :
  Tools.part (Tools.toolLookupPart raw pn) = Some p ->
  p_partNumber p = Tools.norm (Some pn) /\
  exists rp, In rp raw /\ Tools.norm (raw_partNumber rp) = Tools.norm (Some pn) /\
             p_name p = raw_name rp.
Proof.
  unfold Tools.toolLookupPart. cbn [Tools.part]. intros H.
  apply find_some in H. destruct H as [Hin Heq]. apply String.eqb_eq in Heq.
  destruct (loadParts_normalized _ _ Hin) as (rp & Hrp & Hp & Hn).
  rewrite Hp, Tools_norm_idem in Heq. split; [now rewrite Hp|].
  exists rp. auto.
Qed.

(** X23. [toolLookupPart] compares part numbers after trimming and
    upper-casing both sides: a part it returns carries the normalised number
    asked for and comes from a catalog row with that number; it returns nothing
    exactly when no catalog row has it; and asking with the normalised number
    gives the same answer. *)
Theorem toolLookupPart_matches_normalized_numbers (raw : list RawPart) (pn : string) :
  (forall p, Tools.part (Tools.toolLookupPart raw pn) = Some p ->
             p_partNumber p = Tools.norm (Some pn) /\
             exists rp, In rp raw /\ Tools.norm (raw_partNumber rp) = Tools.norm (Some pn) /\
                        p_name p = raw_name rp) /\
  (Tools.part (Tools.toolLookupPart raw pn) = None <->
   forall rp, In rp raw -> Tools.norm (raw_partNumber rp) <> Tools.norm (Some pn)) /\
  Tools.toolLookupPart raw (Tools.norm (Some pn)) = Tools.toolLookupPart raw pn.
Proof.
  split; [intros p; apply lookup_found_normalized|].
  unfold Tools.toolLookupPart. cbn [Tools.part]. repeat split.
  - intros Hnone rp Hin E.
    assert (Hp : In {| p_partNumber := Tools.norm (raw_partNumber rp);
                       p_name := raw_name rp; p_price := raw_price rp;
                       p_imageUrl := raw_imageUrl rp;
                       p_appliance := orElse (raw_appliance rp) unknown_appliance;
                       p_compatibleModels :=
                         map (fun m => Tools.norm (Some m)) (raw_compatibleModels rp) |}
                   (Tools.loadParts raw)).
    { unfold Tools.loadParts. apply in_map_iff. exists rp. auto. }
    pose proof (find_none _ _ Hnone _ Hp) as F. cbn [p_partNumber] in F.
    rewrite Tools_norm_idem, E, String.eqb_refl in F. discriminate.
  - intros Hall.
    destruct (find _ (Tools.loadParts raw)) as [p|] eqn:Hf; [|reflexivity]. exfalso.
    apply find_some in Hf. destruct Hf as [Hin Heq]. apply String.eqb_eq in Heq.
    destruct (loadParts_normalized _ _ Hin) as (rp & Hrp & Hp & _).
    rewrite Hp, Tools_norm_idem in Heq. exact (Hall rp Hrp Heq).
  - now rewrite Tools_norm_idem.
Qed.

Lemma digit_is_no_space (a : ascii) : is_digit a = true -> is_space a = false.
Proof. destruct a as [[] [] [] [] [] [] [] []]; vm_compute; congruence. Qed.

Lemma trimEnd_digits (ds : string) : all_digits ds = true -> trimEnd ds = ds.
Proof.
  induction ds as [|a ds IH]; cbn [all_digits trimEnd]; [reflexivity|].
  intros H. apply andb_true_iff in H. destruct H as [Ha H].
  rewrite (IH H), (digit_is_no_space a Ha). destruct ds; reflexivity.
Qed.

(** A part number, as the extractors return it, is its own normal form. *)
Lemma Tools_norm_part_number (ds : string) :
  all_digits ds = true -> 1 <= String.length ds ->
  Tools.norm (Some ("PS" ++ ds)) = "PS" ++ ds.
Proof.
  intros Hall Hl. unfold Tools.norm, trim. cbn [orElse append trimStart].
  change (is_space "P") with false. cbv iota.
  cbn [trimEnd]. rewrite (trimEnd_digits ds Hall).
  destruct ds as [|d ds]; [cbn in Hl; lia|].
  change (toUpperCase (String "P" (String "S" (String d ds))))
    with ("PS" ++ toUpperCase (String d ds)).
  now rewrite (toUpperCase_digits _ Hall).
Qed.

(** X24. When the message holds a part number and the catalog has it, the
    part found carries exactly the number extracted from the message, and the
    reply of the part lookup shows exactly one card, for that part, under that
    number. *)
Theorem a_found_part_is_the_part_typed (w : World) (t : Turn) (m ep : string) (p : Part) :
  extractPartNumberFromLinkOrText m = Some ep ->
  Tools.part (Tools.toolLookupPart (parts_sample w) ep) = Some p ->
  let r := partLookup w t m in
  p_partNumber p = ep /\
  cards r = [cardOf p] /\ card_partNumber (cardOf p) = ep /\
  intent (meta r) = part_lookup /\ toolsUsed (meta r) = ["toolLookupPart"] /\
  (wantsAlternatives m = false ->
   reply r =
     "Found it: " ++ ep ++ " — " ++ p_name p ++ "." ++ nl ++
     (if truthy (modelNumber (entities t))
      then "Want me to check it against your model (" ++ orElse (modelNumber (entities t)) "" ++ ")?"
      else "If you share your model number, I can check compatibility.")).
Proof.
  intros He Hp. cbv zeta.
  destruct (link_or_text_shape m He) as (_ & ds & _ & _ & -> & Hall & Hl).
  assert (Hn : p_partNumber p = "PS" ++ ds).
  { destruct (lookup_found_normalized _ _ Hp) as (E & _).
    rewrite E. apply Tools_norm_part_number; [exact Hall | lia]. }
  unfold partLookup. rewrite He. cbn [truthy append String.eqb negb orElse].
  change (String "P" (String "S" ds)) with ("PS" ++ ds). rewrite Hp.
  split; [exact Hn|].
  destruct (wantsAlternatives m); cbn [cards meta intent toolsUsed withSources withTools withIntent reply];
    repeat split; try exact Hn; try discriminate.
  intros _. rewrite Hn. reflexivity.
Qed.

Lemma a_found_part_is_the_part_typed_witness :
  let m := "do you have ps11752778?" in
  let p := {| p_partNumber := "PS11752778"; p_name := "Refrigerator Door Shelf Bin";
              p_price := Some "$44.95"; p_imageUrl := None; p_appliance := refrigerator;
              p_compatibleModels := ["WDT780SAEM1"] |} in
  let t := resolveTurn m [] in
  let r := partLookup catalogWorld t m in
  p_partNumber p = "PS11752778" /\
  cards r = [cardOf p] /\ card_partNumber (cardOf p) = "PS11752778" /\
  intent (meta r) = part_lookup /\ toolsUsed (meta r) = ["toolLookupPart"] /\
  (wantsAlternatives m = false ->
   reply r =
     "Found it: " ++ "PS11752778" ++ " — " ++ p_name p ++ "." ++ nl ++
     (if truthy (modelNumber (entities t))
      then "Want me to check it against your model (" ++ orElse (modelNumber (entities t)) "" ++ ")?"
      else "If you share your model number, I can check compatibility.")).
Proof.
  apply (@a_found_part_is_the_part_typed catalogWorld (resolveTurn "do you have ps11752778?" [])
           "do you have ps11752778?" "PS11752778").
  - vm_compute. reflexivity.
  - vm_compute. reflexivity.
Defined.


(** ** From each reply to the next slot *)

Lemma nextSlot_decodes (h : list ChatMessage) (reply : string) :
  nextSlot h reply = slotOfAssistantText (toLowerCase reply).
Proof.
  unfold nextSlot, inferDialogState. rewrite lastAssistant_app. reflexivity.
Qed.

(** X25. The slot of the next turn is decoded from the text of the last
    reply alone, whatever came before.  For the scripted replies listed here
    (those of the drain, refrigerator and install flows, with the example part
    number and no model number, of the order and handoff flows, the re-asks of
    the slots, the greeting and the redirect) this is the slot that
    [inferDialogState] reads back.  The reply built from a guide is not listed:
    its slot depends on the snippet of the guide.  Several replies that end in
    a question decode to no slot (the air-gap and high-loop checks, the bucket
    test, the freezer questions, the panel, latch and connector checks, the
    order question), so the answer to them is read without a slot; the reply to
    a no in the knockout slot decodes to the knockout slot again. *)
Theorem dialog_graph (h : list ChatMessage) :
  (* the drain flow *)
  nextSlot h (troubleshootDishwasher None false) = Some pump_sound /\
  nextSlot h (troubleshootDishwasher None true) = Some pump_sound /\
  map (fun ps => nextSlot h (replyPumpSound ps)) [running; humming; silent; unknown_sound] =
    [Some dishwasher_drain_speed; Some dishwasher_drain_speed; None; Some pump_sound] /\
  map (fun k => nextSlot h (troubleshootDishwasherDrainSpeedFollowup k)) [slow; standing] =
    [Some drain_hose_setup; Some pump_sound] /\
  map (fun k => nextSlot h (troubleshootDishwasherHoseSetupFollowup k))
      [high_loop; sink_connection; air_gap; neither; unknown_setup] =
    [Some sink_connection_type; Some sink_connection_type; None; None;
     Some sink_connection_type] /\
  map (fun k => nextSlot h (troubleshootDishwasherSinkConnectionFollowup k))
      [disposal; tailpiece; unknown_connection] =
    [Some disposal_flow_yesno; Some tailpiece_gunk_yesno; Some sink_connection_type] /\
  map (fun yn => nextSlot h (replyDisposalFlowYesNo yn)) [true; false] =
    [Some disposal_knockout_yesno; None] /\
  map (fun yn => nextSlot h (replyDisposalKnockoutYesNo yn)) [true; false] =
    [Some did_it_fix_yesno; Some disposal_knockout_yesno] /\
  map (fun yn => nextSlot h (replyTailpieceGunkYesNo yn)) [true; false] =
    [Some did_it_fix_yesno; Some did_it_fix_yesno] /\
  map (fun yn => nextSlot h (replyDidItFixClose yn)) [true; false] = [None; None] /\
  (* the refrigerator flow *)
  map (fun m => nextSlot h (reply (troubleshoot fridgeTurn m))) [fridgeMessage; iceMessage] =
    [Some fridge_freezer_warming_yesno; None] /\
  map (fun yn => nextSlot h (replyFreezerWarming yn)) [true; false] = [None; None] /\
  (* the install flow *)
  nextSlot h (compactInstallSteps "PS11752778" None) = Some install_step /\
  map (fun n => nextSlot h (compactInstallRepeatVariant "PS11752778" None n)) [1; 2] =
    [Some install_step; Some install_step] /\
  map (fun s => nextSlot h (replyInstallStepHelp s))
      [step_panel; step_clamps; step_connector; step_unknown] =
    [Some panel_fastener; Some clamp_type; Some connector_latch_side; Some install_step] /\
  map (fun k => nextSlot h (replyPanelFastenerHelp k)) [screws; clips] =
    [Some panel_still_wont_drop_yesno; None] /\
  map (fun yn => nextSlot h (replyPanelStillWontDrop yn)) [true; false] = [None; None] /\
  map (fun k => nextSlot h (replyClampType k)) [spring; screw] = [None; None] /\
  map (fun k => nextSlot h (replyConnectorLatchHelp k)) [top; side] =
    [Some connector_moving_or_stuck; Some connector_moving_or_stuck] /\
  nextSlot h "Got it — where is the latch: top, or side?" = Some connector_latch_side /\
  nextSlot h replyNoLatch = None /\
  map (fun k => nextSlot h (replyMovingOrStuck k)) [moving; stuck; unknown_motion] =
    [None; None; Some connector_moving_or_stuck] /\
  (* orders and the handoff *)
  map (fun a => nextSlot h (replyOrderIntake a)) [ask_both; ask_order_id; ask_zip] =
    [Some (order_info ask_both); Some (order_info ask_order_id); Some (order_info ask_zip)] /\
  nextSlot h (replyOrderStub None None) = None /\
  nextSlot h replyAskEmail = None /\
  handoffPending (h ++ [mkMsg assistant replyAskEmail]) = true /\
  nextSlot h (replyTicket "TCK-123456") =
    Some (choice [opt_compatibility; opt_install; opt_symptom]) /\
  (* the re-asks *)
  map (fun s => nextSlot h (reask s))
      [pump_sound; dishwasher_drain_speed; drain_hose_setup; sink_connection_type;
       disposal_flow_yesno; disposal_knockout_yesno; tailpiece_gunk_yesno; did_it_fix_yesno;
       install_step; clamp_type; panel_fastener; connector_latch_side;
       panel_still_wont_drop_yesno; connector_moving_or_stuck; fridge_freezer_warming_yesno] =
    [Some pump_sound; Some dishwasher_drain_speed; Some sink_connection_type;
     Some sink_connection_type; Some disposal_flow_yesno; Some disposal_knockout_yesno;
     Some tailpiece_gunk_yesno; Some did_it_fix_yesno; Some install_step; Some clamp_type;
     Some panel_fastener; None; Some panel_still_wont_drop_yesno;
     Some connector_moving_or_stuck; Some fridge_freezer_warming_yesno] /\
  map (nextSlot h) [replyAckMenu; replyAskForFullPart (Some "PS117")] = [None; None] /\
  (* the greeting and the redirect *)
  nextSlot h replyHome = None /\ nextSlot h replyOutOfDomain = None.
Proof.
  unfold handoffPending. rewrite lastAssistant_app. cbn [map lastAssistant role Role_eqb content].
  rewrite !nextSlot_decodes.
  vm_compute. repeat split; reflexivity.
Qed.

(** ** Compatibility and guide search *)

(** X26. [toolCheckCompatibility] answers from the compatibility index
    whenever the index has a row for the part, whatever the catalog says (an
    index row without models makes every model incompatible); only without such
    a row does it read the catalog, where a part without models gives no
    verdict. Part and model numbers are compared trimmed and upper-cased. *)
Theorem compatibility_index_takes_precedence (rawCompat : list RawCompatibilityRow)
    (rawParts : list RawPart) (pn mn : string) :
  let index := Tools.loadCompatibility rawCompat in
  let catalog := Tools.loadParts rawParts in
  let key := Tools.norm (Some pn) in
  let r := Tools.toolCheckCompatibility rawCompat rawParts pn mn in
  (forall row, find (fun r => row_partNumber r === key) index = Some row ->
     Tools.compatible r = Some (has (row_models row) (Tools.norm (Some mn))) /\
     forall otherParts, Tools.toolCheckCompatibility rawCompat otherParts pn mn = r) /\
  (find (fun r => row_partNumber r === key) index = None ->
   forall p, find (fun p => p_partNumber p === key) catalog = Some p ->
     Tools.compatible r =
       match p_compatibleModels p with
       | [] => None
       | models => Some (has (map (fun m => Tools.norm (Some m)) models) (Tools.norm (Some mn)))
       end) /\
  Tools.toolCheckCompatibility rawCompat rawParts (Tools.norm (Some pn)) (Tools.norm (Some mn)) = r.
Proof.
  cbv zeta. unfold Tools.toolCheckCompatibility. split; [|split].
  - intros row Hrow. rewrite Hrow. split; [reflexivity|]. intros otherParts. reflexivity.
  - intros Hnone p Hp. rewrite Hnone, Hp. destruct (p_compatibleModels p); reflexivity.
  - now rewrite !Tools_norm_idem.
Qed.

(** The index row decides against the catalog; without it the catalog
    decides; without either there is no verdict. *)
Lemma compatibility_index_takes_precedence_example :
  let index := [ {| raw_row_partNumber := Some " ps11752778 "; raw_row_models := [] |} ] in
  let catalog := [ {| raw_partNumber := Some "PS11752778"; raw_name := "Door shelf bin";
                     raw_price := None; raw_imageUrl := None; raw_appliance := None;
                     raw_compatibleModels := ["wdt780saem1"] |} ] in
  Tools.compatible (Tools.toolCheckCompatibility index catalog "PS11752778" "WDT780SAEM1") =
    Some false /\
  Tools.compatible (Tools.toolCheckCompatibility [] catalog "ps11752778" " wdt780saem1") =
    Some true /\
  Tools.compatible (Tools.toolCheckCompatibility [] [] "PS11752778" "WDT780SAEM1") = None.
Proof. vm_compute. repeat split; reflexivity. Qed.












(** ** The classifier's answer *)

Lemma run_lit_char (x : ascii) (k : cursor -> option cursor) (c : cursor) :
  run false (lit (String x "")) k c =
  match rest c with
  | String a s' => if (x =? a)%char then k (step a s' c) else None
  | EmptyString => None
  end.
Proof. cbn [lit run accepts]. destruct (rest c); reflexivity. Qed.

Lemma run_anything (k : cursor -> option cursor) (c : cursor) (a : ascii) (s' : string) :
  rest c = String a s' ->
  run false (Chr (fun c => is_space c || negb (is_space c))) k c = k (step a s' c).
Proof. intros Hr. cbn [run accepts]. now rewrite Hr, orb_negb_r. Qed.

(** After the last closing brace the loop of [[\s\S]*] finds no end. *)
Lemma braces_loop_fails (post : string) :
  forall fuel n c,
    rest c = post -> any_char (Ascii.eqb "}") post = false ->
    iterate (run false (Chr (fun c => is_space c || negb (is_space c)))) 0 None
      (run false (lit "}") (fun e => Some e)) fuel n c = None.
Proof.
  induction post as [|a post IH]; intros fuel n c Hr Hno.
  - assert (Hstop : run false (lit "}") (fun e => Some e) c = None).
    { rewrite run_lit_char, Hr. reflexivity. }
    destruct fuel; cbn [iterate below Nat.leb]; [exact Hstop|].
    replace (run false (Chr (fun c => is_space c || negb (is_space c))) _ c) with (@None cursor).
    + exact Hstop.
    + cbn [run]. now rewrite Hr.
  - cbn [any_char] in Hno. apply orb_false_iff in Hno. destruct Hno as [Ha Hno].
    assert (Hstop : run false (lit "}") (fun e => Some e) c = None).
    { rewrite run_lit_char, Hr, Ha. reflexivity. }
    destruct fuel; cbn [iterate below Nat.leb]; [exact Hstop|].
    rewrite (@run_anything _ c a post Hr). cbn [step rest]. rewrite Hr. cbn [String.length].
    destruct (Nat.ltb_spec (String.length post) (S (String.length post))); [|lia].
    rewrite (IH fuel (S n) (step a post c) eq_refl Hno). exact Hstop.
Qed.

(** The loop of [[\s\S]*] runs to the last closing brace. *)
Lemma braces_loop_last (x post : string) :
  forall fuel n c,
    rest c = x ++ "}" ++ post -> any_char (Ascii.eqb "}") post = false ->
    String.length (rest c) <= fuel ->
    iterate (run false (Chr (fun c => is_space c || negb (is_space c)))) 0 None
      (run false (lit "}") (fun e => Some e)) fuel n c =
    Some {| before := Some "}"%char; rest := post; groups := groups c |}.
Proof.
  induction x as [|a x IH]; intros fuel n c Hr Hno Hf.
  - cbn [append] in Hr. rewrite Hr in Hf. cbn [String.length] in Hf.
    destruct fuel as [|fuel]; [lia|]. cbn [iterate below Nat.leb].
    rewrite (@run_anything _ c "}" post Hr). cbn [step rest]. rewrite Hr. cbn [String.length].
    destruct (Nat.ltb_spec (String.length post) (S (String.length post))); [|lia].
    rewrite (@braces_loop_fails post fuel (S n) (step "}" post c) eq_refl Hno).
    rewrite run_lit_char, Hr. reflexivity.
  - cbn [append] in Hr. rewrite Hr in Hf. cbn [String.length] in Hf.
    destruct fuel as [|fuel]; [lia|]. cbn [iterate below Nat.leb].
    rewrite (@run_anything _ c a (x ++ "}" ++ post) Hr). cbn [step rest]. rewrite Hr.
    cbn [String.length].
    rewrite (IH fuel (S n) (step a (x ++ "}" ++ post) c)); [| reflexivity | exact Hno |].
    + match goal with
      | |- context [?u <? ?v] =>
          replace (u <? v) with true by (symmetry; apply Nat.ltb_lt; cbn [append]; lia)
      end.
      reflexivity.
    + cbn [step rest append]. lia.
Qed.

Lemma braces_at_the_first_brace (prev : option ascii) (mid post : string) :
  any_char (Ascii.eqb "}") post = false ->
  run false Groq.BRACES_RE (fun e => Some e)
    {| before := prev; rest := "{" ++ mid ++ "}" ++ post; groups := [] |} =
  Some {| before := Some "}"%char; rest := post; groups := [] |}.
Proof.
  intros Hno. unfold Groq.BRACES_RE, star. cbn [run lit accepts rest append step].
  cbn [Ascii.eqb Bool.eqb andb].
  apply (@braces_loop_last mid post); [reflexivity | exact Hno | apply Nat.le_refl].
Qed.

Lemma braces_skip (pre : string) :
  forall prev i tail,
    any_char (Ascii.eqb "{") pre = false ->
    scan false Groq.BRACES_RE prev (pre ++ tail) i =
    scan false Groq.BRACES_RE (last_char prev pre) tail (i + String.length pre).
Proof.
  induction pre as [|a pre IH]; intros prev i tail Hno.
  - cbn [append last_char String.length]. now rewrite Nat.add_0_r.
  - cbn [any_char] in Hno. apply orb_false_iff in Hno. destruct Hno as [Ha Hno].
    cbn [append scan]. unfold Groq.BRACES_RE at 1. cbn [run lit accepts rest]. rewrite Ha.
    rewrite (IH (Some a) (S i) tail Hno). cbn [last_char String.length].
    replace (i + S (String.length pre)) with (S i + String.length pre) by lia. reflexivity.
Qed.

Lemma braces_match (pre mid post : string) :
  any_char (Ascii.eqb "{") pre = false ->
  any_char (Ascii.eqb "}") post = false ->
  match0 (exec false Groq.BRACES_RE (pre ++ "{" ++ mid ++ "}" ++ post)) =
  Some ("{" ++ mid ++ "}").
Proof.
  intros Hpre Hpost. unfold exec. rewrite (@braces_skip pre None 0 _ Hpre).
  rewrite (@scan_hit false Groq.BRACES_RE _ _ _ _
             (@braces_at_the_first_brace (last_char None pre) mid post Hpost)).
  cbn [match0 m_0]. f_equal.
  replace ("{" ++ mid ++ "}" ++ post) with (("{" ++ mid ++ "}") ++ post).
  2:{ cbn [append]. now rewrite append_assoc. }
  apply consumed_prefix. reflexivity.
Qed.

(** X28. On a string [safeJsonParse] never throws: text that parses is
    returned parsed; text that does not parse but holds braces is parsed again
    from its first opening brace to its last closing brace, so JSON wrapped in
    prose or in a code fence is recovered; text without an opening brace gives
    null.  On a value that is no string it returns what [JSON.parse] makes of
    [String] of the value, and throws when that does not parse; the adapter
    catches it and answers [unknown]. *)
Theorem safeJsonParse_tolerates_prose (parse : string -> option json)
    (s pre mid post : string) (x : json) (key : option string) (text : string)
    (p : Pending) (resp : HttpResponse) (data : json) (net : list Pending) :
  Groq.safeJsonParse parse (JStr s) <> Groq.Throws /\
  (forall v, parse s = Some v -> Groq.safeJsonParse parse (JStr s) = Groq.Ok v) /\
  (parse s = None ->
   s = pre ++ "{" ++ mid ++ "}" ++ post ->
   any_char (Ascii.eqb "{") pre = false ->
   any_char (Ascii.eqb "}") post = false ->
   Groq.safeJsonParse parse (JStr s) =
   Groq.Ok (match parse ("{" ++ mid ++ "}") with Some v => v | None => JNull end)) /\
  (parse s = None -> any_char (Ascii.eqb "{") s = false ->
   Groq.safeJsonParse parse (JStr s) = Groq.Ok JNull) /\
  ((forall str, x <> JStr str) ->
   Groq.safeJsonParse parse x =
   match parse (Groq.js_String x) with Some v => Groq.Ok v | None => Groq.Throws end) /\
  (outcome p = Some resp -> json_body resp = Some data ->
   Groq.safeJsonParse parse (Groq.messageContent data) = Groq.Throws ->
   fst (Groq.groqParsePumpSound parse key text (p :: net)) = unknown_sound).
Proof.
  unfold Groq.safeJsonParse. cbn [Groq.js_String]. repeat split.
  - destruct (parse s); [discriminate|].
    destruct (exec false Groq.BRACES_RE s) as [m|]; [|discriminate].
    destruct (parse (m_0 m)); discriminate.
  - intros v ->. reflexivity.
  - intros Hnone -> Hpre Hpost. rewrite Hnone.
    pose proof (@braces_match pre mid post Hpre Hpost) as Hm.
    destruct (exec false Groq.BRACES_RE _) as [m|]; [|discriminate Hm].
    cbn [match0] in Hm. injection Hm as ->.
    cbn [append]. destruct (parse (String "{" (mid ++ "}"))); reflexivity.
  - intros Hnone Hno. rewrite Hnone.
    pose proof (@braces_skip s None 0 "" Hno) as Hk.
    replace (s ++ "") with s in Hk.
    2:{ clear. induction s as [|a s IH]; cbn; [reflexivity | now rewrite <- IH]. }
    unfold exec. rewrite Hk. cbn [scan]. reflexivity.
  - intros Hx. destruct (parse (Groq.js_String x)); [reflexivity|].
    destruct x; try reflexivity. exfalso. eapply Hx. reflexivity.
  - intros Ho Hb Ht. unfold Groq.groqParsePumpSound.
    destruct (negb (truthy key)); [reflexivity|].
    unfold Groq.withTimeout. rewrite Ho.
    destruct (settlesAfter p) as [t|]; [|reflexivity].
    destruct (t <=? Groq.GROQ_TIMEOUT_MS)%N; [|reflexivity].
    unfold Groq.classifyResponse, Groq.safeJsonParse. rewrite Hb.
    destruct (ok resp); cbn [negb]; [|reflexivity].
    rewrite Ht. reflexivity.
Qed.

